(** * Personalization, notification and scheduling core of the daily-facts backend

    A shallow embedding of
    - the personalization service (profile building, scoring, candidate
      selection, diversification, recommendations, fallback),
    - the notification service (sending, daily-fact notification, retry
      job, clean-up),
    - the scheduler service (per-user daily distribution step, streak
      job, registry of the jobs),
    together with the properties of the specification that concern them.

    Conventions of the embedding.
    - JavaScript numbers that hold counters, limits and lengths are [nat] or
      [Z]; the ones that hold rates and scores are exact rationals [Q]
      (rounding of IEEE doubles is not modelled).
    - Timestamps are milliseconds since the epoch, in [Z].
    - A database table is the list of its rows; an [include] of a required
      relation is an inner join (the foreign keys guarantee the partner row).
    - Every [await]ed repository call may reject: the world carries the
      list of outcomes of the calls still to come.
    - The objects used as maps from ids (of facts, categories, users) are
      finite maps: the ids are generated by the database and are never
      names of properties that objects inherit. *)

From Stdlib Require Import ZArith QArith Qminmax Qabs Qround DecimalString Lqa.
From Stdlib Require Import Ascii String.
From stdpp Require Import base decidable option list gmap strings sorting.

Local Open Scope string_scope.
Local Open Scope list_scope.
Local Open Scope Z_scope.
Local Open Scope nat_scope.

(** ** Data model (the relational schema, as the services read it) *)

Inductive Difficulty := EASY | MEDIUM | HARD | EXPERT.

Inductive NotificationStatus :=
  PENDING | SENT | DELIVERED | OPENED | FAILED | CANCELLED.

#[global] Instance Difficulty_eq_dec : EqDecision Difficulty.
Proof. solve_decision. Defined.

#[global] Instance NotificationStatus_eq_dec : EqDecision NotificationStatus.
Proof. solve_decision. Defined.

(** [difficultyOrder.indexOf(d)] for
    [difficultyOrder = ['EASY', 'MEDIUM', 'HARD', 'EXPERT']]. *)
Definition difficultyIndex (d : Difficulty) : nat :=
  match d with EASY => 0 | MEDIUM => 1 | HARD => 2 | EXPERT => 3 end.

Definition difficultyOfIndex (n : nat) : Difficulty :=
  match n with 0 => EASY | 1 => MEDIUM | 2 => HARD | _ => EXPERT end.

#[global] Instance Difficulty_countable : Countable Difficulty.
Proof.
  apply (inj_countable' difficultyIndex difficultyOfIndex).
  intros []; reflexivity.
Defined.

Record Fact := {
  fact_id : string;
  title : string;
  shortContent : option string;
  imageUrl : option string;
  categoryId : string;
  difficulty : Difficulty;
  tags : list string;
  isApproved : bool;
  isFeatured : bool;
  isActive : bool;
  viewCount : Z;
  likeCount : Z;
  shareCount : Z;
  publishedAt : option Z;
  createdAt : Z;
}.

Record Category := {
  category_id : string;
  category_name : string;
}.

Record User := {
  user_id : string;
  timezone : string;
  user_isActive : bool;
  notificationsEnabled : bool;
  dailyNotificationTime : string;
  maxNotificationsPerDay : Z;
  weekendNotifications : bool;
  difficultyLevel : Difficulty;
  currentStreak : Z;
  longestStreak : Z;
  lastActiveDate : option Z;
  user_createdAt : Z;
}.

Record UserCategory := {
  uc_userId : string;
  uc_categoryId : string;
  isEnabled : bool;
}.

Record UserFact := {
  uf_userId : string;
  factId : string;
  isViewed : bool;
  isLiked : bool;
  isBookmarked : bool;
  isShared : bool;
  viewedAt : option Z;
  uf_updatedAt : Z;
}.

Record UserSession := {
  us_userId : string;
  deviceId : option string;
  us_isActive : bool;
  expiresAt : Z;
}.

(** What a push attempt resolves to: [{ success, messageId, error,
    shouldDelete, successCount, failureCount, failedTokens }] (absent
    properties are [None], [false] and the empty list). *)
Record SendResult := {
  success : bool;
  messageId : option string;
  error : option string;
  shouldDelete : bool;
  successCount : option nat;
  failureCount : option nat;
  failedTokens : list string;
}.

(** [{ success: false, error }] *)
Definition failure (message : string) : SendResult :=
  {| success := false; messageId := None; error := Some message;
     shouldDelete := false; successCount := None; failureCount := None;
     failedTokens := [] |}.

(** What Firebase answers to [messaging().send]: a message id, or an
    error with its code and message. *)
Inductive Delivery :=
  | Accepted (messageId : string)
  | Refused (code message : string).

(** What Firebase answers to [messaging().sendMulticast]: one answer per
    token, or an error for the whole call. *)
Inductive Batch :=
  | Responses (responses : list Delivery)
  | BatchError (message : string).

Record Notification := {
  notification_id : string;
  n_userId : string;
  n_factId : option string;
  n_title : string;
  n_body : string;
  n_imageUrl : option string;
  status : NotificationStatus;
  scheduledFor : Z;
  sentAt : option Z;
  fcmMessageId : option string;
  fcmResponse : option SendResult; (* stored as its JSON text *)
  retryCount : nat;
  nextRetryAt : option Z;
  errorMessage : option string;
  n_createdAt : Z;
}.

Record Store := {
  users : list User;
  categories : list Category;
  userCategories : list UserCategory;
  facts : list Fact;
  userFacts : list UserFact;
  userSessions : list UserSession;
  notifications : list Notification;
}.

(** ** Sorting

    [Array.prototype.sort] with a comparator and Prisma's [orderBy] are
    modelled by a stable insertion sort: [before a b] says that [a] may
    stay in front of [b]. *)

Section Sorting.
Context {A : Type} (before : A -> A -> bool).

Fixpoint insertBy (x : A) (l : list A) : list A :=
  match l with
  | [] => [x]
  | y :: l' => if before x y then x :: y :: l' else y :: insertBy x l'
  end.

Definition sortBy (l : list A) : list A := foldr insertBy [] l.
End Sorting.

(** ** The user profile built by the personalization service *)

Record InteractionStats := {
  totalViewed : nat;
  totalLiked : nat;
  totalBookmarked : nat;
  totalShared : nat;
  recentActivity : nat;
  likeRate : Q;
  bookmarkRate : Q;
  shareRate : Q;
  engagementScore : Q;
}.

Inductive Trend := increasing | decreasing | stable.

Record LearningPatterns := {
  difficultyProgression : Trend;
  topicDiversity : Q;
  engagementTrends : Trend;
  preferredTags : list string;
  learningVelocity : Q;
  consistencyScore : Q;
}.

Record CategoryPreference := {
  name : string;
  engagement : Q;
}.

(** [{ ...user, preferredCategories, categoryPreferences, interactionStats,
       learningPatterns, personalityScore }] for the selected user columns. *)
Record UserProfile := {
  p_id : string;
  p_difficultyLevel : Difficulty;
  p_timezone : string;
  p_currentStreak : Z;
  p_longestStreak : Z;
  p_createdAt : Z;
  p_lastActiveDate : option Z;
  preferredCategories : list string;
  categoryPreferences : gmap string CategoryPreference;
  interactionStats : InteractionStats;
  learningPatterns : LearningPatterns;
  personalityScore : Q;
}.

(** A candidate as [getPersonalizedFacts] returns it: a fact row, with the
    [personalizedScore] property when it went through [scoreAndRankFacts]. *)
Record Candidate := {
  fact : Fact;
  personalizedScore : option Q;
}.

Definition plain (f : Fact) : Candidate :=
  {| fact := f; personalizedScore := None |}.

(** ** The world the services run in

    - [db]: the database;
    - [now]: the clock;
    - [faults]: for each repository call still to come, whether it rejects
      (no entry: the call answers);
    - [randoms]: the values [Math.random()] will return;
    - [firebase]: whether [initializeFirebase] yields the SDK;
    - [pushes], [multicasts]: what Firebase will answer to the sends;
    - [freshIds]: the ids the database will give to created rows. *)
Record World := {
  db : Store;
  now : Z;
  faults : list bool;
  randoms : list Q;
  firebase : bool;
  pushes : list Delivery;
  multicasts : list Batch;
  freshIds : list string;
}.

Definition withDb (s : Store) (w : World) : World :=
  {| db := s; now := now w; faults := faults w; randoms := randoms w;
     firebase := firebase w; pushes := pushes w; multicasts := multicasts w;
     freshIds := freshIds w |}.

Definition withFaults (fs : list bool) (w : World) : World :=
  {| db := db w; now := now w; faults := fs;
     randoms := randoms w; firebase := firebase w; pushes := pushes w;
     multicasts := multicasts w; freshIds := freshIds w |}.

Definition withRandoms (rs : list Q) (w : World) : World :=
  {| db := db w; now := now w; faults := faults w;
     randoms := rs; firebase := firebase w; pushes := pushes w;
     multicasts := multicasts w; freshIds := freshIds w |}.

Definition withPushes (ps : list Delivery) (w : World) : World :=
  {| db := db w; now := now w; faults := faults w;
     randoms := randoms w; firebase := firebase w; pushes := ps;
     multicasts := multicasts w; freshIds := freshIds w |}.

Definition withMulticasts (bs : list Batch) (w : World) : World :=
  {| db := db w; now := now w; faults := faults w;
     randoms := randoms w; firebase := firebase w; pushes := pushes w;
     multicasts := bs; freshIds := freshIds w |}.

Definition withFreshIds (ids : list string) (w : World) : World :=
  {| db := db w; now := now w; faults := faults w;
     randoms := randoms w; firebase := firebase w; pushes := pushes w;
     multicasts := multicasts w; freshIds := ids |}.

Definition withNotifications (ns : list Notification) (s : Store) : Store :=
  {| users := users s; categories := categories s;
     userCategories := userCategories s; facts := facts s;
     userFacts := userFacts s; userSessions := userSessions s;
     notifications := ns |}.

(** ** The effects of the services

    An asynchronous function either returns, throws (rejects), or does not
    finish within the fuel given to its loops. *)

Inductive JsError := RepositoryError | TypeError.

Inductive Outcome (A : Type) :=
  | Returned (a : A)
  | Thrown (e : JsError)
  | Diverged.
Arguments Returned {A} a.
Arguments Thrown {A} e.
Arguments Diverged {A}.

Definition M (A : Type) : Type := World -> Outcome A * World.

Definition ret {A} (a : A) : M A := fun w => (Returned a, w).

Definition throw {A} (e : JsError) : M A := fun w => (Thrown e, w).

Definition diverge {A} : M A := fun w => (Diverged, w).

Definition bind {A B} (m : M A) (k : A -> M B) : M B :=
  fun w =>
    match m w with
    | (Returned a, w') => k a w'
    | (Thrown e, w') => (Thrown e, w')
    | (Diverged, w') => (Diverged, w')
    end.

Notation "'let!' x ':=' m 'in' k" := (bind m (fun x => k))
  (at level 10, x pattern, m at level 100, k at level 200).

(** [try { body } catch (error) { handler }] *)
Definition tryCatch {A} (body : M A) (handler : JsError -> M A) : M A :=
  fun w =>
    match body w with
    | (Returned a, w') => (Returned a, w')
    | (Thrown e, w') => handler e w'
    | (Diverged, w') => (Diverged, w')
    end.

(** [await Promise.all([a, b])]: both calls are made; the result rejects
    when one of them does. *)
Definition promiseAll {A B} (a : M A) (b : M B) : M (A * B) :=
  fun w =>
    let (ra, w1) := a w in
    let (rb, w2) := b w1 in
    match ra, rb with
    | Returned x, Returned y => (Returned (x, y), w2)
    | Diverged, _ | _, Diverged => (Diverged, w2)
    | Thrown e, _ => (Thrown e, w2)
    | _, Thrown e => (Thrown e, w2)
    end.

(** One round trip to the database: it answers or rejects. *)
Definition roundTrip : M unit :=
  fun w =>
    match faults w with
    | [] => (Returned tt, w)
    | rejects :: later =>
        (if rejects : bool then Thrown RepositoryError else Returned tt,
         withFaults later w)
    end.

(** A read of the database. *)
Definition query {A} (q : Store -> A) : M A :=
  let! _ := roundTrip in fun w => (Returned (q (db w)), w).

(** A write to the database. *)
Definition mutate (f : Store -> Store) : M unit :=
  let! _ := roundTrip in fun w => (Returned tt, withDb (f (db w)) w).

(** [Date.now()], [new Date()] *)
Definition dateNow : M Z := fun w => (Returned (now w), w).

(** [Math.random()] *)
Definition mathRandom : M Q :=
  fun w =>
    match randoms w with
    | [] => (Returned 0%Q, w)
    | r :: later => (Returned r, withRandoms later w)
    end.

(** [for (const x of xs) { await body(x) }] *)
Fixpoint forEach {A} (xs : list A) (body : A -> M unit) : M unit :=
  match xs with
  | [] => ret tt
  | x :: rest => let! _ := body x in forEach rest body
  end.

(** ** Where clauses on facts *)

Record FactWhere := {
  where_isApproved : option bool;
  where_isActive : option bool;
  where_publishedAt_lte : option Z;
  where_difficulty : option Difficulty;
  where_categoryId_in : option (list string);
  where_id_notIn : option (list string);
}.

Definition includes (l : list string) (x : string) : bool :=
  existsb (String.eqb x) l.

Definition holds {A} (clause : option A) (test : A -> bool) : bool :=
  match clause with
  | None => true
  | Some a => test a
  end.

Definition factMatches (wh : FactWhere) (f : Fact) : bool :=
  holds (where_isApproved wh) (fun b => Bool.eqb (isApproved f) b)
  && holds (where_isActive wh) (fun b => Bool.eqb (isActive f) b)
  && holds (where_publishedAt_lte wh)
       (fun t => match publishedAt f with
                 | Some p => (p <=? t)%Z
                 | None => false
                 end)
  && holds (where_difficulty wh) (fun d => bool_decide (difficulty f = d))
  && holds (where_categoryId_in wh) (fun cs => includes cs (categoryId f))
  && holds (where_id_notIn wh) (fun ids => negb (includes ids (fact_id f))).

(** [{ isApproved: true, isActive: true, publishedAt: { lte: new Date() } }] *)
Definition eligibleWhere (t : Z) : FactWhere :=
  {| where_isApproved := Some true; where_isActive := Some true;
     where_publishedAt_lte := Some t; where_difficulty := None;
     where_categoryId_in := None; where_id_notIn := None |}.

Definition eligible (t : Z) (f : Fact) : bool := factMatches (eligibleWhere t) f.

(** [orderBy: [{ isFeatured: 'desc' }, { createdAt: 'desc' }]] *)
Definition byFeaturedThenNewest (a b : Fact) : bool :=
  if Bool.eqb (isFeatured a) (isFeatured b)
  then (createdAt b <=? createdAt a)%Z
  else isFeatured a.

(** [orderBy: { createdAt: 'desc' }] *)
Definition byNewest (a b : Fact) : bool := (createdAt b <=? createdAt a)%Z.

(** [orderBy: [{ isFeatured: 'desc' }, { likeCount: 'desc' }, { viewCount: 'desc' }]] *)
Definition byFeaturedLikesViews (a b : Fact) : bool :=
  if Bool.eqb (isFeatured a) (isFeatured b)
  then if (likeCount a =? likeCount b)%Z
       then (viewCount b <=? viewCount a)%Z
       else (likeCount b <? likeCount a)%Z
  else isFeatured a.

(** [prisma.fact.findMany({ where, take, orderBy })] *)
Definition findFacts (wh : FactWhere) (order : Fact -> Fact -> bool) (n : nat)
    (s : Store) : list Fact :=
  take n (sortBy order (List.filter (factMatches wh) (facts s))).

(** [prisma.userFact.findMany({ where: { userId, isViewed: true },
      select: { factId: true } })], mapped to the ids. *)
Definition viewedFactIds (userId : string) (s : Store) : list string :=
  map factId
    (List.filter (fun uf => String.eqb (uf_userId uf) userId && isViewed uf)
       (userFacts s)).

Definition ofNat (n : nat) : Q := inject_Z (Z.of_nat n).

Module PersonalizationService.

(** [a > b] on numbers *)
Definition gt (a b : Q) : bool := negb (Qle_bool a b).

(** A row of [userFact.findMany({ ..., include: { fact: ... } })]. *)
Record View := {
  interaction : UserFact;
  viewed : Fact;
}.

Definition findFact (s : Store) (id : string) : option Fact :=
  List.find (fun f => String.eqb (fact_id f) id) (facts s).

Definition withFact (s : Store) (uf : UserFact) : option View :=
  match findFact s (factId uf) with
  | Some f => Some {| interaction := uf; viewed := f |}
  | None => None
  end.

(** [viewedAt: { gte: t }] ([null] never matches) *)
Definition viewedSince (t : Z) (uf : UserFact) : bool :=
  match viewedAt uf with
  | Some at_ => (t <=? at_)%Z
  | None => false
  end.

(** [new Date(v.viewedAt).getTime()] *)
Definition getTime (d : option Z) : Z := default 0%Z d.

(** *** Helper methods for score calculations *)

Definition calculateDifficultyMatch (factDifficulty : Difficulty)
    (userProfile : UserProfile) : Q :=
  let userDifficulty := p_difficultyLevel userProfile in
  let factLevel := Z.of_nat (difficultyIndex factDifficulty) in
  let userLevel := Z.of_nat (difficultyIndex userDifficulty) in
  if (factLevel =? userLevel)%Z then 1.0%Q
  else if (Z.abs (factLevel - userLevel) =? 1)%Z then 0.7%Q
  else if (Z.abs (factLevel - userLevel) =? 2)%Z then 0.4%Q
  else 0.1%Q.

Definition calculateTagScore (factTags preferredTags : list string) : Q :=
  if (length factTags =? 0) || (length preferredTags =? 0) then 0.5%Q
  else
    let matches := List.filter (fun tag => includes preferredTags tag) factTags in
    (ofNat (length matches)
     / ofNat (Nat.max (length factTags) (length preferredTags)))%Q.

Definition calculatePopularityScore (f : Fact) : Q :=
  let totalInteractions := (viewCount f + likeCount f * 2 + shareCount f * 3)%Z in
  Qmin 1 (inject_Z totalInteractions / 100)%Q.

Definition calculateFreshnessScore (dateNow : Z) (createdAt : Z) : Q :=
  let daysSinceCreation :=
    (inject_Z (dateNow - createdAt) / inject_Z (24 * 60 * 60 * 1000))%Q in
  Qmax 0 (1 - daysSinceCreation / 365)%Q.

Definition calculatePersonalityMatch (f : Fact) (personalityScore : Q) : Q :=
  (personalityScore * 0.5 + 0.5)%Q.

Definition calculatePersonalityScore (user : User)
    (interactionStats : InteractionStats) (learningPatterns : LearningPatterns) : Q :=
  let score := 0.5%Q in
  let score :=
    if gt (engagementScore interactionStats) 0.7 then (score + 0.2)%Q else score in
  let score :=
    if gt (shareRate interactionStats) 0.1 then (score + 0.1)%Q else score in
  let score :=
    if gt (consistencyScore learningPatterns) 0.8 then (score + 0.1)%Q else score in
  let score :=
    if gt (topicDiversity learningPatterns) 0.6 then (score + 0.1)%Q else score in
  Qmin 1 (Qmax 0 score).

(** *** Analysis helper methods *)

Fixpoint transitions (previous : nat) (later : list nat) : nat * nat :=
  match later with
  | [] => (0, 0)
  | current :: rest =>
      let (up, down) := transitions current rest in
      if previous <? current then (S up, down)
      else if current <? previous then (up, S down)
      else (up, down)
  end.

Definition analyzeDifficultyProgression (recentViews : list View) : Trend :=
  if length recentViews <? 3 then stable
  else
    let difficulties := map (fun v => difficultyIndex (difficulty (viewed v))) recentViews in
    let (up, down) :=
      match difficulties with
      | [] => (0, 0)
      | first :: rest => transitions first rest
      end in
    (* increasing > decreasing * 1.5 *)
    if 3 * down <? 2 * up then increasing
    else if 3 * up <? 2 * down then decreasing
    else stable.

(** [new Set(recentViews.map(v => v.fact.categoryId))] *)
Definition categoriesOf (recentViews : list View) : gset string :=
  list_to_set (map (fun v => categoryId (viewed v)) recentViews).

Definition analyzeTopicDiversity (recentViews : list View) : Q :=
  if length recentViews =? 0 then 0%Q
  else
    let uniqueCategories := categoriesOf recentViews in
    (ofNat (size uniqueCategories) / ofNat (Nat.min (length recentViews) 8))%Q.

Definition engaged (v : View) : bool :=
  isLiked (interaction v) || isBookmarked (interaction v).

Definition analyzeEngagementTrends (recentViews : list View) : Trend :=
  let recent := take (length recentViews / 2) recentViews in
  let older := drop (length recentViews / 2) recentViews in
  let recentEngagement :=
    (ofNat (length (List.filter engaged recent)) / ofNat (Nat.max (length recent) 1))%Q in
  let olderEngagement :=
    (ofNat (length (List.filter engaged older)) / ofNat (Nat.max (length older) 1))%Q in
  if gt recentEngagement (olderEngagement * 1.2)%Q then increasing
  else if gt olderEngagement (recentEngagement * 1.2)%Q then decreasing
  else stable.

(** [tagCounts[tag] = (tagCounts[tag] || 0) + 1] on an object whose
    properties are kept in creation order. *)
Fixpoint countTag (tag : string) (tagCounts : list (string * nat))
  : list (string * nat) :=
  match tagCounts with
  | [] => [(tag, 1)]
  | (t, n) :: rest =>
      if String.eqb t tag then (t, n + 1) :: rest
      else (t, n) :: countTag tag rest
  end.

Definition isDigit (c : ascii) : bool :=
  (48 <=? nat_of_ascii c) && (nat_of_ascii c <=? 57).

Fixpoint allDigits (s : string) : bool :=
  match s with
  | EmptyString => true
  | String c rest => isDigit c && allDigits rest
  end.

Fixpoint decimalValue (acc : N) (s : string) : N :=
  match s with
  | EmptyString => acc
  | String c rest => decimalValue (acc * 10 + (N_of_ascii c - 48))%N rest
  end.

(** The integer a property key denotes when it is an array index: a
    canonical decimal numeral below [2^32 - 1]. *)
Definition arrayIndex (key : string) : option N :=
  match key with
  | EmptyString => None
  | String c rest =>
      if allDigits key && (negb (Ascii.eqb c "0"%char) || String.eqb rest EmptyString)
      then let n := decimalValue 0 key in
           if (n <? 4294967295)%N then Some n else None
      else None
  end.

(** [Object.entries(o)]: array-index keys in ascending order, then the
    other keys in creation order. *)
Definition entries {V} (o : list (string * V)) : list (string * V) :=
  let indexed :=
    omap (fun kv => match arrayIndex (fst kv) with
                    | Some n => Some (n, kv)
                    | None => None
                    end) o in
  let named :=
    List.filter (fun kv => match arrayIndex (fst kv) with
                           | Some _ => false
                           | None => true
                           end) o in
  map snd (sortBy (fun a b => (fst a <=? fst b)%N) indexed) ++ named.

Definition analyzeTagPreferences (recentViews : list View) : list string :=
  let tagCounts :=
    foldl (fun counts v => foldl (fun counts tag => countTag tag counts) counts
                             (tags (viewed v)))
          [] recentViews in
  map fst (take 5 (sortBy (fun a b => snd b <=? snd a) (entries tagCounts))).

(** [String(n)] for an integral number *)
Definition toString (n : Z) : string := NilZero.string_of_int (Z.to_int n).

(** [Array.prototype.sort()] without a comparator: by the UTF-16 code
    units of the elements converted to strings. *)
Definition defaultSort (l : list Z) : list Z :=
  sortBy (fun a b => String.leb (toString a) (toString b)) l.

Fixpoint totalDeviationFrom (expectedInterval : Q) (previous : Z) (later : list Z) : Q :=
  match later with
  | [] => 0%Q
  | current :: rest =>
      let actualInterval := inject_Z (current - previous) in
      (Qabs (actualInterval - expectedInterval)
       + totalDeviationFrom expectedInterval current rest)%Q
  end.

Definition calculateConsistencyScore (recentViews : list View) : Q :=
  if length recentViews <? 3 then 0%Q
  else
    let viewDates :=
      defaultSort (map (fun v => getTime (viewedAt (interaction v))) recentViews) in
    match viewDates with
    | [] => 0%Q
    | first :: rest =>
        let timeSpan := (List.last viewDates first - first)%Z in
        if (timeSpan =? 0)%Z then 1%Q
        else
          let expectedInterval :=
            (inject_Z timeSpan / ofNat (length viewDates - 1))%Q in
          let totalDeviation := totalDeviationFrom expectedInterval first rest in
          let avgDeviation := (totalDeviation / ofNat (length viewDates - 1))%Q in
          Qmax 0 (1 - avgDeviation / expectedInterval)%Q
    end.

(** *** calculateFactScore *)

Definition calculateFactScore (dateNow : Z) (f : Fact) (userProfile : UserProfile) : Q :=
  let score := 0%Q in
  let score :=
    if includes (preferredCategories userProfile) (categoryId f) then
      let categoryEngagement :=
        match categoryPreferences userProfile !! categoryId f with
        | Some pref => engagement pref
        | None => 0%Q
        end in
      (score + 0.4 * (0.5 + categoryEngagement * 0.5))%Q
    else (score + 0.4 * 0.1)%Q in
  let difficultyMatch := calculateDifficultyMatch (difficulty f) userProfile in
  let score := (score + 0.25 * difficultyMatch)%Q in
  let tagScore :=
    calculateTagScore (tags f) (preferredTags (learningPatterns userProfile)) in
  let score := (score + 0.15 * tagScore)%Q in
  let popularityScore := calculatePopularityScore f in
  let score := (score + 0.1 * popularityScore)%Q in
  let freshnessScore := calculateFreshnessScore dateNow (createdAt f) in
  let score := (score + 0.05 * freshnessScore)%Q in
  let personalityScore :=
    calculatePersonalityMatch f (personalityScore userProfile) in
  let score := (score + 0.05 * personalityScore)%Q in
  Qmin 1 (Qmax 0 score).

(** *** The cache functions *)

(** [const { cacheGet, cacheSet } = require('../config/redis')]: that module
    exports [client], [connectRedis], [disconnectRedis], [cache],
    [cacheKeys] and [checkRedisHealth], and nothing under these two names.
    In the service both are [undefined]; calling one throws a [TypeError],
    before anything is sent to the cache. *)
Definition cacheGet {A} (key : string) : M (option A) := throw TypeError.

Definition cacheSet {A} (key : string) (value : A) (ttl : Z) : M unit :=
  throw TypeError.

(** *** getUserInteractionStats *)

Definition countUserFacts (userId : string) (p : UserFact -> bool) : M nat :=
  query (fun s =>
    length (List.filter (fun uf => String.eqb (uf_userId uf) userId && p uf)
              (userFacts s))).

Definition noInteractionStats : InteractionStats :=
  {| totalViewed := 0; totalLiked := 0; totalBookmarked := 0; totalShared := 0;
     recentActivity := 0; likeRate := 0%Q; bookmarkRate := 0%Q; shareRate := 0%Q;
     engagementScore := 0%Q |}.

Definition getUserInteractionStats (userId : string) : M InteractionStats :=
  tryCatch
    (let! t := dateNow in
     let thirtyDaysAgo := (t - 30 * 24 * 60 * 60 * 1000)%Z in
     let! counts :=
       promiseAll (countUserFacts userId isViewed)
         (promiseAll (countUserFacts userId isLiked)
            (promiseAll (countUserFacts userId isBookmarked)
               (promiseAll (countUserFacts userId isShared)
                  (countUserFacts userId
                     (fun uf => viewedSince thirtyDaysAgo uf && isViewed uf))))) in
     let '(totalViewed, (totalLiked, (totalBookmarked, (totalShared, recentActivity)))) :=
       counts in
     (* the category engagement query, whose result is not used *)
     let! _ := roundTrip in
     let likeRate :=
       if 0 <? totalViewed then (ofNat totalLiked / ofNat totalViewed)%Q else 0%Q in
     let bookmarkRate :=
       if 0 <? totalViewed then (ofNat totalBookmarked / ofNat totalViewed)%Q else 0%Q in
     let shareRate :=
       if 0 <? totalViewed then (ofNat totalShared / ofNat totalViewed)%Q else 0%Q in
     ret {| totalViewed := totalViewed; totalLiked := totalLiked;
            totalBookmarked := totalBookmarked; totalShared := totalShared;
            recentActivity := recentActivity; likeRate := likeRate;
            bookmarkRate := bookmarkRate; shareRate := shareRate;
            engagementScore :=
              (likeRate * 0.4 + bookmarkRate * 0.4 + shareRate * 0.2)%Q |})
    (fun _ => ret noInteractionStats).

(** *** getUserLearningPatterns *)

Definition recentViewsOf (userId : string) (sevenDaysAgo : Z) (s : Store) : list View :=
  sortBy (fun a b => (getTime (viewedAt (interaction b))
                      <=? getTime (viewedAt (interaction a)))%Z)
    (omap (withFact s)
       (List.filter (fun uf => String.eqb (uf_userId uf) userId && isViewed uf
                               && viewedSince sevenDaysAgo uf)
          (userFacts s))).

Definition noLearningPatterns : LearningPatterns :=
  {| difficultyProgression := stable; topicDiversity := 0.5%Q;
     engagementTrends := stable; preferredTags := [];
     learningVelocity := 0%Q; consistencyScore := 0%Q |}.

Definition getUserLearningPatterns (userId : string) : M LearningPatterns :=
  tryCatch
    (let! t := dateNow in
     let sevenDaysAgo := (t - 7 * 24 * 60 * 60 * 1000)%Z in
     let! recentViews := query (recentViewsOf userId sevenDaysAgo) in
     ret {| difficultyProgression := analyzeDifficultyProgression recentViews;
            topicDiversity := analyzeTopicDiversity recentViews;
            engagementTrends := analyzeEngagementTrends recentViews;
            preferredTags := analyzeTagPreferences recentViews;
            learningVelocity := (ofNat (length recentViews) / 7)%Q;
            consistencyScore := calculateConsistencyScore recentViews |})
    (fun _ => ret noLearningPatterns).

(** *** getUserProfile *)

Definition findUser (userId : string) (s : Store) : option User :=
  List.find (fun u => String.eqb (user_id u) userId) (users s).

(** [userCategory.findMany({ where: { userId, isEnabled: true },
      include: { category: true } })] *)
Definition enabledCategoriesOf (userId : string) (s : Store)
  : list (UserCategory * Category) :=
  omap (fun uc =>
          match List.find (fun c => String.eqb (category_id c) (uc_categoryId uc))
                  (categories s) with
          | Some c => Some (uc, c)
          | None => None
          end)
    (List.filter (fun uc => String.eqb (uc_userId uc) userId && isEnabled uc)
       (userCategories s)).

Definition getUserProfile (userId : string) : M (option UserProfile) :=
  tryCatch
    (let cacheKey := "user_profile:" +:+ userId in
     let! cached := cacheGet cacheKey in
     match cached with
     | Some profile => ret (Some profile) (* JSON.parse(profile) *)
     | None =>
         let! user := query (findUser userId) in
         match user with
         | None => ret None
         | Some user =>
             let! categoryPreferences := query (enabledCategoriesOf userId) in
             let! interactionStats := getUserInteractionStats userId in
             let! learningPatterns := getUserLearningPatterns userId in
             let profile :=
               {| p_id := user_id user;
                  p_difficultyLevel := difficultyLevel user;
                  p_timezone := timezone user;
                  p_currentStreak := currentStreak user;
                  p_longestStreak := longestStreak user;
                  p_createdAt := user_createdAt user;
                  p_lastActiveDate := lastActiveDate user;
                  preferredCategories :=
                    map (fun cp => uc_categoryId (fst cp)) categoryPreferences;
                  categoryPreferences :=
                    foldl (fun acc cp =>
                             <[uc_categoryId (fst cp) :=
                                 {| name := category_name (snd cp);
                                    (* cp.engagementScore || 0: the rows have
                                       no such column *)
                                    engagement := 0%Q |}]> acc)
                          ∅ categoryPreferences;
                  interactionStats := interactionStats;
                  learningPatterns := learningPatterns;
                  personalityScore :=
                    calculatePersonalityScore user interactionStats learningPatterns |} in
             let! _ := cacheSet cacheKey profile 1800%Z in
             ret (Some profile)
         end
     end)
    (fun _ => ret None).

(** *** calculatePersonalizationScores *)

Definition calculatePersonalizationScores (userId : string)
    (userProfile : UserProfile) : M (gmap string Q) :=
  tryCatch
    (let cacheKey := "fact_scores:" +:+ userId in
     let! cached := cacheGet cacheKey in
     match cached with
     | Some scores => ret scores (* JSON.parse(scores) *)
     | None =>
         let! t := dateNow in
         let! available := query (fun s => List.filter (eligible t) (facts s)) in
         let scores :=
           foldl (fun scores f =>
                    <[fact_id f := calculateFactScore t f userProfile]> scores)
                 ∅ available in
         let! _ := cacheSet cacheKey scores 7200%Z in
         ret scores
     end)
    (fun _ => ret ∅).

(** *** getFactCandidates *)

Record CandidateOptions := {
  c_excludeViewed : bool;
  c_difficultyOverride : option Difficulty;
  c_categoryFilters : list string;
  c_limit : nat;
}.

Definition getFactCandidates (userId : string) (options : CandidateOptions)
  : M (list Fact) :=
  let! t := dateNow in
  let whereClause := eligibleWhere t in
  let! notIn :=
    if c_excludeViewed options then
      let! viewed := query (viewedFactIds userId) in
      ret (if 0 <? length viewed then Some viewed else None)
    else ret None in
  let whereClause :=
    {| where_isApproved := where_isApproved whereClause;
       where_isActive := where_isActive whereClause;
       where_publishedAt_lte := where_publishedAt_lte whereClause;
       where_difficulty := c_difficultyOverride options;
       where_categoryId_in :=
         if 0 <? length (c_categoryFilters options)
         then Some (c_categoryFilters options) else None;
       where_id_notIn := notIn |} in
  query (findFacts whereClause byFeaturedThenNewest (c_limit options)).

(** *** scoreAndRankFacts *)

(** [factScores[fact.id] || 0] *)
Definition scoreOf (factScores : gmap string Q) (f : Fact) : Q :=
  default 0%Q (factScores !! fact_id f).

Definition rankOf (c : Candidate) : Q := default 0%Q (personalizedScore c).

Definition scoreAndRankFacts (fs : list Fact) (factScores : gmap string Q)
    (userProfile : UserProfile) : list Candidate :=
  sortBy (fun a b => Qle_bool (rankOf b - rankOf a) 0)%Q
    (map (fun f => {| fact := f; personalizedScore := Some (scoreOf factScores f) |}) fs).

(** *** addDiversityToSelection *)

(** [Math.max(1, Math.floor(limit / 3))] *)
Definition categoryCap (limit : nat) : nat := Nat.max 1 (limit / 3).

(** [Math.max(2, Math.floor(limit / 2.5))] *)
Definition difficultyCap (limit : nat) : nat := Nat.max 2 (2 * limit / 5).

(** The three local variables of the first loop. *)
Record Selection := {
  selected : list Candidate;
  categoryCount : gmap string nat;
  difficultyCount : gmap Difficulty nat;
}.

Definition emptySelection : Selection :=
  {| selected := []; categoryCount := ∅; difficultyCount := ∅ |}.

(** [counts[key] || 0] *)
Definition countOf `{Countable K} (counts : gmap K nat) (key : K) : nat :=
  default 0 (counts !! key).

Definition push (st : Selection) (c : Candidate) : Selection :=
  let categoryKey := categoryId (fact c) in
  let difficultyKey := difficulty (fact c) in
  {| selected := selected st ++ [c];
     categoryCount :=
       <[categoryKey := countOf (categoryCount st) categoryKey + 1]> (categoryCount st);
     difficultyCount :=
       <[difficultyKey := countOf (difficultyCount st) difficultyKey + 1]> (difficultyCount st) |}.

(** The first loop: [for (const fact of facts) { ... }]. *)
Fixpoint diversityWalk (limit : nat) (facts : list Candidate) (st : Selection)
  : Selection :=
  match facts with
  | [] => st
  | c :: rest =>
      if limit <=? length (selected st) then st (* break *)
      else if categoryCap limit <=? countOf (categoryCount st) (categoryId (fact c))
      then diversityWalk limit rest st (* continue *)
      else if difficultyCap limit <=? countOf (difficultyCount st) (difficulty (fact c))
      then diversityWalk limit rest st (* continue *)
      else diversityWalk limit rest (push st c)
  end.

(** [selected.find(f => f.id === fact.id)] is truthy *)
Definition found (sel : list Candidate) (c : Candidate) : bool :=
  existsb (fun f => String.eqb (fact_id (fact f)) (fact_id (fact c))) sel.

(** The inner loop of the back-fill. *)
Fixpoint fillPass (limit : nat) (facts : list Candidate) (sel : list Candidate)
  : list Candidate :=
  match facts with
  | [] => sel
  | c :: rest =>
      if limit <=? length sel then sel (* break *)
      else if found sel c then fillPass limit rest sel
      else fillPass limit rest (sel ++ [c])
  end.

(** [while (selected.length < limit && selected.length < facts.length)]:
    one unit of fuel per iteration of the loop body. *)
Fixpoint backfill (fuel limit : nat) (facts sel : list Candidate)
  : option (list Candidate) :=
  if (length sel <? limit) && (length sel <? length facts) then
    match fuel with
    | 0 => None
    | S fuel' => backfill fuel' limit facts (fillPass limit facts sel)
    end
  else Some sel.

Definition addDiversityToSelection (fuel : nat) (facts : list Candidate) (limit : nat)
  : option (list Candidate) :=
  if length facts <=? limit then Some facts
  else backfill fuel limit facts (selected (diversityWalk limit facts emptySelection)).

(** Back-fill is needed when the capped walk alone admits fewer than
    [limit] candidates. *)
Definition backfillRequired (facts : list Candidate) (limit : nat) : bool :=
  length (selected (diversityWalk limit facts emptySelection)) <? limit.

(** Number of selected candidates of a category. *)
Definition categoryOccurrences (cat : string) (sel : list Candidate) : nat :=
  length (filter (fun c => categoryId (fact c) = cat) sel).

Definition difficultyOccurrences (d : Difficulty) (sel : list Candidate) : nat :=
  length (filter (fun c => difficulty (fact c) = d) sel).



(** *** getFallbackFacts *)

Definition getFallbackFacts (limit : nat) : M (list Fact) :=
  tryCatch
    (let! t := dateNow in
     query (findFacts (eligibleWhere t) byFeaturedLikesViews limit))
    (fun _ => ret []).

(** *** findSimilarUsers and getRecommendedFacts *)

Record SimilarUser := {
  su_id : string;
  su_currentStreak : Z;
  su_longestStreak : Z;
  similarityScore : Q;
}.

Definition calculateUserSimilarity (userProfile : UserProfile) (otherUser : User) : Q :=
  let similarity := 0%Q in
  let streakDiff := Z.abs (p_currentStreak userProfile - currentStreak otherUser) in
  let similarity :=
    (similarity + Qmax 0 (1 - inject_Z streakDiff / 30) * 0.3)%Q in
  let longestStreakDiff :=
    Z.abs (p_longestStreak userProfile - longestStreak otherUser) in
  let similarity :=
    (similarity + Qmax 0 (1 - inject_Z longestStreakDiff / 100) * 0.3)%Q in
  let similarity :=
    (similarity + engagementScore (interactionStats userProfile) * 0.4)%Q in
  similarity.

(** [distinct]: the first row of each key is kept. *)
Fixpoint distinctBy {A} (key : A -> string) (seen : list string) (l : list A) : list A :=
  match l with
  | [] => []
  | x :: rest =>
      if includes seen (key x) then distinctBy key seen rest
      else x :: distinctBy key (key x :: seen) rest
  end.

Definition usersWithSimilarCategories (userId : string) (userProfile : UserProfile)
    (s : Store) : list string :=
  map uc_userId
    (distinctBy uc_userId []
       (List.filter (fun uc => includes (preferredCategories userProfile) (uc_categoryId uc)
                               && negb (String.eqb (uc_userId uc) userId)
                               && isEnabled uc)
          (userCategories s))).

Definition candidateUsersAmong (candidateUserIds : list string)
    (userProfile : UserProfile) (s : Store) : list User :=
  take 10
    (List.filter (fun u => includes candidateUserIds (user_id u)
                           && user_isActive u
                           && bool_decide (difficultyLevel u = p_difficultyLevel userProfile))
       (users s)).

Definition findSimilarUsers (userId : string) (userProfile : UserProfile)
  : M (list SimilarUser) :=
  tryCatch
    (let! candidateUserIds := query (usersWithSimilarCategories userId userProfile) in
     if length candidateUserIds =? 0 then ret []
     else
       let! candidateUsers := query (candidateUsersAmong candidateUserIds userProfile) in
       ret (take 5
              (sortBy (fun a b => Qle_bool (similarityScore b - similarityScore a) 0)%Q
                 (map (fun u => {| su_id := user_id u;
                                   su_currentStreak := currentStreak u;
                                   su_longestStreak := longestStreak u;
                                   similarityScore :=
                                     calculateUserSimilarity userProfile u |})
                    candidateUsers))))
    (fun _ => ret []).

(** [userFact.findMany({ where: { userId: { in }, isLiked: true,
      fact: { isApproved: true, isActive: true } }, include: { fact: true },
      distinct: ['factId'], take: limit, orderBy: { updatedAt: 'desc' } })] *)
Definition likedBy (userIds : list string) (limit : nat) (s : Store) : list View :=
  take limit
    (distinctBy (fun v => factId (interaction v)) []
       (sortBy (fun a b => (uf_updatedAt (interaction b)
                            <=? uf_updatedAt (interaction a))%Z)
          (List.filter (fun v => isApproved (viewed v) && isActive (viewed v))
             (omap (withFact s)
                (List.filter (fun uf => includes userIds (uf_userId uf) && isLiked uf)
                   (userFacts s)))))).

Definition getRecommendedFacts (userId : string) (userProfile : UserProfile)
    (limit : nat) : M (list Fact) :=
  tryCatch
    (let! similarUsers := findSimilarUsers userId userProfile in
     if length similarUsers =? 0 then getFallbackFacts limit
     else
       let! recommendedFacts := query (likedBy (map su_id similarUsers) limit) in
       ret (map viewed recommendedFacts))
    (fun _ => getFallbackFacts limit).

(** *** getPersonalizedFacts *)

(** The [options] argument; [None] is an absent ([undefined]) property. *)
Record Options := {
  limit : option nat;
  excludeViewed : option bool;
  difficultyOverride : option Difficulty;
  categoryFilters : option (list string);
  includeRecommendations : option bool;
}.

(** [options.limit || 10] *)
Definition limitOr10 (options : Options) : nat :=
  match limit options with
  | None | Some 0 => 10
  | Some n => n
  end.

(** The [try] block of [getPersonalizedFacts]. *)
Definition personalizedFacts (fuel : nat) (userId : string) (options : Options)
  : M (list Candidate) :=
  let limit := default 10 (limit options) in
  let excludeViewed := default true (excludeViewed options) in
  let difficultyOverride := difficultyOverride options in
  let categoryFilters := default [] (categoryFilters options) in
  let includeRecommendations := default true (includeRecommendations options) in
  let! userProfile := getUserProfile userId in
  match userProfile with
  | None => let! fallback := getFallbackFacts limit in ret (map plain fallback)
  | Some userProfile =>
      let! factScores := calculatePersonalizationScores userId userProfile in
      let! candidates :=
        getFactCandidates userId
          {| c_excludeViewed := excludeViewed;
             c_difficultyOverride :=
               Some (default (p_difficultyLevel userProfile) difficultyOverride);
             c_categoryFilters :=
               if 0 <? length categoryFilters then categoryFilters
               else preferredCategories userProfile;
             c_limit := limit * 3 |} in
      let candidates := scoreAndRankFacts candidates factScores userProfile in
      match addDiversityToSelection fuel candidates limit with
      | None => diverge
      | Some diversifiedFacts =>
          let! diversifiedFacts :=
            if includeRecommendations && (length diversifiedFacts <? limit) then
              let! recommendations :=
                getRecommendedFacts userId userProfile (limit - length diversifiedFacts) in
              ret (diversifiedFacts ++ map plain recommendations)
            else ret diversifiedFacts in
          ret (take limit diversifiedFacts)
      end
  end.

Definition getPersonalizedFacts (fuel : nat) (userId : string) (options : Options)
  : M (list Candidate) :=
  tryCatch (personalizedFacts fuel userId options)
    (fun _ => let! fallback := getFallbackFacts (limitOr10 options) in
              ret (map plain fallback)).

End PersonalizationService.

Module NotificationService.

(** The message shown to the user. *)
Record Message := {
  m_title : string;
  m_body : string;
  m_imageUrl : option string;
}.

(** [initializeFirebase()], then the guard on its result *)
Definition firebaseAdmin : M bool := fun w => (Returned (firebase w), w).

(** [await firebaseAdmin.messaging().send(message)] *)
Definition messagingSend : M Delivery :=
  fun w =>
    match pushes w with
    | [] => (Returned (Refused "messaging/internal-error" "no answer"), w)
    | d :: later => (Returned d, withPushes later w)
    end.

(** [await firebaseAdmin.messaging().sendMulticast(message)] *)
Definition messagingSendMulticast : M Batch :=
  fun w =>
    match multicasts w with
    | [] => (Returned (BatchError "no answer"), w)
    | b :: later => (Returned b, withMulticasts later w)
    end.

Definition sendNotification (fcmToken : string) (notification : Message)
    (factId categoryId : string) : M SendResult :=
  let! initialized := firebaseAdmin in
  if negb initialized then ret (failure "Firebase not initialized")
  else
    let! response := messagingSend in
    match response with
    | Accepted id =>
        ret {| success := true; messageId := Some id; error := None;
               shouldDelete := false; successCount := None;
               failureCount := None; failedTokens := [] |}
    | Refused code message =>
        if String.eqb code "messaging/registration-token-not-registered" then
          ret {| success := false; messageId := None;
                 error := Some "Token not registered"; shouldDelete := true;
                 successCount := None; failureCount := None; failedTokens := [] |}
        else if String.eqb code "messaging/invalid-registration-token" then
          ret {| success := false; messageId := None;
                 error := Some "Invalid token"; shouldDelete := true;
                 successCount := None; failureCount := None; failedTokens := [] |}
        else ret (failure message)
    end.

Definition accepted (d : Delivery) : bool :=
  match d with
  | Accepted _ => true
  | Refused _ _ => false
  end.

(** The token of a response that failed because the token is unknown. *)
Definition staleToken (answer : string * Delivery) : option string :=
  match snd answer with
  | Accepted _ => None
  | Refused code _ =>
      if String.eqb code "messaging/registration-token-not-registered"
         || String.eqb code "messaging/invalid-registration-token"
      then Some (fst answer) else None
  end.

Definition sendMulticastNotification (fcmTokens : list string)
    (notification : Message) (factId categoryId : string) : M SendResult :=
  let! initialized := firebaseAdmin in
  if negb initialized || (length fcmTokens =? 0)
  then ret (failure "Firebase not initialized or no tokens")
  else
    let! response := messagingSendMulticast in
    match response with
    | Responses responses =>
        ret {| success := true; messageId := None; error := None;
               shouldDelete := false;
               successCount := Some (length (List.filter accepted responses));
               failureCount :=
                 Some (length (List.filter (fun d => negb (accepted d)) responses));
               failedTokens := omap staleToken (zip fcmTokens responses) |}
    | BatchError message => ret (failure message)
    end.

(** [prisma.userSession.findMany({ where: { userId, isActive: true,
      expiresAt: { gt: new Date() } }, select: { deviceId: true } })] *)
Definition activeSessions (userId : string) (t : Z) (s : Store) : list UserSession :=
  List.filter (fun us => String.eqb (us_userId us) userId && us_isActive us
                         && (t <? expiresAt us)%Z)
    (userSessions s).

(** [prisma.notification.create({ data })]: the database supplies the id
    and the creation time. *)
Definition createNotification (data : string -> Z -> Notification) : M Notification :=
  let! _ := roundTrip in
  fun w =>
    let record := data (hd EmptyString (freshIds w)) (now w) in
    (Returned record,
     withFreshIds (tl (freshIds w))
       (withDb (withNotifications (notifications (db w) ++ [record]) (db w)) w)).

(** [prisma.notification.update({ where: { id }, data })] *)
Definition updateNotification (id : string) (data : Notification -> Notification)
  : M unit :=
  mutate (fun s =>
    withNotifications
      (map (fun n => if String.eqb (notification_id n) id then data n else n)
         (notifications s)) s).

(** [{ success: false, error: 'No FCM tokens' }] *)
Definition noTokens : SendResult := failure "No FCM tokens".

Definition sendDailyFactNotification (userId : string) (f : Fact) : M SendResult :=
  tryCatch
    (let! t := dateNow in
     let! userSessions := query (activeSessions userId t) in
     let fcmTokens : list string := [] in
     if length fcmTokens =? 0 then ret noTokens
     else
       let notification :=
         {| m_title := "Daily Fact Ready!";
            (* fact.shortContent || fact.title *)
            m_body := match shortContent f with
                      | None | Some EmptyString => title f
                      | Some short => short
                      end;
            m_imageUrl := imageUrl f |} in
       let! t := dateNow in
       let! notificationRecord :=
         createNotification (fun id createdAt =>
           {| notification_id := id; n_userId := userId; n_factId := Some (fact_id f);
              n_title := m_title notification; n_body := m_body notification;
              n_imageUrl := m_imageUrl notification; status := PENDING;
              scheduledFor := t; sentAt := None; fcmMessageId := None;
              fcmResponse := None; retryCount := 0; nextRetryAt := None;
              errorMessage := None; n_createdAt := createdAt |}) in
       let! result :=
         match fcmTokens with
         | [fcmToken] => sendNotification fcmToken notification (fact_id f) (categoryId f)
         | _ => sendMulticastNotification fcmTokens notification (fact_id f) (categoryId f)
         end in
       let! t := dateNow in
       let! _ :=
         updateNotification (notification_id notificationRecord) (fun n =>
           {| notification_id := notification_id n; n_userId := n_userId n;
              n_factId := n_factId n; n_title := n_title n; n_body := n_body n;
              n_imageUrl := n_imageUrl n;
              status := if success result then SENT else FAILED;
              scheduledFor := scheduledFor n;
              sentAt := if success result then Some t else None;
              fcmMessageId := messageId result;
              fcmResponse := Some result;
              retryCount := retryCount n; nextRetryAt := nextRetryAt n;
              errorMessage := error result; n_createdAt := n_createdAt n |}) in
       ret result)
    (fun error => throw error).

(** *** retryFailedNotifications *)

(** [where: { status: 'FAILED', retryCount: { lt: 3 },
             nextRetryAt: { lte: new Date() } }] *)
Definition dueForRetry (t : Z) (n : Notification) : bool :=
  bool_decide (status n = FAILED)
  && (retryCount n <? 3)
  && match nextRetryAt n with
     | Some at_ => (at_ <=? t)%Z
     | None => false
     end.

Definition withUser (s : Store) (n : Notification) : option (Notification * User) :=
  match List.find (fun u => String.eqb (user_id u) (n_userId n)) (users s) with
  | Some u => Some (n, u)
  | None => None
  end.

(** [prisma.notification.findMany({ where, include: { user }, take: 50 })] *)
Definition failedNotificationsAt (t : Z) (s : Store) : list (Notification * User) :=
  take 50 (omap (withUser s) (List.filter (dueForRetry t) (notifications s))).

(** [Math.pow(2, retryCount + 1) * 5] *)
Definition backoffMinutes (retryCount : nat) : Z :=
  Z.of_nat (2 ^ (retryCount + 1) * 5).

(** [d.setMinutes(d.getMinutes() + minutes)] *)
Definition addMinutes (t : Z) (minutes : Z) : Z := (t + minutes * 60000)%Z.

Definition cancelled (n : Notification) : Notification :=
  {| notification_id := notification_id n; n_userId := n_userId n;
     n_factId := n_factId n; n_title := n_title n; n_body := n_body n;
     n_imageUrl := n_imageUrl n; status := CANCELLED;
     scheduledFor := scheduledFor n; sentAt := sentAt n;
     fcmMessageId := fcmMessageId n; fcmResponse := fcmResponse n;
     retryCount := retryCount n; nextRetryAt := nextRetryAt n;
     errorMessage := errorMessage n; n_createdAt := n_createdAt n |}.

(** [data: { retryCount: { increment: 1 }, nextRetryAt }] *)
Definition rescheduled (nextRetryAt : Z) (n : Notification) : Notification :=
  {| notification_id := notification_id n; n_userId := n_userId n;
     n_factId := n_factId n; n_title := n_title n; n_body := n_body n;
     n_imageUrl := n_imageUrl n; status := status n;
     scheduledFor := scheduledFor n; sentAt := sentAt n;
     fcmMessageId := fcmMessageId n; fcmResponse := fcmResponse n;
     retryCount := retryCount n + 1; nextRetryAt := Some nextRetryAt;
     errorMessage := errorMessage n; n_createdAt := n_createdAt n |}.

(** The body of the loop over the failed notifications. *)
Definition retryOne (entry : Notification * User) : M unit :=
  let (notification, user) := entry in
  if negb (notificationsEnabled user) then
    updateNotification (notification_id notification) cancelled (* continue *)
  else
    tryCatch
      (let! t := dateNow in
       let nextRetryAt := addMinutes t (backoffMinutes (retryCount notification)) in
       updateNotification (notification_id notification) (rescheduled nextRetryAt))
      (fun _ => ret tt).

(** Returns [{ processed }]. *)
Definition retryFailedNotifications : M nat :=
  tryCatch
    (let! t := dateNow in
     let! failedNotifications := query (failedNotificationsAt t) in
     let! _ := forEach failedNotifications retryOne in
     ret (length failedNotifications))
    (fun error => throw error).

(** *** cleanupOldNotifications *)

(** [d.setDate(d.getDate() - days)]: the same time of day, [days] days
    earlier.  The clock of the server is taken to be in UTC, where every
    day has 24 hours. *)
Definition daysBefore (t : Z) (days : Z) : Z := (t - days * 86400000)%Z.

(** [where: { createdAt: { lt: cutoffDate },
             status: { in: ['SENT', 'DELIVERED', 'OPENED', 'CANCELLED'] } }] *)
Definition oldAndSettled (cutoffDate : Z) (n : Notification) : bool :=
  (n_createdAt n <? cutoffDate)%Z
  && (bool_decide (status n = SENT) || bool_decide (status n = DELIVERED)
      || bool_decide (status n = OPENED) || bool_decide (status n = CANCELLED)).

(** [prisma.notification.deleteMany({ where })], which answers with the
    number of deleted rows. *)
Definition deleteManyNotifications (where_ : Notification -> bool) : M nat :=
  let! _ := roundTrip in
  fun w =>
    (Returned (length (List.filter where_ (notifications (db w)))),
     withDb (withNotifications
               (List.filter (fun n => negb (where_ n)) (notifications (db w)))
               (db w)) w).

(** Returns [{ deleted }]. *)
Definition cleanupOldNotifications (daysToKeep : Z) : M nat :=
  tryCatch
    (let! t := dateNow in
     let cutoffDate := daysBefore t daysToKeep in
     deleteManyNotifications (oldAndSettled cutoffDate))
    (fun error => throw error).

End NotificationService.

Module SchedulerService.

Section Scheduler.
(** Imported from the notification service. *)
Variable sendDailyFactNotification : string -> Fact -> M SendResult.

(** [prisma.userCategory.findMany({ where: { userId, isEnabled: true },
      select: { categoryId: true } })] *)
Definition enabledCategoryIds (userId : string) (s : Store) : list string :=
  map uc_categoryId
    (List.filter (fun uc => String.eqb (uc_userId uc) userId && isEnabled uc)
       (userCategories s)).

(** [l[Math.floor(r * l.length)]], [undefined] outside the list *)
Definition pick {A} (l : list A) (r : Q) : option A :=
  let i := Qfloor (r * ofNat (length l)) in
  if (i <? 0)%Z then None else nth_error l (Z.to_nat i).

(** The first [whereClause] of [getPersonalizedFact]. *)
Definition unseenWhere (user : User) (t : Z)
    (userCategories seenFactIds : list string) : FactWhere :=
  {| where_isApproved := Some true;
     where_isActive := Some true;
     where_publishedAt_lte := Some t;
     (* user.difficultyLevel || 'MEDIUM' *)
     where_difficulty := Some (difficultyLevel user);
     where_categoryId_in :=
       if 0 <? length userCategories then Some userCategories else None;
     where_id_notIn :=
       if 0 <? length seenFactIds then Some seenFactIds else None |}.

(** [delete whereClause.id] *)
Definition deleteId (wh : FactWhere) : FactWhere :=
  {| where_isApproved := where_isApproved wh;
     where_isActive := where_isActive wh;
     where_publishedAt_lte := where_publishedAt_lte wh;
     where_difficulty := where_difficulty wh;
     where_categoryId_in := where_categoryId_in wh;
     where_id_notIn := None |}.

Definition getPersonalizedFact (user : User) : M (option Fact) :=
  tryCatch
    (let! userCategories := query (enabledCategoryIds (user_id user)) in
     let! seenFactIds := query (viewedFactIds (user_id user)) in
     let! t := dateNow in
     let whereClause := unseenWhere user t userCategories seenFactIds in
     let! facts := query (findFacts whereClause byFeaturedThenNewest 10) in
     if length facts =? 0 then
       let whereClause := deleteId whereClause in
       let! fallbackFacts := query (findFacts whereClause byNewest 5) in
       let! r := mathRandom in
       ret (pick fallbackFacts r) (* ... || null *)
     else
       let! r := mathRandom in
       ret (pick facts r))
    (fun _ => ret None).

(** [new Date(new Date().toISOString().split('T')[0])]: the start of
    the current UTC day. *)
Definition startOfDay (t : Z) : Z := (t - t mod 86400000)%Z.

(** The notifications counted by the daily check. *)
Definition countsToday (userId : string) (t : Z) (n : Notification) : bool :=
  String.eqb (n_userId n) userId
  && (startOfDay t <=? n_createdAt n)%Z
  && (n_createdAt n <? startOfDay t + 24 * 60 * 60 * 1000)%Z
  && (bool_decide (status n = SENT) || bool_decide (status n = DELIVERED)).

Definition todayNotificationsOf (userId : string) (t : Z) (s : Store) : nat :=
  length (List.filter (countsToday userId t) (notifications s)).

Definition sendDailyFactToUser (user : User) : M unit :=
  tryCatch
    (let! t := dateNow in
     let! todayNotifications := query (todayNotificationsOf (user_id user) t) in
     if (maxNotificationsPerDay user <=? Z.of_nat todayNotifications)%Z then ret tt
     else
       let! found := getPersonalizedFact user in
       match found with
       | None => ret tt
       | Some f =>
           let! _ := sendDailyFactNotification (user_id user) f in
           ret tt
       end)
    (fun _ => ret tt).
End Scheduler.

(** *** updateUserStreaks *)

(** [d.toDateString()], as far as it is compared: the calendar day of [d]
    (server clock in UTC). *)
Definition toDateString (t : Z) : Z := (t / 86400000)%Z.

(** The streak the loop body arrives at for a user last active at
    [lastActive]. *)
Definition newStreakOf (today yesterday : Z) (user : User) (lastActive : Z) : Z :=
  let wasActiveYesterday := (toDateString lastActive =? toDateString yesterday)%Z in
  let wasActiveToday := (toDateString lastActive =? toDateString today)%Z in
  let newStreak := currentStreak user in
  if wasActiveToday then
    if wasActiveYesterday then currentStreak user
    else if (currentStreak user =? 0)%Z then 1%Z
    else newStreak
  else if negb wasActiveYesterday && (0 <? currentStreak user)%Z then 0%Z
  else newStreak.

Definition withUsers (us : list User) (s : Store) : Store :=
  {| users := us; categories := categories s;
     userCategories := userCategories s; facts := facts s;
     userFacts := userFacts s; userSessions := userSessions s;
     notifications := notifications s |}.

(** [data: { currentStreak: newStreak, longestStreak }] *)
Definition withStreaks (newStreak longest : Z) (u : User) : User :=
  {| user_id := user_id u; timezone := timezone u; user_isActive := user_isActive u;
     notificationsEnabled := notificationsEnabled u;
     dailyNotificationTime := dailyNotificationTime u;
     maxNotificationsPerDay := maxNotificationsPerDay u;
     weekendNotifications := weekendNotifications u;
     difficultyLevel := difficultyLevel u; currentStreak := newStreak;
     longestStreak := longest; lastActiveDate := lastActiveDate u;
     user_createdAt := user_createdAt u |}.

(** [prisma.user.update({ where: { id }, data })] *)
Definition updateUser (id : string) (data : User -> User) : M unit :=
  mutate (fun s =>
    withUsers (map (fun u => if String.eqb (user_id u) id then data u else u) (users s)) s).

(** The body of the loop over the active users. *)
Definition updateStreakOf (today yesterday : Z) (user : User) : M unit :=
  match lastActiveDate user with
  | None => ret tt (* continue *)
  | Some lastActive =>
      let newStreak := newStreakOf today yesterday user lastActive in
      if negb (newStreak =? currentStreak user)%Z then
        let longest := Z.max (longestStreak user) newStreak in
        updateUser (user_id user) (withStreaks newStreak longest)
      else ret tt
  end.

Definition updateUserStreaks : M unit :=
  tryCatch
    (let! users := query (fun s => List.filter user_isActive (users s)) in
     let! today := dateNow in
     let yesterday := NotificationService.daysBefore today 1 in
     forEach users (updateStreakOf today yesterday))
    (fun _ => ret tt).

(** *** The registry of the jobs *)

(** [this.jobs], a [Map] from the name of a job to its task (here: the
    cron expression the task was made with), in insertion order, and
    [this.isRunning]. *)
Record Registry := {
  jobs : list (string * string);
  isRunning : bool;
}.

(** [constructor()] *)
Definition constructor : Registry := {| jobs := []; isRunning := false |}.

(** [this.jobs.has(name)] *)
Definition has (name : string) (st : Registry) : bool :=
  existsb (fun job => String.eqb (fst job) name) (jobs st).

(** [cron.schedule] is taken to accept the expression, as it does for
    the six expressions of [start]. *)
Definition scheduleJob (name cronExpression : string) (st : Registry) : Registry :=
  if has name st then st
  else {| jobs := jobs st ++ [(name, cronExpression)]; isRunning := isRunning st |}.

Definition start (st : Registry) : Registry :=
  if isRunning st then st
  else
    let st := {| jobs := jobs st; isRunning := true |} in
    let st := scheduleJob "daily-facts-distribution" "0 * * * *" st in
    let st := scheduleJob "retry-failed-notifications" "*/15 * * * *" st in
    let st := scheduleJob "cleanup-expired-sessions" "0 * * * *" st in
    let st := scheduleJob "cleanup-old-notifications" "0 2 * * *" st in
    let st := scheduleJob "update-user-streaks" "0 1 * * *" st in
    scheduleJob "generate-analytics" "0 3 * * *" st.

Definition stop (st : Registry) : Registry :=
  if negb (isRunning st) then st
  else {| jobs := []; isRunning := false |}.

(** [{ isRunning, jobCount, jobs }], the jobs by their names. *)
Definition getJobStatus (st : Registry) : bool * nat * list string :=
  (isRunning st, length (jobs st), map fst (jobs st)).

(** *** The jobs that wrap a function of the notification service

    The two methods have the names of the functions they call. *)
Module Jobs.

Definition retryFailedNotifications : M unit :=
  tryCatch
    (let! result := NotificationService.retryFailedNotifications in ret tt)
    (fun _ => ret tt).

Definition cleanupOldNotifications : M unit :=
  tryCatch
    (let! result := NotificationService.cleanupOldNotifications 30 in ret tt)
    (fun _ => ret tt).

End Jobs.

End SchedulerService.

(** ** The fallback query as the specification words it

    Following the specification: "if empty, drop the unseen and category
    constraints and pick randomly among any matching-difficulty items". *)
Definition fallbackWhereOfSpec (user : User) (t : Z) : FactWhere :=
  {| where_isApproved := Some true;
     where_isActive := Some true;
     where_publishedAt_lte := Some t;
     where_difficulty := Some (difficultyLevel user);
     where_categoryId_in := None;
     where_id_notIn := None |}.

(** ** Sample data for the concrete runs *)

Module Samples.
Import PersonalizationService.

(** An approved, active, published fact. *)
Definition sampleFact (id category : string) (d : Difficulty) (likes created : Z) : Fact :=
  {| fact_id := id; title := id; shortContent := None; imageUrl := None;
     categoryId := category; difficulty := d; tags := [];
     isApproved := true; isFeatured := false; isActive := true;
     viewCount := 0; likeCount := likes; shareCount := 0;
     publishedAt := Some 0%Z; createdAt := created |}.

Definition sampleUserFact (userId id : string) (at_ : Z) : UserFact :=
  {| uf_userId := userId; factId := id; isViewed := true; isLiked := false;
     isBookmarked := false; isShared := false; viewedAt := Some at_;
     uf_updatedAt := at_ |}.

(** A view, at time [at_], of a fact of the given category. *)
Definition sampleView (category : string) (at_ : Z) : View :=
  {| interaction := sampleUserFact "u1" category at_;
     viewed := sampleFact category category MEDIUM 0 0 |}.

Definition nineCategories : list View :=
  map (fun c => sampleView c 1000)
    ["c1"; "c2"; "c3"; "c4"; "c5"; "c6"; "c7"; "c8"; "c9"].

Definition threeAtOnce : list View :=
  [sampleView "c1" 1000; sampleView "c2" 1000; sampleView "c1" 1000].

Definition oneView : list View := [sampleView "c1" 1000].

Definition userU1 : User :=
  {| user_id := "u1"; timezone := "UTC"; user_isActive := true;
     notificationsEnabled := true; dailyNotificationTime := "09:00";
     maxNotificationsPerDay := 3; weekendNotifications := true;
     difficultyLevel := MEDIUM; currentStreak := 0; longestStreak := 0;
     lastActiveDate := None; user_createdAt := 0 |}.

(** The newer fact [a] has no like, the older fact [b] has five. *)
Definition factA : Fact := sampleFact "a" "science" MEDIUM 0 2000.
Definition factB : Fact := sampleFact "b" "science" MEDIUM 5 1000.

Definition storeAB : Store :=
  {| users := [userU1]; categories := []; userCategories := [];
     facts := [factA; factB]; userFacts := []; userSessions := [];
     notifications := [] |}.

Definition worldOf (s : Store) (fs : list bool) : World :=
  {| db := s; now := 5000;
     faults := fs; randoms := []; firebase := true; pushes := [];
     multicasts := []; freshIds := [] |}.

(** A sent notification of [u1], created at time [at_]. *)
Definition sentNotification (id : string) (at_ : Z) : Notification :=
  {| notification_id := id; n_userId := "u1"; n_factId := Some "a";
     n_title := "Daily Fact Ready!"; n_body := "a"; n_imageUrl := None;
     status := SENT; scheduledFor := at_; sentAt := Some at_;
     fcmMessageId := None; fcmResponse := None; retryCount := 0;
     nextRetryAt := None; errorMessage := None; n_createdAt := at_ |}.

(** [u1] has already received three notifications today. *)
Definition storeCapped : Store :=
  {| users := [userU1]; categories := []; userCategories := [];
     facts := [factA; factB]; userFacts := []; userSessions := [];
     notifications :=
       [sentNotification "n1" 1000; sentNotification "n2" 2000;
        sentNotification "n3" 3000] |}.

(** [u1] has enabled the category science only and has seen its one fact;
    the history fact is of the same difficulty and unseen. *)
Definition factSeen : Fact := sampleFact "s1" "science" MEDIUM 0 2000.
Definition factOther : Fact := sampleFact "h1" "history" MEDIUM 0 3000.

Definition storeSeen : Store :=
  {| users := [userU1]; categories := [];
     userCategories :=
       [{| uc_userId := "u1"; uc_categoryId := "science"; isEnabled := true |}];
     facts := [factSeen; factOther];
     userFacts := [sampleUserFact "u1" "s1" 4000];
     userSessions := []; notifications := [] |}.

(** A failed notification of [user], due for retry at time 1000. *)
Definition failedNotification (id user : string) (retries : nat) : Notification :=
  {| notification_id := id; n_userId := user; n_factId := Some "a";
     n_title := "Daily Fact Ready!"; n_body := "a"; n_imageUrl := None;
     status := FAILED; scheduledFor := 0; sentAt := None;
     fcmMessageId := None; fcmResponse := None; retryCount := retries;
     nextRetryAt := Some 1000%Z; errorMessage := Some "Invalid token";
     n_createdAt := 0 |}.

Definition userMuted : User :=
  {| user_id := "u2"; timezone := "UTC"; user_isActive := true;
     notificationsEnabled := false; dailyNotificationTime := "09:00";
     maxNotificationsPerDay := 3; weekendNotifications := true;
     difficultyLevel := MEDIUM; currentStreak := 0; longestStreak := 0;
     lastActiveDate := None; user_createdAt := 0 |}.

(** Three failed notifications: one to retry, one of a user who disabled
    notifications, one that has used its three retries. *)
Definition storeFailed : Store :=
  {| users := [userU1; userMuted]; categories := []; userCategories := [];
     facts := [factA]; userFacts := []; userSessions := [];
     notifications :=
       [failedNotification "n1" "u1" 1; failedNotification "n2" "u2" 0;
        failedNotification "n3" "u1" 3] |}.

Definition sampleCandidate (id category : string) (d : Difficulty) : Candidate :=
  {| fact := sampleFact id category d 0 0; personalizedScore := Some 0%Q |}.

(** Seven candidates for six places: the third one is passed over, its
    category being full. *)
Definition sevenCandidates : list Candidate :=
  [sampleCandidate "f1" "c1" EASY; sampleCandidate "f2" "c1" EASY;
   sampleCandidate "f3" "c1" MEDIUM; sampleCandidate "f4" "c2" MEDIUM;
   sampleCandidate "f5" "c2" MEDIUM; sampleCandidate "f6" "c3" HARD;
   sampleCandidate "f7" "c3" HARD].

(** Three candidates of one category. *)
Definition threeOfOneCategory : list Candidate :=
  [sampleCandidate "f1" "c1" EASY; sampleCandidate "f2" "c1" EASY;
   sampleCandidate "f3" "c1" MEDIUM].

(** Two views of facts with tags. *)
Definition taggedViews : list View :=
  [{| interaction := sampleUserFact "u1" "t1" 1000;
      viewed := {| fact_id := "t1"; title := "t1"; shortContent := None;
                   imageUrl := None; categoryId := "science"; difficulty := MEDIUM;
                   tags := ["space"; "moon"]; isApproved := true; isFeatured := false;
                   isActive := true; viewCount := 0; likeCount := 0; shareCount := 0;
                   publishedAt := Some 0%Z; createdAt := 0 |} |};
   {| interaction := sampleUserFact "u1" "t2" 2000;
      viewed := {| fact_id := "t2"; title := "t2"; shortContent := None;
                   imageUrl := None; categoryId := "science"; difficulty := MEDIUM;
                   tags := ["space"]; isApproved := true; isFeatured := false;
                   isActive := true; viewCount := 0; likeCount := 0; shareCount := 0;
                   publishedAt := Some 0%Z; createdAt := 0 |} |}].

(** A user without streak who was active at time 1000. *)
Definition userToday : User :=
  {| user_id := "u3"; timezone := "UTC"; user_isActive := true;
     notificationsEnabled := true; dailyNotificationTime := "09:00";
     maxNotificationsPerDay := 3; weekendNotifications := true;
     difficultyLevel := MEDIUM; currentStreak := 0; longestStreak := 0;
     lastActiveDate := Some 1000%Z; user_createdAt := 0 |}.

Definition storeStreaks : Store :=
  {| users := [userU1; userToday]; categories := []; userCategories := [];
     facts := []; userFacts := []; userSessions := []; notifications := [] |}.

(** Four candidates that share one id. *)
Definition fourCopies : list Candidate :=
  replicate 4 (sampleCandidate "f1" "c1" EASY).

Definition sampleProfile (d : Difficulty) : UserProfile :=
  {| p_id := "u1"; p_difficultyLevel := d; p_timezone := "UTC";
     p_currentStreak := 0; p_longestStreak := 0; p_createdAt := 0;
     p_lastActiveDate := None; preferredCategories := ["science"];
     categoryPreferences := ∅;
     interactionStats := noInteractionStats;
     learningPatterns := noLearningPatterns; personalityScore := 0.5 |}.

End Samples.

(** * Properties *)

Import PersonalizationService NotificationService SchedulerService.

(** ** Vocabulary of the statements and of their proofs *)

(** The counters of the walk agree with the selection, which respects the
    category cap. *)
Definition walkInvariant (limit : nat) (st : Selection) : Prop :=
  ∀ cat, countOf (categoryCount st) cat = categoryOccurrences cat (selected st)
         ∧ categoryOccurrences cat (selected st) <= categoryCap limit.

(** [triple s t m Q E D]: run from any world whose database is [s] and whose
    clock reads [t], the computation [m] leaves both as they are; it returns
    only values satisfying [Q]; it throws only if [E]; it fails to finish
    only if [D]. *)
Definition triple {A} (s : Store) (t : Z) (m : M A) (Q : A -> Prop) (E D : Prop) : Prop :=
  forall w, db w = s -> now w = t ->
    match m w with
    | (Returned a, w') => db w' = s /\ now w' = t /\ Q a
    | (Thrown _, w') => db w' = s /\ now w' = t /\ E
    | (Diverged, w') => D
    end.

(** The fallback list: what the fallback query answers, or nothing when
    that query fails as well. *)
Definition fallbackList (s : Store) (t : Z) (n : nat) (l : list Fact) : Prop :=
  l = findFacts (eligibleWhere t) byFeaturedLikesViews n s \/ l = [].

(** The shape of the fallback list: ordered by (featured desc,
    like-count desc, view-count desc), made of eligible items, at most [n]
    long. *)
Definition fallbackShaped (s : Store) (t : Z) (n : nat) (l : list Fact) : Prop :=
  StronglySorted (fun a b => byFeaturedLikesViews a b = true) l
  /\ (forall f, f ∈ l -> f ∈ facts s /\ eligible t f = true)
  /\ length l <= n.

(** The primary key of the facts. *)
Definition distinctFactIds (s : Store) : Prop := NoDup (map fact_id (facts s)).

(** What the job does to a stored record [m] for a selected [entry]. *)
Definition retried (t : Z) (entry : Notification * User) (m : Notification) : Notification :=
  if notificationsEnabled (snd entry)
  then rescheduled (addMinutes t (backoffMinutes (retryCount (fst entry)))) m
  else cancelled m.

Definition applyRetry (t : Z) (entry : Notification * User) (ns : list Notification)
  : list Notification :=
  map (fun m => if String.eqb (notification_id m) (notification_id (fst entry))
                then retried t entry m else m) ns.

(** The weighted sum of the six factors of [calculateFactScore], before
    it is clamped. *)
Definition weightedScore (dateNow : Z) (f : Fact) (userProfile : UserProfile) : Q :=
  let score := 0%Q in
  let score :=
    if includes (preferredCategories userProfile) (categoryId f) then
      let categoryEngagement :=
        match categoryPreferences userProfile !! categoryId f with
        | Some pref => engagement pref
        | None => 0%Q
        end in
      (score + 0.4 * (0.5 + categoryEngagement * 0.5))%Q
    else (score + 0.4 * 0.1)%Q in
  let difficultyMatch := calculateDifficultyMatch (difficulty f) userProfile in
  let score := (score + 0.25 * difficultyMatch)%Q in
  let tagScore :=
    calculateTagScore (tags f) (preferredTags (learningPatterns userProfile)) in
  let score := (score + 0.15 * tagScore)%Q in
  let popularityScore := calculatePopularityScore f in
  let score := (score + 0.1 * popularityScore)%Q in
  let freshnessScore := calculateFreshnessScore dateNow (createdAt f) in
  let score := (score + 0.05 * freshnessScore)%Q in
  let personalityScore :=
    calculatePersonalityMatch f (personalityScore userProfile) in
  (score + 0.05 * personalityScore)%Q.

(** The difficulty counters of the walk agree with the selection, which
    respects the difficulty cap. *)
Definition walkInvariantOfDifficulty (limit : nat) (st : Selection) : Prop :=
  ∀ d, countOf (difficultyCount st) d = difficultyOccurrences d (selected st)
       ∧ difficultyOccurrences d (selected st) <= difficultyCap limit.

(** The ids of a list of candidates. *)
Definition idsOf (candidates : list Candidate) : list string :=
  map (fun c => fact_id (fact c)) candidates.

(** What holds of the statistics of a user, whatever the database. *)
Definition wellFormedStats (s : Store) (userId : string) (stats : InteractionStats) : Prop :=
  recentActivity stats <= totalViewed stats
  /\ (0 <= likeRate stats)%Q /\ (0 <= bookmarkRate stats)%Q
  /\ (0 <= shareRate stats)%Q /\ (0 <= engagementScore stats)%Q
  /\ (totalViewed stats = 0 -> (engagementScore stats == 0)%Q)
  /\ ((forall uf, uf ∈ userFacts s -> uf_userId uf = userId ->
         isLiked uf || isBookmarked uf || isShared uf = true -> isViewed uf = true) ->
      (likeRate stats <= 1)%Q /\ (bookmarkRate stats <= 1)%Q
      /\ (shareRate stats <= 1)%Q /\ (engagementScore stats <= 1)%Q).

(** What holds of the candidates found for a user in the database [s] at
    time [t]. *)
Definition candidatesFor (s : Store) (t : Z) (userId : string)
    (options : CandidateOptions) (l : list Fact) : Prop :=
  length l <= c_limit options
  /\ StronglySorted (fun a b => byFeaturedThenNewest a b = true) l
  /\ (forall f, f ∈ l ->
        f ∈ facts s /\ eligible t f = true
        /\ (forall d, c_difficultyOverride options = Some d -> difficulty f = d)
        /\ (c_categoryFilters options <> [] -> categoryId f ∈ c_categoryFilters options)
        /\ (c_excludeViewed options = true -> fact_id f ∉ viewedFactIds userId s))
  /\ (length l < c_limit options ->
      forall f, f ∈ facts s -> eligible t f = true ->
        (forall d, c_difficultyOverride options = Some d -> difficulty f = d) ->
        (c_categoryFilters options <> [] -> categoryId f ∈ c_categoryFilters options) ->
        (c_excludeViewed options = true -> fact_id f ∉ viewedFactIds userId s) ->
        f ∈ l).

(** What holds of the users found similar to the user [userId]. *)
Definition similarTo (s : Store) (userId : string) (userProfile : UserProfile)
    (similar : list SimilarUser) : Prop :=
  length similar <= 5
  /\ StronglySorted (fun a b => (similarityScore b <= similarityScore a)%Q) similar
  /\ forall su, su ∈ similar ->
       su_id su <> userId
       /\ exists u, u ∈ users s /\ user_id u = su_id su /\ user_isActive u = true
            /\ difficultyLevel u = p_difficultyLevel userProfile
            /\ similarityScore su = calculateUserSimilarity userProfile u
            /\ exists uc, uc ∈ userCategories s /\ uc_userId uc = user_id u
                 /\ isEnabled uc = true
                 /\ uc_categoryId uc ∈ preferredCategories userProfile.

(** What holds of the facts recommended to the user [userId]. *)
Definition recommendedFor (s : Store) (t : Z) (userId : string) (limit : nat)
    (l : list Fact) : Prop :=
  length l <= limit
  /\ forall f, f ∈ l ->
       f ∈ facts s /\ isApproved f = true /\ isActive f = true
       /\ (eligible t f = true
           \/ exists uf, uf ∈ userFacts s /\ factId uf = fact_id f
                /\ isLiked uf = true /\ uf_userId uf <> userId).

(** What holds of the fact chosen for [user] in the database [s] at time
    [t]. *)
Definition chosenFor (s : Store) (t : Z) (user : User) (found : option Fact) : Prop :=
  forall f, found = Some f ->
    f ∈ facts s /\ eligible t f = true /\ difficulty f = difficultyLevel user
    /\ (enabledCategoryIds (user_id user) s <> [] ->
        categoryId f ∈ enabledCategoryIds (user_id user) s).

(** What the streak job does to the row of a user, read at time [today]. *)
Definition streakChange (today : Z) (u : User) : User :=
  match lastActiveDate u with
  | Some lastActive =>
      let newStreak := newStreakOf today (daysBefore today 1) u lastActive in
      if negb (newStreak =? currentStreak u)%Z
      then withStreaks newStreak (Z.max (longestStreak u) newStreak) u
      else u
  | None => u
  end.

(** The streak job on the table of the users: active users only. *)
Definition streakUpdated (today : Z) (u : User) : User :=
  if user_isActive u then streakChange today u else u.

(** One iteration of the loop of the streak job, on the table. *)
Definition applyStreak (today : Z) (selected : User) (us : list User) : list User :=
  match lastActiveDate selected with
  | Some lastActive =>
      let newStreak := newStreakOf today (daysBefore today 1) selected lastActive in
      if negb (newStreak =? currentStreak selected)%Z
      then map (fun u => if String.eqb (user_id u) (user_id selected)
                         then withStreaks newStreak
                                (Z.max (longestStreak selected) newStreak) u
                         else u) us
      else us
  | None => us
  end.

(** A computation that ends: it returns or throws. *)
Definition finishes {A} (m : M A) : Prop := forall w, fst (m w) <> Diverged.

(** The trend read in the other direction. *)
Definition opposite (trend : Trend) : Trend :=
  match trend with
  | increasing => decreasing
  | decreasing => increasing
  | stable => stable
  end.

(** What one step of the loop of [analyzeDifficultyProgression] does to
    the two counters [(increasing, decreasing)]. *)
Definition bump (previous current : nat) (counts : nat * nat) : nat * nat :=
  if previous <? current then (S (fst counts), snd counts)
  else if current <? previous then (fst counts, S (snd counts))
  else counts.

(** The two counters after the loop. *)
Definition steps (difficulties : list nat) : nat * nat :=
  match difficulties with
  | [] => (0, 0)
  | first :: rest => transitions first rest
  end.

(** The tags of the viewed facts, one entry per occurrence. *)
Definition tagsViewed (recentViews : list View) : list string :=
  concat (map (fun v => tags (viewed v)) recentViews).

(** The property names every object inherits from [Object.prototype]:
    on the object [{}] they read as something else than [undefined]. *)
Definition objectPrototypeKeys : list string :=
  ["constructor"; "__proto__"; "hasOwnProperty"; "isPrototypeOf";
   "propertyIsEnumerable"; "toLocaleString"; "toString"; "valueOf";
   "__defineGetter__"; "__defineSetter__"; "__lookupGetter__"; "__lookupSetter__"].

(** [tagCounts[tag] || 0] *)
Definition tagCount (tag : string) (tagCounts : list (string * nat)) : nat :=
  match List.find (fun kv => String.eqb (fst kv) tag) tagCounts with
  | Some kv => snd kv
  | None => 0
  end.

(** How often a tag occurs among the viewed facts. *)
Definition occurrences (tag : string) (recentViews : list View) : nat :=
  length (filter (fun t => t = tag) (tagsViewed recentViews)).

(** ** Diversification *)

Section Diversity.
Implicit Types (facts sel : list Candidate) (st : Selection) (c : Candidate).

Lemma categoryOccurrences_snoc cat sel c :
  categoryOccurrences cat (sel ++ [c]) =
  categoryOccurrences cat sel + (if decide (categoryId (fact c) = cat) then 1 else 0).
Proof.
  unfold categoryOccurrences. rewrite filter_app, length_app.
  rewrite filter_cons, filter_nil. destruct (decide _); reflexivity.
Qed.

Lemma walkInvariant_empty limit : walkInvariant limit emptySelection.
Proof. intros cat. split; [reflexivity | apply Nat.le_0_l]. Qed.

Lemma walkInvariant_push limit st c :
  walkInvariant limit st ->
  countOf (categoryCount st) (categoryId (fact c)) < categoryCap limit ->
  walkInvariant limit (push st c).
Proof.
  intros Hinv Hlt cat. destruct (Hinv cat) as [Hcount Hcap].
  cbn [push selected categoryCount]. rewrite categoryOccurrences_snoc.
  unfold countOf in *. destruct (decide (categoryId (fact c) = cat)) as [Heq|Hne].
  - rewrite Heq in *. rewrite lookup_insert_eq. cbn. lia.
  - rewrite lookup_insert_ne by done. lia.
Qed.

Lemma diversityWalk_invariant limit facts st :
  walkInvariant limit st -> walkInvariant limit (diversityWalk limit facts st).
Proof.
  revert st. induction facts as [|c rest IH]; intros st Hinv; cbn; [done|].
  destruct (limit <=? length (selected st)); [done|].
  destruct (Nat.leb_spec (categoryCap limit)
              (countOf (categoryCount st) (categoryId (fact c)))); [by apply IH|].
  destruct (difficultyCap limit <=? _); [by apply IH|].
  apply IH. by apply walkInvariant_push.
Qed.

(** The walk only appends, in order, candidates of the list it walks. *)
Lemma diversityWalk_sublist limit facts st :
  ∃ more, selected (diversityWalk limit facts st) = selected st ++ more
          ∧ more `sublist_of` facts.
Proof.
  revert st. induction facts as [|c rest IH]; intros st; cbn.
  - exists []. by rewrite app_nil_r.
  - destruct (limit <=? length (selected st)).
    { exists []. rewrite app_nil_r. split; [done | apply sublist_nil_l]. }
    destruct (categoryCap limit <=? _).
    { destruct (IH st) as (more & -> & Hsub). exists more. split; [done|].
      by apply sublist_cons. }
    destruct (difficultyCap limit <=? _).
    { destruct (IH st) as (more & -> & Hsub). exists more. split; [done|].
      by apply sublist_cons. }
    destruct (IH (push st c)) as (more & -> & Hsub). exists (c :: more).
    cbn [push selected]. rewrite <- app_assoc. split; [done|].
    by apply sublist_skip.
Qed.

Lemma sublist_full {A} (l k : list A) :
  l `sublist_of` k -> length k <= length l -> l = k.
Proof.
  induction 1 as [|x l k Hsub IH|x l k Hsub IH]; cbn; intros Hlen.
  - reflexivity.
  - f_equal. apply IH. lia.
  - apply sublist_length in Hsub. lia.
Qed.

Lemma diversityWalk_full limit facts :
  length facts <= length (selected (diversityWalk limit facts emptySelection)) ->
  selected (diversityWalk limit facts emptySelection) = facts.
Proof.
  destruct (diversityWalk_sublist limit facts emptySelection) as (more & -> & Hsub).
  cbn. intros Hlen. by apply sublist_full.
Qed.

Lemma backfill_not_needed fuel limit facts sel :
  limit <= length sel -> backfill fuel limit facts sel = Some sel.
Proof.
  intros Hlen. apply Nat.ltb_ge in Hlen.
  destruct fuel; unfold backfill; fold backfill; rewrite Hlen; reflexivity.
Qed.

(** Without the restriction to [6 <= limit]: when the capped walk fills
    the selection by itself, that walk is the result and no category
    exceeds its cap. *)
Lemma addDiversityToSelection_capped fuel facts limit :
  backfillRequired facts limit = false ->
  addDiversityToSelection fuel facts limit
    = Some (selected (diversityWalk limit facts emptySelection))
  ∧ ∀ cat, categoryOccurrences cat
             (selected (diversityWalk limit facts emptySelection))
           <= categoryCap limit.
Proof.
  unfold backfillRequired, addDiversityToSelection. intros Hfull.
  apply Nat.ltb_ge in Hfull. split.
  - destruct (Nat.leb_spec (length facts) limit) as [Hshort|Hlong].
    + f_equal. symmetry. apply diversityWalk_full. lia.
    + by apply backfill_not_needed.
  - intros cat.
    apply (diversityWalk_invariant limit facts emptySelection
             (walkInvariant_empty limit) cat).
Qed.

(** C3. For every candidate list and every [limit >= 6]: unless back-fill
    is required to reach [limit] items (the capped walk alone admits fewer
    than [limit]), [addDiversityToSelection] returns a selection in which
    no category occurs more than [max(1, floor(limit/3))] times. *)
Theorem diversity_category_cap fuel facts limit cat :
  6 <= limit ->
  backfillRequired facts limit = false ->
  ∃ out, addDiversityToSelection fuel facts limit = Some out
         ∧ categoryOccurrences cat out <= Nat.max 1 (limit / 3).
Proof.
  intros _ Hfull.
  destruct (addDiversityToSelection_capped fuel facts limit Hfull) as [Hout Hcap].
  eexists. split; [exact Hout | apply Hcap].
Qed.

Lemma diversity_category_cap_witness :
  exists out, addDiversityToSelection 0 Samples.sevenCandidates 6 = Some out
              /\ categoryOccurrences "c1" out <= Nat.max 1 (6 / 3).
Proof.
  apply (diversity_category_cap 0 Samples.sevenCandidates 6 "c1"); [lia|].
  vm_compute. reflexivity.
Defined.

(** C9. For every candidate list of length at most [limit],
    [addDiversityToSelection] returns its input unchanged, whatever the
    categories and difficulties in it: neither cap is applied. *)
Theorem diversity_identity_when_short fuel facts limit :
  length facts <= limit ->
  addDiversityToSelection fuel facts limit = Some facts.
Proof.
  intros Hshort. unfold addDiversityToSelection.
  destruct (Nat.leb_spec (length facts) limit); [reflexivity | lia].
Qed.
Lemma diversity_identity_when_short_witness :
  addDiversityToSelection 0 Samples.threeOfOneCategory 6
  = Some Samples.threeOfOneCategory.
Proof.
  apply (diversity_identity_when_short 0 Samples.threeOfOneCategory 6). cbn. lia.
Defined.
End Diversity.

(** ** Sorting *)

Section SortingFacts.
Context {A : Type} (before : A -> A -> bool).

Lemma insertBy_Permutation x l : insertBy before x l ≡ₚ x :: l.
Proof.
  induction l as [|y l IH]; cbn; [done|].
  destruct (before x y); [done|]. rewrite IH. apply Permutation_swap.
Qed.

Lemma sortBy_Permutation l : sortBy before l ≡ₚ l.
Proof.
  induction l as [|x l IH]; cbn; [done|].
  fold (sortBy before l). by rewrite insertBy_Permutation, IH.
Qed.

Lemma sortBy_length l : length (sortBy before l) = length l.
Proof. by rewrite sortBy_Permutation. Qed.

Lemma sortBy_elem_of x l : x ∈ sortBy before l <-> x ∈ l.
Proof. by rewrite sortBy_Permutation. Qed.

Hypothesis before_total : forall a b, before a b = true \/ before b a = true.
Hypothesis before_trans :
  forall a b c, before a b = true -> before b c = true -> before a c = true.

Lemma insertBy_sorted x l :
  StronglySorted (fun a b => before a b = true) l ->
  StronglySorted (fun a b => before a b = true) (insertBy before x l).
Proof.
  induction 1 as [|y l Hsorted IH Hall]; cbn.
  - repeat constructor.
  - destruct (before x y) eqn:Hxy.
    + constructor; [by constructor|]. constructor; [done|].
      eapply Forall_impl; [exact Hall|]. cbn. eauto.
    + constructor; [done|]. rewrite insertBy_Permutation.
      constructor; [|done]. destruct (before_total x y); congruence.
Qed.

Lemma sortBy_sorted l :
  StronglySorted (fun a b => before a b = true) (sortBy before l).
Proof.
  induction l as [|x l IH]; cbn; [constructor|]. by apply insertBy_sorted.
Qed.
End SortingFacts.

Lemma StronglySorted_take {A} (R : relation A) n l :
  StronglySorted R l -> StronglySorted R (take n l).
Proof.
  intros Hsorted. rewrite <- (take_drop n l) in Hsorted.
  by apply StronglySorted_app_1_l in Hsorted.
Qed.

(** ** Scores *)

(** C2. For every content item and every user profile (and every reading
    of the clock), [calculateFactScore] is in the closed interval [0,1]. *)
Theorem calculateFactScore_bounds (dateNow : Z) (f : Fact) (userProfile : UserProfile) :
  (0 <= calculateFactScore dateNow f userProfile)%Q
  /\ (calculateFactScore dateNow f userProfile <= 1)%Q.
Proof.
  unfold calculateFactScore. split.
  - apply Q.min_glb; [discriminate | apply Q.le_max_l].
  - apply Q.le_min_l.
Qed.

(** ** Learning patterns *)

Lemma size_list_to_set_le (l : list string) :
  size (list_to_set l : gset string) <= length l.
Proof.
  induction l as [|x l IH]; cbn.
  - by rewrite size_empty.
  - rewrite size_union_alt, size_singleton.
    assert (size (list_to_set l ∖ {[x]} : gset string) <= size (list_to_set l : gset string))
      as Hsub by (apply subseteq_size, subseteq_difference_l; reflexivity).
    lia.
Qed.

Lemma categoriesOf_size recentViews :
  size (categoriesOf recentViews) <= length recentViews.
Proof.
  unfold categoriesOf.
  etransitivity; [apply size_list_to_set_le|]. by rewrite length_map.
Qed.

Lemma ofNat_ratio_le_1 (a b : nat) : 0 < b -> a <= b -> (ofNat a / ofNat b <= 1)%Q.
Proof.
  intros Hpos Hle. unfold ofNat. apply Qle_shift_div_r.
  - change 0%Q with (inject_Z 0). rewrite <- Zlt_Qlt. lia.
  - rewrite Qmult_1_l, <- Zle_Qle. lia.
Qed.

(** C7, counterexample: nine views in nine distinct categories give a topic
    diversity of 9/8, which exceeds 1. *)
Lemma topicDiversity_exceeds_1 :
  (analyzeTopicDiversity Samples.nineCategories == 9 # 8)%Q
  /\ ~ (analyzeTopicDiversity Samples.nineCategories <= 1)%Q.
Proof. split; [by vm_compute | by vm_compute]. Qed.

(** C7, amended. For every non-empty recent-view history, the topic
    diversity is the number of distinct categories divided by
    [min(number of views, 8)]; it does not exceed 1 when the history touches
    at most eight distinct categories. *)
Theorem topicDiversity_formula (recentViews : list View) :
  recentViews <> [] ->
  analyzeTopicDiversity recentViews
    = (ofNat (size (categoriesOf recentViews))
       / ofNat (Nat.min (length recentViews) 8))%Q
  /\ (size (categoriesOf recentViews) <= 8 ->
      (analyzeTopicDiversity recentViews <= 1)%Q).
Proof.
  intros Hne. unfold analyzeTopicDiversity.
  destruct recentViews as [|v rest]; [done|].
  cbn [length Nat.eqb]. split; [reflexivity|]. intros Hfew.
  pose proof (categoriesOf_size (v :: rest)) as Hsize. cbn [length] in Hsize.
  apply ofNat_ratio_le_1; lia.
Qed.

Lemma topicDiversity_formula_witness :
  analyzeTopicDiversity Samples.threeAtOnce
    = (ofNat (size (categoriesOf Samples.threeAtOnce))
       / ofNat (Nat.min (length Samples.threeAtOnce) 8))%Q
  /\ (size (categoriesOf Samples.threeAtOnce) <= 8 ->
      (analyzeTopicDiversity Samples.threeAtOnce <= 1)%Q).
Proof. apply topicDiversity_formula. discriminate. Defined.

Lemma last_all_equal {A} (x : A) (l : list A) :
  Forall (fun y => y = x) l -> List.last l x = x.
Proof.
  induction 1 as [|y l Hy Hall IH]; [reflexivity|].
  subst y. destruct l as [|z l]; [reflexivity|]. exact IH.
Qed.

(** C8, counterexample: a history of one view has a single timestamp, yet
    its consistency score is 0. *)
Lemma consistency_single_view_is_0 :
  (forall v, v ∈ Samples.oneView -> viewedAt (interaction v) = Some 1000%Z)
  /\ calculateConsistencyScore Samples.oneView = 0%Q
  /\ ~ (calculateConsistencyScore Samples.oneView == 1)%Q.
Proof.
  split; [|split; [reflexivity | by vm_compute]].
  intros v Hv. apply list_elem_of_singleton in Hv. by subst v.
Qed.

(** C8, amended. For every view history of at least three views that all
    share one timestamp, [calculateConsistencyScore] returns 1; for every
    history of fewer than three views it returns 0. *)
Theorem consistency_same_timestamp (recentViews : list View) :
  (3 <= length recentViews ->
   forall t, (forall v, v ∈ recentViews -> viewedAt (interaction v) = t) ->
   calculateConsistencyScore recentViews = 1%Q)
  /\ (length recentViews < 3 -> calculateConsistencyScore recentViews = 0%Q).
Proof.
  unfold calculateConsistencyScore. split.
  - intros Hlen t Hsame.
    destruct (Nat.ltb_spec (length recentViews) 3); [lia|].
    set (dates := map (fun v => getTime (viewedAt (interaction v))) recentViews).
    assert (Forall (fun d => d = getTime t) (defaultSort dates)) as Hall.
    { unfold defaultSort. rewrite sortBy_Permutation. subst dates.
      apply Forall_forall. intros d Hd. apply list_elem_of_fmap in Hd.
      destruct Hd as (v & -> & Hv). by rewrite (Hsame v Hv). }
    destruct (defaultSort dates) as [|first rest] eqn:Hsorted.
    { apply (f_equal length) in Hsorted. unfold defaultSort in Hsorted.
      rewrite sortBy_length in Hsorted. subst dates.
      rewrite length_map in Hsorted. cbn in Hsorted. lia. }
    pose proof Hall as Hfirst. apply Forall_cons in Hfirst as [-> _].
    rewrite (last_all_equal _ _ Hall), Z.sub_diag. reflexivity.
  - intros Hlen. destruct (Nat.ltb_spec (length recentViews) 3); [reflexivity | lia].
Qed.

Lemma consistency_same_timestamp_witness :
  calculateConsistencyScore Samples.threeAtOnce = 1%Q
  /\ calculateConsistencyScore Samples.oneView = 0%Q.
Proof.
  split.
  - apply (proj1 (consistency_same_timestamp Samples.threeAtOnce)) with (t := Some 1000%Z);
      [cbn; lia|].
    intros v Hv. unfold Samples.threeAtOnce in Hv.
    repeat (apply elem_of_cons in Hv as [->|Hv]; [reflexivity|]).
    by apply elem_of_nil in Hv.
  - apply (proj2 (consistency_same_timestamp Samples.oneView)). cbn; lia.
Defined.

(** ** Reasoning about the effects *)

Section Triples.
Context {A B : Type} (s : Store) (t : Z).
Implicit Types (E D : Prop).

Lemma triple_ret (a : A) (Q : A -> Prop) E D : Q a -> triple s t (ret a) Q E D.
Proof. intros HQ w Hs Ht. cbn. auto. Qed.

Lemma triple_throw (e : JsError) (Q : A -> Prop) (E D : Prop) :
  E -> triple s t (throw e) Q E D.
Proof. intros HE w Hs Ht. cbn. auto. Qed.

Lemma triple_diverge (Q : A -> Prop) (E D : Prop) : D -> triple s t diverge Q E D.
Proof. intros HD w Hs Ht. exact HD. Qed.

Lemma triple_bind (m : M A) (k : A -> M B) (P : A -> Prop) (Q : B -> Prop) E D :
  triple s t m P E D ->
  (forall a, P a -> triple s t (k a) Q E D) ->
  triple s t (bind m k) Q E D.
Proof.
  intros Hm Hk w Hs Ht. specialize (Hm w Hs Ht). unfold bind.
  destruct (m w) as [[a|e|] w1]; [|done|done].
  destruct Hm as (Hs1 & Ht1 & HP). exact (Hk a HP w1 Hs1 Ht1).
Qed.

Lemma triple_tryCatch (body : M A) (handler : JsError -> M A) (Q : A -> Prop) E' E D :
  triple s t body Q E' D ->
  (forall e, E' -> triple s t (handler e) Q E D) ->
  triple s t (tryCatch body handler) Q E D.
Proof.
  intros Hbody Hhandler w Hs Ht. specialize (Hbody w Hs Ht). unfold tryCatch.
  destruct (body w) as [[a|e|] w1]; [done| |done].
  destruct Hbody as (Hs1 & Ht1 & HE). exact (Hhandler e HE w1 Hs1 Ht1).
Qed.

Lemma triple_weaken (m : M A) (P Q : A -> Prop) (E E' D D' : Prop) :
  triple s t m P E D ->
  (forall a, P a -> Q a) -> (E -> E') -> (D -> D') ->
  triple s t m Q E' D'.
Proof.
  intros Hm HPQ HE HD w Hs Ht. specialize (Hm w Hs Ht).
  destruct (m w) as [[a|e|] w1]; intuition auto.
Qed.

Lemma triple_promiseAll (a : M A) (b : M B) (P : A -> Prop) (Q : B -> Prop) E D :
  triple s t a P E D -> triple s t b Q E D ->
  triple s t (promiseAll a b) (fun xy => P (fst xy) /\ Q (snd xy)) E D.
Proof.
  intros Ha Hb w Hs Ht. specialize (Ha w Hs Ht). unfold promiseAll.
  destruct (a w) as [[x|e|] w1].
  - destruct Ha as (Hs1 & Ht1 & HP). specialize (Hb w1 Hs1 Ht1).
    destruct (b w1) as [[y|e|] w2]; intuition auto.
  - destruct Ha as (Hs1 & Ht1 & HE). specialize (Hb w1 Hs1 Ht1).
    destruct (b w1) as [[y|e'|] w2]; intuition auto.
  - destruct (b w1) as [[y|e'|] w2]; done.
Qed.
End Triples.

Lemma triple_roundTrip s t (Q : unit -> Prop) (D : Prop) :
  Q tt -> triple s t roundTrip Q True D.
Proof.
  intros HQ w Hs Ht. unfold roundTrip.
  destruct (faults w) as [|[] later]; cbn; auto.
Qed.

Lemma triple_query {A} s t (q : Store -> A) (Q : A -> Prop) (D : Prop) :
  Q (q s) -> triple s t (query q) Q True D.
Proof.
  intros HQ. unfold query. eapply triple_bind; [by apply (triple_roundTrip s t (fun _ => True))|].
  intros _ _ w Hs Ht. cbn. by subst s.
Qed.

Lemma triple_dateNow s t (Q : Z -> Prop) (E D : Prop) :
  Q t -> triple s t dateNow Q E D.
Proof. intros HQ w Hs Ht. cbn. by subst t. Qed.

(** [safe]: a computation built from reads of the database and calls of
    the cache functions leaves database and clock as they are, and
    finishes; inside a [try] block it may throw. *)
Lemma triple_cacheGet {A} s t key (Q : option A -> Prop) (D : Prop) :
  triple s t (cacheGet key) Q True D.
Proof. by apply triple_throw. Qed.

Lemma triple_cacheSet {A} s t key (value : A) ttl (Q : unit -> Prop) (D : Prop) :
  triple s t (cacheSet key value ttl) Q True D.
Proof. by apply triple_throw. Qed.

Lemma triple_promiseAll_safe {A B} s t (a : M A) (b : M B) (E D : Prop) :
  triple s t a (fun _ => True) E D -> triple s t b (fun _ => True) E D ->
  triple s t (promiseAll a b) (fun _ => True) E D.
Proof.
  intros Ha Hb. eapply triple_weaken; [exact (triple_promiseAll s t a b _ _ E D Ha Hb)|..]; auto.
Qed.

Ltac safe :=
  lazymatch goal with
  | |- triple _ _ (ret _) _ _ _ => apply triple_ret; exact I
  | |- triple _ _ (bind _ _) _ _ _ =>
      eapply (triple_bind _ _ _ _ (fun _ => True)); [safe | intros ? _; safe]
  | |- triple _ _ (tryCatch _ _) _ _ _ =>
      eapply (triple_tryCatch _ _ _ _ _ True); [safe | intros ? _; safe]
  | |- triple _ _ (promiseAll _ _) _ _ _ =>
      apply triple_promiseAll_safe; safe
  | |- triple _ _ (query _) _ _ _ => apply triple_query; exact I
  | |- triple _ _ (countUserFacts _ _) _ _ _ => apply triple_query; exact I
  | |- triple _ _ roundTrip _ _ _ => apply triple_roundTrip; exact I
  | |- triple _ _ dateNow _ _ _ => apply triple_dateNow; exact I
  | |- triple _ _ (cacheGet _) _ _ _ => apply triple_cacheGet
  | |- triple _ _ (cacheSet _ _ _) _ _ _ => apply triple_cacheSet
  | |- triple _ _ (match ?x with _ => _ end) _ _ _ => destruct x; safe
  | |- _ => eauto with triples
  end.

Create HintDb triples.

Lemma triple_getUserInteractionStats s t userId (E D : Prop) :
  triple s t (getUserInteractionStats userId) (fun _ => True) E D.
Proof. unfold getUserInteractionStats. safe. Qed.

Lemma triple_getUserLearningPatterns s t userId (E D : Prop) :
  triple s t (getUserLearningPatterns userId) (fun _ => True) E D.
Proof. unfold getUserLearningPatterns. safe. Qed.

#[local] Hint Resolve triple_getUserInteractionStats triple_getUserLearningPatterns
  : triples.

(** [getUserProfile] never throws. *)
Lemma triple_getUserProfile s t userId (E D : Prop) :
  triple s t (getUserProfile userId) (fun _ => True) E D.
Proof. unfold getUserProfile. safe. Qed.

(** [calculatePersonalizationScores] never throws. *)
Lemma triple_calculatePersonalizationScores s t userId userProfile (E D : Prop) :
  triple s t (calculatePersonalizationScores userId userProfile) (fun _ => True) E D.
Proof. unfold calculatePersonalizationScores. safe. Qed.

(** [getFallbackFacts] never throws, and returns the fallback list. *)
Lemma triple_getFallbackFacts s t n (E D : Prop) :
  triple s t (getFallbackFacts n) (fallbackList s t n) E D.
Proof.
  unfold getFallbackFacts. eapply (triple_tryCatch _ _ _ _ _ True).
  - eapply triple_bind; [apply (triple_dateNow s t (fun t' => t' = t)); reflexivity|].
    intros t' ->. apply triple_query. by left.
  - intros _ _. apply triple_ret. by right.
Qed.

Lemma triple_getFallbackFacts_safe s t n (E D : Prop) :
  triple s t (getFallbackFacts n) (fun _ => True) E D.
Proof. eapply triple_weaken; [apply (triple_getFallbackFacts s t n E D)|..]; auto. Qed.

Lemma triple_findSimilarUsers s t userId userProfile (E D : Prop) :
  triple s t (findSimilarUsers userId userProfile) (fun _ => True) E D.
Proof. unfold findSimilarUsers. safe. Qed.

#[local] Hint Resolve triple_getUserProfile triple_calculatePersonalizationScores
  triple_getFallbackFacts_safe triple_findSimilarUsers : triples.

(** [getRecommendedFacts] never throws. *)
Lemma triple_getRecommendedFacts s t userId userProfile n (E D : Prop) :
  triple s t (getRecommendedFacts userId userProfile n) (fun _ => True) E D.
Proof. unfold getRecommendedFacts. safe. Qed.

(** [getFactCandidates] answers with the rows of one query on facts, or
    throws. *)
Lemma triple_getFactCandidates s t userId options (D : Prop) :
  triple s t (getFactCandidates userId options)
    (fun l => exists wh, l = findFacts wh byFeaturedThenNewest (c_limit options) s)
    True D.
Proof.
  unfold getFactCandidates.
  eapply (triple_bind _ _ _ _ (fun _ => True)); [safe|]. intros t' _.
  eapply (triple_bind _ _ _ _ (fun _ => True)); [safe|]. intros notIn _.
  apply triple_query. eauto.
Qed.

(** ** Termination of the back-fill *)

Lemma found_elem_of (sel : list Candidate) (c : Candidate) :
  found sel c = true <-> fact_id (fact c) ∈ map (fun f => fact_id (fact f)) sel.
Proof.
  unfold found. rewrite existsb_exists, list_elem_of_fmap. split.
  - intros (f & Hin & Heq). apply String.eqb_eq in Heq.
    exists f. split; [done | by apply list_elem_of_In].
  - intros (f & Heq & Hin). exists f. split; [by apply list_elem_of_In|].
    by apply String.eqb_eq.
Qed.

Lemma fillPass_extends limit facts sel :
  exists more, fillPass limit facts sel = sel ++ more.
Proof.
  revert sel. induction facts as [|c rest IH]; intros sel; cbn.
  - exists []. by rewrite app_nil_r.
  - destruct (limit <=? length sel); [exists []; by rewrite app_nil_r|].
    destruct (found sel c); [apply IH|].
    destruct (IH (sel ++ [c])) as [more ->]. exists (c :: more).
    by rewrite <- app_assoc.
Qed.

Lemma fillPass_keeps limit facts sel c :
  found sel c = true -> found (fillPass limit facts sel) c = true.
Proof.
  destruct (fillPass_extends limit facts sel) as [more ->].
  unfold found. rewrite existsb_app. by intros ->.
Qed.

(** One pass either fills the selection or takes in every candidate. *)
Lemma fillPass_complete limit facts sel :
  limit <= length (fillPass limit facts sel)
  \/ forall c, c ∈ facts -> found (fillPass limit facts sel) c = true.
Proof.
  revert sel. induction facts as [|c rest IH]; intros sel; cbn.
  - right. intros c Hc. by apply elem_of_nil in Hc.
  - destruct (Nat.leb_spec limit (length sel)); [by left|].
    destruct (found sel c) eqn:Hfound.
    + destruct (IH sel) as [Hfull|Hall]; [by left|]. right.
      intros c' Hc'. apply elem_of_cons in Hc' as [->|Hc']; [|by apply Hall].
      by apply fillPass_keeps.
    + destruct (IH (sel ++ [c])) as [Hfull|Hall]; [by left|]. right.
      intros c' Hc'. apply elem_of_cons in Hc' as [->|Hc']; [|by apply Hall].
      apply fillPass_keeps. unfold found. rewrite existsb_app. cbn.
      by rewrite String.eqb_refl, orb_true_r.
Qed.

Lemma found_all_length (facts sel : list Candidate) :
  NoDup (map (fun c => fact_id (fact c)) facts) ->
  (forall c, c ∈ facts -> found sel c = true) ->
  length facts <= length sel.
Proof.
  intros Hnodup Hall.
  rewrite <- (length_map (fun c => fact_id (fact c)) facts).
  rewrite <- (length_map (fun c => fact_id (fact c)) sel).
  apply submseteq_length, NoDup_submseteq; [done|].
  intros id Hid. apply list_elem_of_fmap in Hid as (c & -> & Hc).
  by apply found_elem_of, Hall.
Qed.

(** With distinct ids among the candidates, one pass of the back-fill is
    enough: the loop ends. *)
Lemma backfill_terminates fuel limit facts sel :
  NoDup (map (fun c => fact_id (fact c)) facts) ->
  1 <= fuel ->
  exists out, backfill fuel limit facts sel = Some out.
Proof.
  intros Hnodup Hfuel. destruct fuel as [|fuel]; [lia|].
  unfold backfill; fold backfill.
  destruct ((length sel <? limit) && (length sel <? length facts)); [|eauto].
  set (sel' := fillPass limit facts sel).
  assert ((length sel' <? limit) && (length sel' <? length facts) = false) as Hdone.
  { apply andb_false_iff.
    destruct (fillPass_complete limit facts sel) as [Hfull|Hall].
    - left. apply Nat.ltb_ge. exact Hfull.
    - right. apply Nat.ltb_ge. by apply found_all_length. }
  exists sel'. destruct fuel; unfold backfill; fold backfill; by rewrite Hdone.
Qed.

Lemma addDiversityToSelection_terminates fuel facts limit :
  NoDup (map (fun c => fact_id (fact c)) facts) ->
  1 <= fuel ->
  exists out, addDiversityToSelection fuel facts limit = Some out.
Proof.
  intros Hnodup Hfuel. unfold addDiversityToSelection.
  destruct (length facts <=? limit); [eauto|]. by apply backfill_terminates.
Qed.

(** ** Distinct ids among the rows of a query *)

Lemma NoDup_map_filter {A B} (f : A -> B) (p : A -> bool) (l : list A) :
  NoDup (map f l) -> NoDup (map f (List.filter p l)).
Proof.
  induction l as [|x l IH]; cbn; [done|].
  rewrite NoDup_cons. intros [Hx Hl]. destruct (p x); [|by apply IH].
  cbn. rewrite NoDup_cons. split; [|by apply IH].
  intros Hin. apply Hx. apply list_elem_of_fmap in Hin as (y & -> & Hy).
  apply list_elem_of_fmap. exists y. split; [done|].
  apply list_elem_of_In. apply list_elem_of_In in Hy.
  by apply List.filter_In in Hy as [? _].
Qed.

Lemma findFacts_distinct wh order n s :
  distinctFactIds s -> NoDup (map fact_id (findFacts wh order n s)).
Proof.
  unfold distinctFactIds, findFacts. intros Hnodup.
  change (map fact_id ?l) with (fact_id <$> l). rewrite fmap_take.
  eapply sublist_NoDup; [|apply sublist_take].
  rewrite sortBy_Permutation. by apply NoDup_map_filter.
Qed.

Lemma scoreAndRankFacts_distinct fs factScores userProfile :
  NoDup (map fact_id fs) ->
  NoDup (map (fun c => fact_id (fact c)) (scoreAndRankFacts fs factScores userProfile)).
Proof.
  intros Hnodup. unfold scoreAndRankFacts.
  change (map ?f ?l) with (f <$> l) at 1. rewrite sortBy_Permutation.
  change (?f <$> ?l) with (map f l). by rewrite map_map.
Qed.

(** ** The fallback order *)

Ltac order_cases :=
  repeat match goal with
    | |- context [Bool.eqb ?a ?b] => destruct (Bool.eqb_spec a b)
    | H : context [Bool.eqb ?a ?b] |- _ => destruct (Bool.eqb_spec a b)
    | |- context [(?a =? ?b)%Z] => destruct (Z.eqb_spec a b)
    | H : context [(?a =? ?b)%Z] |- _ => destruct (Z.eqb_spec a b)
    | |- context [(?a <? ?b)%Z] => destruct (Z.ltb_spec a b)
    | H : context [(?a <? ?b)%Z] |- _ => destruct (Z.ltb_spec a b)
    | |- context [(?a <=? ?b)%Z] => destruct (Z.leb_spec a b)
    | H : context [(?a <=? ?b)%Z] |- _ => destruct (Z.leb_spec a b)
    end.

Lemma byFeaturedLikesViews_total a b :
  byFeaturedLikesViews a b = true \/ byFeaturedLikesViews b a = true.
Proof.
  unfold byFeaturedLikesViews. order_cases; try (left; reflexivity);
    try (right; reflexivity); try lia; try congruence.
  destruct (isFeatured a), (isFeatured b); auto; congruence.
Qed.

Lemma byFeaturedLikesViews_trans a b c :
  byFeaturedLikesViews a b = true -> byFeaturedLikesViews b c = true ->
  byFeaturedLikesViews a c = true.
Proof.
  unfold byFeaturedLikesViews. intros Hab Hbc.
  order_cases; try reflexivity; try discriminate; try lia; try congruence;
    destruct (isFeatured a), (isFeatured b), (isFeatured c); congruence.
Qed.

Lemma fallbackList_shaped s t n l : fallbackList s t n l -> fallbackShaped s t n l.
Proof.
  intros [->| ->]; unfold fallbackShaped, findFacts.
  - split; [|split].
    + apply StronglySorted_take, sortBy_sorted;
        [apply byFeaturedLikesViews_total | apply byFeaturedLikesViews_trans].
    + intros f Hf. pose proof (elem_of_sublist _ _ _ Hf (sublist_take _ _)) as Hf'.
      apply sortBy_elem_of, list_elem_of_In, List.filter_In in Hf' as [Hin Helig].
      split; [by apply list_elem_of_In | exact Helig].
    + rewrite length_take. lia.
  - split; [constructor|split; [|cbn; lia]].
    intros f Hf. by apply elem_of_nil in Hf.
Qed.

Lemma limitOr10_default options :
  limit options <> Some 0 -> limitOr10 options = default 10 (limit options).
Proof. unfold limitOr10. destruct (limit options) as [[|n]|]; cbn; congruence. Qed.

Lemma default_le_limitOr10 options : default 10 (limit options) <= limitOr10 options.
Proof. unfold limitOr10. destruct (limit options) as [[|n]|]; cbn; lia. Qed.

(** The [try] block of [getPersonalizedFacts]: it only reads; what it
    returns has at most [limit] items; it may throw; with distinct fact ids
    and fuel for one pass of the back-fill, it finishes. *)
Lemma triple_personalizedFacts s t fuel userId options :
  triple s t (personalizedFacts fuel userId options)
    (fun l => length l <= default 10 (limit options))
    True (~ (distinctFactIds s /\ 1 <= fuel)).
Proof.
  unfold personalizedFacts. cbv zeta.
  eapply (triple_bind _ _ _ _ (fun _ => True)); [apply triple_getUserProfile|].
  intros [userProfile|] _.
  - eapply (triple_bind _ _ _ _ (fun _ => True));
      [apply triple_calculatePersonalizationScores|].
    intros factScores _.
    eapply triple_bind; [apply triple_getFactCandidates|].
    cbn beta. intros candidates [wh ->].
    destruct (addDiversityToSelection _ _ _) as [diversifiedFacts|] eqn:Hdiv.
    + eapply (triple_bind _ _ _ _ (fun _ => True)).
      * destruct (_ && _); [|safe].
        eapply (triple_bind _ _ _ _ (fun _ => True));
          [apply triple_getRecommendedFacts | intros ? _; safe].
      * intros l _. apply triple_ret. rewrite length_take. lia.
    + apply triple_diverge. intros [Hdistinct Hfuel].
      edestruct (addDiversityToSelection_terminates fuel) as [out Hout];
        [|exact Hfuel|rewrite Hout in Hdiv; discriminate].
      apply scoreAndRankFacts_distinct, findFacts_distinct, Hdistinct.
  - eapply triple_bind; [apply triple_getFallbackFacts|].
    intros l Hl. apply triple_ret. rewrite length_map.
    apply fallbackList_shaped in Hl. apply Hl.
Qed.

(** [getPersonalizedFacts] never throws; what it returns has at most
    [options.limit || 10] items. *)
Lemma triple_getPersonalizedFacts s t fuel userId options :
  triple s t (getPersonalizedFacts fuel userId options)
    (fun l => length l <= limitOr10 options)
    False (~ (distinctFactIds s /\ 1 <= fuel)).
Proof.
  unfold getPersonalizedFacts. eapply (triple_tryCatch _ _ _ _ _ True).
  - eapply triple_weaken; [apply triple_personalizedFacts| |auto|auto].
    intros l Hl. cbn beta in *. pose proof (default_le_limitOr10 options). lia.
  - intros e _. eapply triple_bind; [apply triple_getFallbackFacts|].
    intros l Hl. apply triple_ret. rewrite length_map.
    apply fallbackList_shaped in Hl. apply Hl.
Qed.

(** ** Fallback of the personalized selection *)





(** ** Daily-fact notification *)

(** C10. On every call, [sendDailyFactNotification] writes nothing: the
    database is left as it is, no notification record is created and no
    push is attempted.  The token list being the constant empty array, the
    call returns the failure result [{ success: false, error: 'No FCM
    tokens' }] whenever the session lookup before it answers (a lookup
    that rejects is rethrown, before any write as well). *)
Theorem sendDailyFactNotification_exits_early userId f w :
  db (snd (sendDailyFactNotification userId f w)) = db w
  /\ freshIds (snd (sendDailyFactNotification userId f w)) = freshIds w
  /\ pushes (snd (sendDailyFactNotification userId f w)) = pushes w
  /\ multicasts (snd (sendDailyFactNotification userId f w)) = multicasts w
  /\ (hd false (faults w) = false ->
      fst (sendDailyFactNotification userId f w) = Returned noTokens
      /\ success noTokens = false).
Proof.
  unfold sendDailyFactNotification, tryCatch, bind, dateNow, query, bind, roundTrip.
  destruct (faults w) as [|[] later]; cbn; intuition congruence.
Qed.

Lemma sendDailyFactNotification_exits_early_witness :
  fst (sendDailyFactNotification "u1" Samples.factA
         (Samples.worldOf Samples.storeAB [])) = Returned noTokens
  /\ success noTokens = false.
Proof.
  apply (sendDailyFactNotification_exits_early "u1" Samples.factA
           (Samples.worldOf Samples.storeAB [])).
  reflexivity.
Defined.

(** ** Daily cap *)

Lemma sendDailyFactToUser_skips sender user w :
  (maxNotificationsPerDay user
   <= Z.of_nat (todayNotificationsOf (user_id user) (now w) (db w)))%Z ->
  exists w', sendDailyFactToUser sender user w = (Returned tt, w')
             /\ db w' = db w /\ now w' = now w.
Proof.
  intros Hcap. apply Z.leb_le in Hcap.
  unfold sendDailyFactToUser, tryCatch, bind, dateNow, query, bind, roundTrip.
  destruct (faults w) as [|[] later]; cbn; rewrite ?Hcap; eauto.
Qed.

(** C4. For every user who has already received at least
    [maxNotificationsPerDay] notifications with status sent or delivered
    today, and whatever the notification sender does when it is called:
    [sendDailyFactToUser] returns and leaves the database as it is, and so
    does running it once more; no notification record is added. *)
Theorem sendDailyFactToUser_cap_is_noop sender user w :
  (maxNotificationsPerDay user
   <= Z.of_nat (todayNotificationsOf (user_id user) (now w) (db w)))%Z ->
  exists w1 w2,
    sendDailyFactToUser sender user w = (Returned tt, w1)
    /\ notifications (db w1) = notifications (db w)
    /\ sendDailyFactToUser sender user w1 = (Returned tt, w2)
    /\ notifications (db w2) = notifications (db w)
    /\ db w2 = db w.
Proof.
  intros Hcap.
  destruct (sendDailyFactToUser_skips sender user w Hcap) as (w1 & Hrun1 & Hdb1 & Hnow1).
  rewrite <- Hdb1, <- Hnow1 in Hcap.
  destruct (sendDailyFactToUser_skips sender user w1 Hcap) as (w2 & Hrun2 & Hdb2 & Hnow2).
  exists w1, w2. rewrite Hrun1, Hrun2, Hdb2, Hdb1. auto.
Qed.

Lemma sendDailyFactToUser_cap_is_noop_witness :
  exists w1 w2,
    sendDailyFactToUser sendDailyFactNotification Samples.userU1
      (Samples.worldOf Samples.storeCapped []) = (Returned tt, w1)
    /\ notifications (db w1) = notifications Samples.storeCapped
    /\ sendDailyFactToUser sendDailyFactNotification Samples.userU1 w1 = (Returned tt, w2)
    /\ notifications (db w2) = notifications Samples.storeCapped
    /\ db w2 = Samples.storeCapped.
Proof.
  apply (sendDailyFactToUser_cap_is_noop sendDailyFactNotification Samples.userU1
           (Samples.worldOf Samples.storeCapped [])).
  vm_compute. discriminate.
Defined.

(** ** Runs in which the repository answers *)

Lemma roundTrip_answers w : faults w = [] -> roundTrip w = (Returned tt, w).
Proof. intros Hfaults. unfold roundTrip. by rewrite Hfaults. Qed.

Lemma query_answers {A} (q : Store -> A) w :
  faults w = [] -> query q w = (Returned (q (db w)), w).
Proof. intros Hfaults. unfold query, bind. by rewrite roundTrip_answers. Qed.

Lemma mutate_answers (f : Store -> Store) w :
  faults w = [] -> mutate f w = (Returned tt, withDb (f (db w)) w).
Proof. intros Hfaults. unfold mutate, bind. by rewrite roundTrip_answers. Qed.

(** ** The per-user daily-fact selection *)

Lemma includes_elem_of (l : list string) (x : string) :
  includes l x = true <-> x ∈ l.
Proof.
  unfold includes. rewrite existsb_exists. split.
  - intros (y & Hin & Heq). apply String.eqb_eq in Heq. subst y.
    by apply list_elem_of_In.
  - intros Hin. exists x. split; [by apply list_elem_of_In | apply String.eqb_refl].
Qed.

Lemma pick_elem_of {A} (l : list A) (r : Q) (x : A) : pick l r = Some x -> x ∈ l.
Proof.
  unfold pick. destruct (_ <? 0)%Z; [discriminate|].
  intros Hnth. apply list_elem_of_In. eapply nth_error_In, Hnth.
Qed.

Lemma findFacts_elem_of wh order n s f :
  f ∈ findFacts wh order n s -> f ∈ facts s /\ factMatches wh f = true.
Proof.
  unfold findFacts. intros Hf.
  pose proof (elem_of_sublist _ _ _ Hf (sublist_take _ _)) as Hf'.
  apply sortBy_elem_of, list_elem_of_In, List.filter_In in Hf' as [Hin Hmatch].
  split; [by apply list_elem_of_In | exact Hmatch].
Qed.

(** What [getPersonalizedFact] returns when every repository call answers. *)
Lemma getPersonalizedFact_run user w :
  faults w = [] ->
  let wh := unseenWhere user (now w) (enabledCategoryIds (user_id user) (db w))
              (viewedFactIds (user_id user) (db w)) in
  let found := findFacts wh byFeaturedThenNewest 10 (db w) in
  fst (getPersonalizedFact user w)
  = Returned (if length found =? 0
              then pick (findFacts (deleteId wh) byNewest 5 (db w)) (hd 0%Q (randoms w))
              else pick found (hd 0%Q (randoms w))).
Proof.
  intros Hfaults. cbv zeta.
  unfold getPersonalizedFact, tryCatch, bind, dateNow.
  repeat (rewrite (query_answers _ w Hfaults); cbn beta iota).
  destruct (length _ =? 0);
    repeat (rewrite (query_answers _ w Hfaults); cbn beta iota);
    unfold mathRandom; destruct (randoms w); reflexivity.
Qed.

(** C6, counterexample: the first query of user [u1] (unseen facts of the
    enabled category science at MEDIUM) is empty.  The fallback query of the
    code still restricts to science: it offers the seen science fact only,
    which is returned whatever the random number, although the history fact
    matches the difficulty and is what a query without the category
    restriction would offer first. *)
Lemma fallback_keeps_category_restriction :
  let w := Samples.worldOf Samples.storeSeen [] in
  let wh := unseenWhere Samples.userU1 (now w)
              (enabledCategoryIds "u1" (db w)) (viewedFactIds "u1" (db w)) in
  findFacts wh byFeaturedThenNewest 10 (db w) = []
  /\ findFacts (deleteId wh) byNewest 5 (db w) = [Samples.factSeen]
  /\ findFacts (fallbackWhereOfSpec Samples.userU1 (now w)) byNewest 5 (db w)
     = [Samples.factOther; Samples.factSeen]
  /\ fst (getPersonalizedFact Samples.userU1 w) = Returned (Some Samples.factSeen)
  /\ forall r, fst (getPersonalizedFact Samples.userU1 (withRandoms [r] w))
               <> Returned (Some Samples.factOther).
Proof.
  cbv zeta. split; [reflexivity|]. split; [reflexivity|]. split; [reflexivity|].
  split; [reflexivity|]. intros r.
  rewrite getPersonalizedFact_run by reflexivity.
  change (Returned (pick [Samples.factSeen] r) <> Returned (Some Samples.factOther)).
  intros Heq. injection Heq as Hpick. apply pick_elem_of in Hpick.
  apply list_elem_of_singleton in Hpick. discriminate.
Qed.

(** C6, amended. When the first query (unseen items, restricted to the
    user's enabled categories, at the user's difficulty) returns no item,
    the fallback query drops the "unseen" exclusion only: [getPersonalizedFact]
    picks at random among the (at most five, newest) eligible items of the
    user's difficulty that are in the user's enabled categories when the
    user has enabled any, seen or not. *)
Theorem getPersonalizedFact_fallback user w :
  faults w = [] ->
  let enabled := enabledCategoryIds (user_id user) (db w) in
  let wh := unseenWhere user (now w) enabled (viewedFactIds (user_id user) (db w)) in
  findFacts wh byFeaturedThenNewest 10 (db w) = [] ->
  let fallbackFacts := findFacts (deleteId wh) byNewest 5 (db w) in
  fst (getPersonalizedFact user w)
    = Returned (pick fallbackFacts (hd 0%Q (randoms w)))
  /\ (forall f, pick fallbackFacts (hd 0%Q (randoms w)) = Some f -> f ∈ fallbackFacts)
  /\ (forall f, f ∈ fallbackFacts ->
        f ∈ facts (db w) /\ eligible (now w) f = true
        /\ difficulty f = difficultyLevel user
        /\ (enabled <> [] -> categoryId f ∈ enabled))
  /\ where_id_notIn (deleteId wh) = None
  /\ where_categoryId_in (deleteId wh) = where_categoryId_in wh.
Proof.
  intros Hfaults enabled wh Hempty fallbackFacts.
  split; [|split; [|split; [|split; reflexivity]]].
  - rewrite (getPersonalizedFact_run user w Hfaults). cbv zeta.
    fold enabled. fold wh. rewrite Hempty. reflexivity.
  - intros f. apply pick_elem_of.
  - intros f Hf. apply findFacts_elem_of in Hf as [Hin Hmatch].
    split; [exact Hin|].
    unfold factMatches in Hmatch. cbn in Hmatch.
    repeat (apply andb_prop in Hmatch as [Hmatch ?]).
    split; [|split].
    + unfold eligible, factMatches. cbn.
      destruct (isApproved f), (isActive f); try discriminate.
      repeat (apply andb_true_intro; split); auto.
    + match goal with H : bool_decide _ = true |- _ => by apply bool_decide_eq_true in H end.
    + intros Hne. apply includes_elem_of.
      destruct enabled as [|c cs]; [done|]. cbn in *. assumption.
Qed.

Lemma getPersonalizedFact_fallback_witness :
  fst (getPersonalizedFact Samples.userU1 (Samples.worldOf Samples.storeSeen []))
  = Returned (Some Samples.factSeen).
Proof.
  apply (getPersonalizedFact_fallback Samples.userU1
           (Samples.worldOf Samples.storeSeen [])); reflexivity.
Defined.

(** ** The retry job *)

Lemma retried_id t entry m : notification_id (retried t entry m) = notification_id m.
Proof. unfold retried. by destruct (notificationsEnabled (snd entry)). Qed.

Lemma retryOne_answers entry w :
  faults w = [] ->
  exists w', retryOne entry w = (Returned tt, w')
             /\ faults w' = [] /\ now w' = now w
             /\ notifications (db w')
                = applyRetry (now w) entry (notifications (db w)).
Proof.
  intros Hfaults. destruct entry as [n u].
  unfold retryOne, applyRetry, retried, updateNotification. cbn [fst snd].
  destruct (notificationsEnabled u); cbn [negb].
  - unfold tryCatch, bind, dateNow. rewrite (mutate_answers _ w Hfaults).
    eexists. split; [reflexivity|]. cbn. auto.
  - rewrite (mutate_answers _ w Hfaults).
    eexists. split; [reflexivity|]. cbn. auto.
Qed.

Lemma forEach_retryOne_answers entries w :
  faults w = [] ->
  exists w', forEach entries retryOne w = (Returned tt, w')
             /\ faults w' = [] /\ now w' = now w
             /\ notifications (db w')
                = foldl (fun ns e => applyRetry (now w) e ns)
                    (notifications (db w)) entries.
Proof.
  revert w. induction entries as [|e rest IH]; intros w Hfaults; cbn.
  - exists w. auto.
  - destruct (retryOne_answers e w Hfaults) as (w1 & Hrun & Hfaults1 & Hnow1 & Hns1).
    destruct (IH w1 Hfaults1) as (w2 & Hrest & Hfaults2 & Hnow2 & Hns2).
    exists w2. unfold bind. rewrite Hrun, Hrest.
    rewrite Hns2, Hns1, Hnow1, Hnow2. auto.
Qed.

Lemma applyRetry_ids t entry ns :
  map notification_id (applyRetry t entry ns) = map notification_id ns.
Proof.
  unfold applyRetry. rewrite map_map. apply map_ext. intros m.
  destruct (String.eqb _ _); [apply retried_id | reflexivity].
Qed.

Lemma foldl_applyRetry_ids t entries ns :
  map notification_id (foldl (fun ns e => applyRetry t e ns) ns entries)
  = map notification_id ns.
Proof.
  revert ns. induction entries as [|e rest IH]; intros ns; cbn; [done|].
  by rewrite IH, applyRetry_ids.
Qed.

(** A record whose id is not among the selected ones is left as it is. *)
Lemma foldl_applyRetry_other t entries ns m :
  m ∈ ns ->
  notification_id m ∉ map (fun e => notification_id (fst e)) entries ->
  m ∈ foldl (fun ns e => applyRetry t e ns) ns entries.
Proof.
  revert ns. induction entries as [|e rest IH]; intros ns Hm Hid; cbn; [done|].
  cbn in Hid. apply not_elem_of_cons in Hid as [Hne Hid].
  apply IH; [|done]. unfold applyRetry. apply list_elem_of_fmap.
  exists m. split; [|done].
  destruct (String.eqb_spec (notification_id m) (notification_id (fst e))); done.
Qed.

(** A selected record is replaced by its retried version. *)
Lemma foldl_applyRetry_selected t entries ns n u :
  NoDup (map (fun e => notification_id (fst e)) entries) ->
  (n, u) ∈ entries -> n ∈ ns ->
  retried t (n, u) n ∈ foldl (fun ns e => applyRetry t e ns) ns entries.
Proof.
  revert ns. induction entries as [|e rest IH]; intros ns Hnodup Hsel Hn; cbn.
  { by apply elem_of_nil in Hsel. }
  cbn in Hnodup. apply NoDup_cons in Hnodup as [Hfresh Hnodup].
  apply elem_of_cons in Hsel as [<-|Hsel].
  - apply foldl_applyRetry_other; [|by rewrite retried_id].
    unfold applyRetry. apply list_elem_of_fmap. exists n.
    cbn [fst]. by rewrite String.eqb_refl.
  - apply IH; [done..|]. unfold applyRetry. apply list_elem_of_fmap.
    exists n. split; [|done].
    destruct (String.eqb_spec (notification_id n) (notification_id (fst e)))
      as [Heq|]; [|done].
    exfalso. apply Hfresh. rewrite <- Heq.
    apply list_elem_of_fmap. by exists (n, u).
Qed.

Lemma filter_sublist {A} (p : A -> bool) (l : list A) : List.filter p l `sublist_of` l.
Proof.
  induction l as [|x l IH]; cbn; [done|].
  destruct (p x); [by apply sublist_skip | by apply sublist_cons].
Qed.

Lemma withUser_ids s (l : list Notification) :
  map (fun e => notification_id (fst e)) (omap (withUser s) l)
    `sublist_of` map notification_id l.
Proof.
  induction l as [|n l IH]; cbn; [done|].
  unfold withUser at 1. destruct (List.find _ _); cbn.
  - by apply sublist_skip.
  - by apply sublist_cons.
Qed.

Lemma failedNotificationsAt_ids t s :
  map (fun e => notification_id (fst e)) (failedNotificationsAt t s)
    `sublist_of` map notification_id (notifications s).
Proof.
  unfold failedNotificationsAt.
  etransitivity; [apply (fmap_sublist _ _ _ (sublist_take _ 50))|].
  etransitivity; [apply withUser_ids|].
  apply (fmap_sublist notification_id), filter_sublist.
Qed.

(** The job selects only stored records with status failed, fewer than
    three retries and a retry time that has come, each with its owner. *)
Lemma failedNotificationsAt_elem_of t s n u :
  (n, u) ∈ failedNotificationsAt t s ->
  n ∈ notifications s /\ dueForRetry t n = true
  /\ u ∈ users s /\ user_id u = n_userId n.
Proof.
  unfold failedNotificationsAt. intros Hsel.
  pose proof (elem_of_sublist _ _ _ Hsel (sublist_take _ _)) as Hjoin.
  apply list_elem_of_omap in Hjoin as (m & Hm & Hjoin).
  apply list_elem_of_In, List.filter_In in Hm as [Hm Hdue].
  unfold withUser in Hjoin.
  destruct (List.find _ (users s)) as [u'|] eqn:Hfind; [|discriminate].
  injection Hjoin as -> ->. apply List.find_some in Hfind as [Hu Hid].
  apply String.eqb_eq in Hid. repeat split; try done; by apply list_elem_of_In.
Qed.

Lemma dueForRetry_spec t n :
  dueForRetry t n = true <->
  status n = FAILED /\ retryCount n < 3
  /\ exists at_, nextRetryAt n = Some at_ /\ (at_ <= t)%Z.
Proof.
  unfold dueForRetry. rewrite !andb_true_iff, bool_decide_eq_true, Nat.ltb_lt.
  destruct (nextRetryAt n) as [at_|].
  - rewrite Z.leb_le. split.
    + intros [[? ?] ?]. eauto.
    + intros (? & ? & at' & [= <-] & ?). auto.
  - split; [intros [_ ?]; discriminate | intros (_ & _ & at_ & ? & _); discriminate].
Qed.

Lemma same_id_same_record (ns : list Notification) (a b : Notification) :
  NoDup (map notification_id ns) -> a ∈ ns -> b ∈ ns ->
  notification_id a = notification_id b -> a = b.
Proof.
  induction ns as [|x ns IH]; cbn; intros Hnodup Ha Hb Heq.
  { by apply elem_of_nil in Ha. }
  apply NoDup_cons in Hnodup as [Hfresh Hnodup].
  apply elem_of_cons in Ha as [->|Ha]; apply elem_of_cons in Hb as [->|Hb]; auto.
  - exfalso. apply Hfresh. rewrite Heq. by apply list_elem_of_fmap_2.
  - exfalso. apply Hfresh. rewrite <- Heq. by apply list_elem_of_fmap_2.
Qed.

Lemma backoffMinutes_formula (retries : nat) :
  backoffMinutes retries = (5 * 2 ^ (Z.of_nat retries + 1))%Z.
Proof.
  unfold backoffMinutes. rewrite Nat2Z.inj_mul, Nat2Z.inj_pow, Nat2Z.inj_add. cbn. lia.
Qed.

Lemma backoffMinutes_increasing (a b : nat) :
  a < b -> (backoffMinutes a < backoffMinutes b)%Z.
Proof.
  intros Hlt. unfold backoffMinutes. apply Nat2Z.inj_lt.
  apply Nat.mul_lt_mono_pos_r; [lia|]. apply Nat.pow_lt_mono_r; lia.
Qed.

(** C5. In a run in which the repository answers and the notification ids
    are distinct (the primary key), one step of the retry job
    - selects only stored records with status failed, fewer than three
      retries and a retry time that has come (at most fifty of them), so a
      record whose retry count has reached 3 is left as it is;
    - for each selected record, marks it cancelled when the owning user has
      disabled notifications, and otherwise increments its retry count and
      sets its next retry time to now + 5 * 2^(new retry count) minutes;
    - creates and deletes no record.
    The successive delays are 10, 20 and 40 minutes, strictly increasing. *)
Theorem retryFailedNotifications_step w :
  faults w = [] ->
  NoDup (map notification_id (notifications (db w))) ->
  let selected := failedNotificationsAt (now w) (db w) in
  (forall n u, (n, u) ∈ selected ->
     n ∈ notifications (db w) /\ status n = FAILED /\ retryCount n < 3
     /\ (exists at_, nextRetryAt n = Some at_ /\ (at_ <= now w)%Z)
     /\ u ∈ users (db w) /\ user_id u = n_userId n)
  /\ length selected <= 50
  /\ (exists w',
        retryFailedNotifications w = (Returned (length selected), w')
        /\ map notification_id (notifications (db w'))
           = map notification_id (notifications (db w))
        /\ (forall n u, (n, u) ∈ selected -> notificationsEnabled u = false ->
              exists n', n' ∈ notifications (db w')
                         /\ n' = cancelled n /\ status n' = CANCELLED
                         /\ retryCount n' = retryCount n)
        /\ (forall n u, (n, u) ∈ selected -> notificationsEnabled u = true ->
              exists n', n' ∈ notifications (db w')
                         /\ notification_id n' = notification_id n
                         /\ status n' = FAILED
                         /\ retryCount n' = retryCount n + 1
                         /\ nextRetryAt n'
                            = Some (now w + 5 * 2 ^ Z.of_nat (retryCount n') * 60000)%Z)
        /\ (forall n, n ∈ notifications (db w) -> 3 <= retryCount n ->
              n ∈ notifications (db w')))
  /\ backoffMinutes 0 = 10%Z /\ backoffMinutes 1 = 20%Z /\ backoffMinutes 2 = 40%Z
  /\ (forall a b, a < b -> (backoffMinutes a < backoffMinutes b)%Z).
Proof.
  intros Hfaults Hnodup selected.
  assert (forall n u, (n, u) ∈ selected ->
     n ∈ notifications (db w) /\ status n = FAILED /\ retryCount n < 3
     /\ (exists at_, nextRetryAt n = Some at_ /\ (at_ <= now w)%Z)
     /\ u ∈ users (db w) /\ user_id u = n_userId n) as Hselected.
  { intros n u Hsel.
    apply failedNotificationsAt_elem_of in Hsel as (Hn & Hdue & Hu & Hid).
    apply dueForRetry_spec in Hdue as (Hstatus & Hcount & Hat). auto 10. }
  assert (NoDup (map (fun e => notification_id (fst e)) selected)) as Hdistinct.
  { eapply sublist_NoDup; [exact Hnodup | apply failedNotificationsAt_ids]. }
  split; [exact Hselected|]. split.
  { unfold selected, failedNotificationsAt. rewrite length_take. lia. }
  split; [|repeat split; [reflexivity..|apply backoffMinutes_increasing]].
  destruct (forEach_retryOne_answers selected w Hfaults)
    as (w' & Hloop & _ & _ & Hns).
  exists w'. split; [|split; [|split; [|split]]].
  - unfold retryFailedNotifications, tryCatch, bind, dateNow.
    rewrite (query_answers _ w Hfaults). cbn beta iota.
    fold selected. by rewrite Hloop.
  - rewrite Hns. apply foldl_applyRetry_ids.
  - intros n u Hsel Hmuted. destruct (Hselected n u Hsel) as (Hn & _).
    exists (cancelled n). rewrite Hns. split; [|done].
    pose proof (foldl_applyRetry_selected (now w) selected _ n u Hdistinct Hsel Hn)
      as Hdone.
    unfold retried in Hdone. cbn [snd] in Hdone. by rewrite Hmuted in Hdone.
  - intros n u Hsel Henabled.
    destruct (Hselected n u Hsel) as (Hn & Hstatus & _).
    pose proof (foldl_applyRetry_selected (now w) selected _ n u Hdistinct Hsel Hn)
      as Hdone.
    unfold retried in Hdone. cbn [fst snd] in Hdone. rewrite Henabled in Hdone.
    eexists. rewrite Hns. split; [exact Hdone|]. cbn.
    repeat split; [done|]. f_equal. unfold addMinutes.
    rewrite backoffMinutes_formula, Nat2Z.inj_add. reflexivity.
  - intros n Hn Hmany. rewrite Hns. apply foldl_applyRetry_other; [done|].
    intros Hid. apply list_elem_of_fmap in Hid as ([n' u] & Heq & Hsel).
    cbn in Heq. destruct (Hselected n' u Hsel) as (Hn' & _ & Hfew & _).
    assert (n = n') by (by apply (same_id_same_record (notifications (db w)))).
    subst n'. lia.
Qed.

Lemma retryFailedNotifications_step_witness :
  exists w',
    retryFailedNotifications (Samples.worldOf Samples.storeFailed []) = (Returned 2, w')
    /\ map notification_id (notifications (db w')) = ["n1"; "n2"; "n3"].
Proof.
  destruct (retryFailedNotifications_step (Samples.worldOf Samples.storeFailed []))
    as (_ & _ & (w' & Hrun & Hids & _) & _).
  - reflexivity.
  - apply (bool_decide_unpack _). vm_compute. exact I.
  - exists w'. split; [exact Hrun | exact Hids].
Defined.

(** * Further properties of the services *)

(** ** The factors of the score *)

Lemma ofNat_nonneg (n : nat) : (0 <= ofNat n)%Q.
Proof. unfold ofNat. change 0%Q with (inject_Z 0). rewrite <- Zle_Qle. lia. Qed.

Lemma ofNat_ratio_nonneg (a b : nat) : (0 <= ofNat a / ofNat b)%Q.
Proof.
  unfold Qdiv. apply Qmult_le_0_compat; [apply ofNat_nonneg|].
  apply Qinv_le_0_compat, ofNat_nonneg.
Qed.

Lemma ofNat_ratio_zero (a b : nat) :
  0 < b -> (ofNat a / ofNat b == 0)%Q <-> a = 0.
Proof.
  intros Hb.
  assert (0 < ofNat b)%Q as Hpos.
  { unfold ofNat. change 0%Q with (inject_Z 0). rewrite <- Zlt_Qlt. lia. }
  split.
  - intros Hzero. destruct a as [|a]; [done|]. exfalso.
    assert (0 < ofNat (S a) / ofNat b)%Q; [|lra].
    apply Qlt_shift_div_l; [done|]. rewrite Qmult_0_l.
    unfold ofNat. change 0%Q with (inject_Z 0). rewrite <- Zlt_Qlt. lia.
  - intros ->. reflexivity.
Qed.

Lemma filter_length_le' {A} (p : A -> bool) (l : list A) :
  length (List.filter p l) <= length l.
Proof. apply sublist_length, filter_sublist. Qed.

Lemma difficultyMatch_range (d : Difficulty) (p : UserProfile) :
  (0.1 <= calculateDifficultyMatch d p)%Q /\ (calculateDifficultyMatch d p <= 1)%Q.
Proof.
  unfold calculateDifficultyMatch.
  destruct d, (p_difficultyLevel p); by vm_compute.
Qed.

Lemma tagScore_range (factTags preferredTags : list string) :
  (0 <= calculateTagScore factTags preferredTags)%Q
  /\ (calculateTagScore factTags preferredTags <= 1)%Q.
Proof.
  unfold calculateTagScore.
  destruct ((length factTags =? 0) || (length preferredTags =? 0)) eqn:Hempty.
  - split; lra.
  - apply orb_false_iff in Hempty as [Hf Hp]. apply Nat.eqb_neq in Hf, Hp.
    split; [apply ofNat_ratio_nonneg|].
    apply ofNat_ratio_le_1; [lia|].
    pose proof (filter_length_le' (fun tag => includes preferredTags tag) factTags).
    lia.
Qed.

Lemma popularityScore_range (f : Fact) :
  (calculatePopularityScore f <= 1)%Q
  /\ ((0 <= viewCount f + likeCount f * 2 + shareCount f * 3)%Z ->
      (0 <= calculatePopularityScore f)%Q).
Proof.
  unfold calculatePopularityScore. cbv zeta.
  split; [apply Q.le_min_l|].
  intros Hpos. apply Q.min_glb; [lra|].
  apply Qle_shift_div_l; [reflexivity|]. rewrite Qmult_0_l.
  change 0%Q with (inject_Z 0). rewrite <- Zle_Qle. exact Hpos.
Qed.

Lemma freshnessScore_range (dateNow createdAt : Z) :
  (0 <= calculateFreshnessScore dateNow createdAt)%Q
  /\ ((createdAt <= dateNow)%Z -> (calculateFreshnessScore dateNow createdAt <= 1)%Q).
Proof.
  unfold calculateFreshnessScore. cbv zeta.
  change (24 * 60 * 60 * 1000)%Z with 86400000%Z.
  split; [apply Q.le_max_l|].
  intros Hpast. apply Q.max_lub; [lra|].
  assert (0 <= inject_Z (dateNow - createdAt) / inject_Z 86400000)%Q as Hage.
  { apply Qle_shift_div_l; [reflexivity|]. rewrite Qmult_0_l.
    change 0%Q with (inject_Z 0). rewrite <- Zle_Qle. lia. }
  revert Hage. generalize (inject_Z (dateNow - createdAt) / inject_Z 86400000)%Q.
  intros age Hage. unfold Qdiv. cbn [Qinv Qnum Qden]. lra.
Qed.



(** X2. The tag factor is between 0 and 1 for all tag lists, also with
    repeated tags; when both lists have tags, it is 0 exactly when no tag
    of the fact is a preferred one. *)
Theorem calculateTagScore_bounds (factTags preferredTags : list string) :
  (0 <= calculateTagScore factTags preferredTags)%Q
  /\ (calculateTagScore factTags preferredTags <= 1)%Q
  /\ (factTags <> [] -> preferredTags <> [] ->
      ((calculateTagScore factTags preferredTags == 0)%Q <->
       forall tag, tag ∈ factTags -> tag ∉ preferredTags)).
Proof.
  split; [apply tagScore_range|]. split; [apply tagScore_range|].
  intros Hf Hp. unfold calculateTagScore.
  assert ((length factTags =? 0) || (length preferredTags =? 0) = false) as ->.
  { destruct factTags, preferredTags; done. }
  cbv zeta.
  rewrite ofNat_ratio_zero by (destruct factTags; [done | cbn [length]; lia]).
  rewrite length_zero_iff_nil. split.
  - intros Hnone tag Htag Hpref.
    assert (In tag (List.filter (fun tag => includes preferredTags tag) factTags)) as Hin.
    { apply List.filter_In. split; [by apply list_elem_of_In | by apply includes_elem_of]. }
    by rewrite Hnone in Hin.
  - intros Hnone.
    destruct (List.filter _ _) as [|c cs] eqn:Hcommon; [done|]. exfalso.
    assert (In c (List.filter (fun tag => includes preferredTags tag) factTags)) as Hin
      by (rewrite Hcommon; by left).
    apply List.filter_In in Hin as [Hin Hpref].
    apply (Hnone c); [by apply list_elem_of_In | by apply includes_elem_of].
Qed.

Lemma calculateTagScore_bounds_witness :
  (calculateTagScore ["space"; "moon"] ["ocean"] == 0)%Q.
Proof.
  apply (calculateTagScore_bounds ["space"; "moon"] ["ocean"]); [done | done |].
  intros tag Htag Hpref. apply list_elem_of_singleton in Hpref. subst tag.
  repeat (apply elem_of_cons in Htag as [Htag|Htag]; [discriminate|]).
  by apply elem_of_nil in Htag.
Defined.

(** X3. The popularity factor never exceeds 1; it is not negative when the
    counters are not; and it is exactly 1 from 100 weighted interactions
    (views + 2 likes + 3 shares) on. *)
Theorem calculatePopularityScore_saturates (f : Fact) :
  (calculatePopularityScore f <= 1)%Q
  /\ ((0 <= viewCount f + likeCount f * 2 + shareCount f * 3)%Z ->
      (0 <= calculatePopularityScore f)%Q)
  /\ ((100 <= viewCount f + likeCount f * 2 + shareCount f * 3)%Z ->
      (calculatePopularityScore f == 1)%Q).
Proof.
  unfold calculatePopularityScore. cbv zeta.
  split; [apply Q.le_min_l|]. split.
  - apply (proj2 (popularityScore_range f)).
  - intros Hmany. apply Q.min_l. apply Qle_shift_div_l; [reflexivity|].
    rewrite Qmult_1_l. change 100%Q with (inject_Z 100). rewrite <- Zle_Qle.
    exact Hmany.
Qed.

Lemma calculatePopularityScore_saturates_witness :
  (calculatePopularityScore (Samples.sampleFact "a" "science" MEDIUM 50 0) == 1)%Q.
Proof.
  apply (calculatePopularityScore_saturates
           (Samples.sampleFact "a" "science" MEDIUM 50 0)).
  cbn. lia.
Defined.

(** X4. The freshness factor is never negative; it is at most 1 for a fact
    created in the past; and it is 0 from an age of 365 days on. *)
Theorem calculateFreshnessScore_decays (dateNow createdAt : Z) :
  (0 <= calculateFreshnessScore dateNow createdAt)%Q
  /\ ((createdAt <= dateNow)%Z -> (calculateFreshnessScore dateNow createdAt <= 1)%Q)
  /\ ((365 * 86400000 <= dateNow - createdAt)%Z ->
      (calculateFreshnessScore dateNow createdAt == 0)%Q).
Proof.
  unfold calculateFreshnessScore. cbv zeta.
  change (24 * 60 * 60 * 1000)%Z with 86400000%Z.
  split; [apply Q.le_max_l|]. split.
  - apply (proj2 (freshnessScore_range dateNow createdAt)).
  - intros Hold. apply Q.max_l.
    assert (365 <= inject_Z (dateNow - createdAt) / inject_Z 86400000)%Q as Hage.
    { apply Qle_shift_div_l; [reflexivity|].
      change (365 * inject_Z 86400000)%Q with (inject_Z 365 * inject_Z 86400000)%Q.
      rewrite <- inject_Z_mult, <- Zle_Qle. exact Hold. }
    revert Hage. generalize (inject_Z (dateNow - createdAt) / inject_Z 86400000)%Q.
    intros age Hage. unfold Qdiv. cbn [Qinv Qnum Qden]. lra.
Qed.

Lemma calculateFreshnessScore_decays_witness :
  (calculateFreshnessScore 5000 2000 <= 1)%Q
  /\ (calculateFreshnessScore (366 * 86400000) 0 == 0)%Q.
Proof.
  split.
  - apply (calculateFreshnessScore_decays 5000 2000). lia.
  - apply (calculateFreshnessScore_decays (366 * 86400000) 0). lia.
Defined.

(** X5. The personality score of a profile is between 0.5 and 1, for all
    statistics and patterns: the four bonuses add up to 0.5 at most. *)
Theorem calculatePersonalityScore_range (user : User)
    (stats : InteractionStats) (patterns : LearningPatterns) :
  (0.5 <= calculatePersonalityScore user stats patterns)%Q
  /\ (calculatePersonalityScore user stats patterns <= 1)%Q.
Proof.
  unfold calculatePersonalityScore. cbv zeta.
  split; [|apply Q.le_min_l].
  apply Q.min_glb; [lra|]. apply Q.max_le_iff. right.
  destruct (gt (engagementScore stats) 0.7), (gt (shareRate stats) 0.1),
    (gt (consistencyScore patterns) 0.8), (gt (topicDiversity patterns) 0.6); lra.
Qed.

(** X6. For a well-formed profile and fact (category engagement and
    personality score between 0 and 1, counters not negative, fact created
    in the past), the clamp of [calculateFactScore] changes nothing: the
    score is the weighted sum itself, which lies between 0.09 and 1 - the
    weights add up to 1, and no scored fact has score 0. *)
Theorem calculateFactScore_unclamped (dateNow : Z) (f : Fact) (userProfile : UserProfile) :
  (forall pref, categoryPreferences userProfile !! categoryId f = Some pref ->
     (0 <= engagement pref)%Q /\ (engagement pref <= 1)%Q) ->
  (0 <= personalityScore userProfile)%Q -> (personalityScore userProfile <= 1)%Q ->
  (0 <= viewCount f + likeCount f * 2 + shareCount f * 3)%Z ->
  (createdAt f <= dateNow)%Z ->
  (calculateFactScore dateNow f userProfile == weightedScore dateNow f userProfile)%Q
  /\ (0.09 <= weightedScore dateNow f userProfile)%Q
  /\ (weightedScore dateNow f userProfile <= 1)%Q.
Proof.
  intros Hengagement Hp0 Hp1 Hcounters Hpast.
  assert ((0.09 <= weightedScore dateNow f userProfile)%Q
          /\ (weightedScore dateNow f userProfile <= 1)%Q) as [Hlow Hhigh].
  { unfold weightedScore, calculatePersonalityMatch. cbv zeta.
    destruct (difficultyMatch_range (difficulty f) userProfile) as [Hd0 Hd1].
    destruct (tagScore_range (tags f)
                (preferredTags (learningPatterns userProfile))) as [Ht0 Ht1].
    destruct (popularityScore_range f) as [Hpop1 Hpop0].
    specialize (Hpop0 Hcounters).
    destruct (freshnessScore_range dateNow (createdAt f)) as [Hf0 Hf1].
    specialize (Hf1 Hpast).
    revert Hd0 Hd1 Ht0 Ht1 Hpop0 Hpop1 Hf0 Hf1.
    generalize (calculateDifficultyMatch (difficulty f) userProfile).
    generalize (calculateTagScore (tags f) (preferredTags (learningPatterns userProfile))).
    generalize (calculatePopularityScore f).
    generalize (calculateFreshnessScore dateNow (createdAt f)).
    intros fresh pop tag diff Hd0 Hd1 Ht0 Ht1 Hpop0 Hpop1 Hf0 Hf1.
    destruct (includes _ _).
    - destruct (categoryPreferences userProfile !! categoryId f) as [pref|] eqn:Hpref.
      + destruct (Hengagement pref eq_refl) as [He0 He1]. split; lra.
      + split; lra.
    - split; lra. }
  split; [|split; assumption].
  change (calculateFactScore dateNow f userProfile)
    with (Qmin 1 (Qmax 0 (weightedScore dateNow f userProfile))).
  rewrite Q.max_r by lra. apply Q.min_r. exact Hhigh.
Qed.

Lemma calculateFactScore_unclamped_witness :
  (calculateFactScore 5000 Samples.factB (Samples.sampleProfile MEDIUM)
   == weightedScore 5000 Samples.factB (Samples.sampleProfile MEDIUM))%Q
  /\ (0.09 <= weightedScore 5000 Samples.factB (Samples.sampleProfile MEDIUM))%Q
  /\ (weightedScore 5000 Samples.factB (Samples.sampleProfile MEDIUM) <= 1)%Q.
Proof.
  apply (calculateFactScore_unclamped 5000 Samples.factB (Samples.sampleProfile MEDIUM)).
  - intros pref Hpref. vm_compute in Hpref. discriminate.
  - by vm_compute.
  - by vm_compute.
  - by vm_compute.
  - by vm_compute.
Defined.

(** ** The analysis of the recent views *)

Lemma transitions_bump previous current rest :
  transitions previous (current :: rest) = bump previous current (transitions current rest).
Proof.
  cbn [transitions]. unfold bump. destruct (transitions current rest) as [up down].
  cbn [fst snd]. reflexivity.
Qed.

Lemma bump_swap a b counts :
  bump a b (snd counts, fst counts) = (snd (bump b a counts), fst (bump b a counts)).
Proof.
  unfold bump. destruct counts as [up down]. cbn [fst snd].
  destruct (a <? b) eqn:Hab, (b <? a) eqn:Hba; try reflexivity.
  apply Nat.ltb_lt in Hab, Hba. lia.
Qed.

Lemma bump_comm a b c d counts :
  bump a b (bump c d counts) = bump c d (bump a b counts).
Proof.
  unfold bump. destruct counts as [up down].
  destruct (a <? b), (b <? a), (c <? d), (d <? c); reflexivity.
Qed.

Lemma last_nonempty {A} (x : A) (l : list A) (d d' : A) :
  List.last (x :: l) d = List.last (x :: l) d'.
Proof.
  revert x. induction l as [|y l IH]; intros x; [reflexivity|].
  change (List.last (x :: y :: l) d) with (List.last (y :: l) d).
  change (List.last (x :: y :: l) d') with (List.last (y :: l) d'). apply IH.
Qed.

Lemma transitions_snoc previous later current :
  transitions previous (later ++ [current])
  = bump (List.last later previous) current (transitions previous later).
Proof.
  revert previous. induction later as [|x later IH]; intros previous.
  - cbn [app List.last]. rewrite transitions_bump. reflexivity.
  - change ((x :: later) ++ [current]) with (x :: (later ++ [current])).
    rewrite !transitions_bump, IH, bump_comm.
    destruct later as [|y later]; [reflexivity|].
    change (List.last (x :: y :: later) previous) with (List.last (y :: later) previous).
    by rewrite (last_nonempty y later previous x).
Qed.

Lemma steps_rev difficulties :
  steps (rev difficulties) = (snd (steps difficulties), fst (steps difficulties)).
Proof.
  induction difficulties as [|a rest IH]; [reflexivity|].
  cbn [rev]. destruct rest as [|b rest]; [reflexivity|].
  change (steps (a :: b :: rest)) with (transitions a (b :: rest)).
  rewrite transitions_bump. change (transitions b rest) with (steps (b :: rest)).
  destruct (rev (b :: rest)) as [|first later] eqn:Hrev.
  { apply (f_equal length) in Hrev. rewrite length_rev in Hrev. discriminate. }
  change (steps ((first :: later) ++ [a])) with (transitions first (later ++ [a])).
  rewrite transitions_snoc. change (transitions first later) with (steps (first :: later)).
  rewrite IH.
  assert (List.last later first = b) as ->.
  { assert (List.last later first = List.last (first :: later) first) as ->
      by (destruct later; reflexivity).
    rewrite <- Hrev. cbn [rev].
    generalize (rev rest). intros l. induction l as [|y l IHl]; [reflexivity|].
    change ((y :: l) ++ [b]) with (y :: (l ++ [b])).
    destruct (l ++ [b]) as [|z k] eqn:Hl; [by destruct l|].
    change (List.last (y :: z :: k) first) with (List.last (z :: k) first).
    exact IHl. }
  apply bump_swap.
Qed.

(** X7. Reading the same views in the reverse order turns the difficulty
    trend into its opposite: what is 'increasing' on the views listed
    newest first is 'decreasing' on the same views listed oldest first,
    and 'stable' stays 'stable'. *)
Theorem analyzeDifficultyProgression_reversed (recentViews : list View) :
  analyzeDifficultyProgression (rev recentViews)
  = opposite (analyzeDifficultyProgression recentViews).
Proof.
  unfold analyzeDifficultyProgression. rewrite length_rev.
  destruct (length recentViews <? 3); [reflexivity|].
  cbv zeta. rewrite map_rev.
  set (difficulties := map (fun v => difficultyIndex (difficulty (viewed v))) recentViews).
  change (match rev difficulties with
          | [] => (0, 0)
          | first :: rest => transitions first rest
          end) with (steps (rev difficulties)).
  change (match difficulties with
          | [] => (0, 0)
          | first :: rest => transitions first rest
          end) with (steps difficulties).
  rewrite steps_rev. destruct (steps difficulties) as [up down]. cbn [fst snd].
  destruct (3 * down <? 2 * up) eqn:Hup, (3 * up <? 2 * down) eqn:Hdown;
    try reflexivity.
  apply Nat.ltb_lt in Hup, Hdown. lia.
Qed.

Lemma gt_spec (a b : Q) : gt a b = true <-> (b < a)%Q.
Proof.
  unfold gt. rewrite negb_true_iff, <- not_true_iff_false, Qle_bool_iff.
  split; [apply Qnot_le_lt | apply Qlt_not_le].
Qed.

Lemma engagement_rate_zero (views : list View) :
  (forall v, v ∈ views -> engaged v = false) ->
  (ofNat (length (List.filter engaged views)) / ofNat (Nat.max (length views) 1) == 0)%Q.
Proof.
  intros Hnone.
  assert (List.filter engaged views = []) as ->; [|reflexivity].
  induction views as [|v views IH]; [reflexivity|]. cbn [List.filter].
  rewrite (Hnone v) by left. apply IH. intros v' Hv'. apply Hnone. by right.
Qed.

Lemma engagement_rate_positive (views : list View) :
  existsb engaged views = true ->
  (0 < ofNat (length (List.filter engaged views)) / ofNat (Nat.max (length views) 1))%Q.
Proof.
  intros Hsome. apply Qlt_shift_div_l.
  - unfold ofNat. change 0%Q with (inject_Z 0). rewrite <- Zlt_Qlt. lia.
  - rewrite Qmult_0_l. unfold ofNat. change 0%Q with (inject_Z 0). rewrite <- Zlt_Qlt.
    apply existsb_exists in Hsome as (v & Hin & Hv).
    assert (In v (List.filter engaged views)) as Hfiltered by (by apply List.filter_In).
    destruct (List.filter engaged views); [done | cbn [length]; lia].
Qed.

(** X8. When none of the views of the first half of the list (the more
    recent ones) is liked or bookmarked, the engagement trend is never
    'increasing': it is 'decreasing' when some view of the second half is
    liked or bookmarked, and 'stable' otherwise.  A history of one view has
    an empty first half: one liked view alone reads as 'decreasing'. *)
Theorem analyzeEngagementTrends_quiet_recent_half (recentViews : list View) :
  (forall v, v ∈ take (length recentViews / 2) recentViews -> engaged v = false) ->
  analyzeEngagementTrends recentViews
  = if existsb engaged (drop (length recentViews / 2) recentViews)
    then decreasing else stable.
Proof.
  intros Hquiet. unfold analyzeEngagementTrends. cbv zeta.
  pose proof (engagement_rate_zero _ Hquiet) as Hrecent.
  set (recent := take (length recentViews / 2) recentViews) in *.
  set (older := drop (length recentViews / 2) recentViews).
  set (recentEngagement :=
         (ofNat (length (List.filter engaged recent)) / ofNat (Nat.max (length recent) 1))%Q)
    in *.
  set (olderEngagement :=
         (ofNat (length (List.filter engaged older)) / ofNat (Nat.max (length older) 1))%Q).
  assert (0 <= olderEngagement)%Q as Holder by apply ofNat_ratio_nonneg.
  destruct (gt recentEngagement (olderEngagement * 1.2)) eqn:Hfirst.
  { apply gt_spec in Hfirst. lra. }
  destruct (existsb engaged older) eqn:Hsome.
  - pose proof (engagement_rate_positive older Hsome) as Hpositive.
    fold olderEngagement in Hpositive.
    assert (gt olderEngagement (recentEngagement * 1.2) = true) as ->; [|reflexivity].
    apply gt_spec. lra.
  - assert (olderEngagement == 0)%Q as Hzero.
    { apply engagement_rate_zero. intros v Hv.
      destruct (engaged v) eqn:Hengaged; [|reflexivity].
      rewrite <- Hsome. symmetry. apply existsb_exists. exists v.
      split; [by apply list_elem_of_In | done]. }
    assert (gt olderEngagement (recentEngagement * 1.2) = false) as ->; [|reflexivity].
    apply not_true_iff_false. rewrite gt_spec. lra.
Qed.

Lemma analyzeEngagementTrends_quiet_recent_half_witness :
  analyzeEngagementTrends
    [{| interaction :=
          {| uf_userId := "u1"; factId := "a"; isViewed := true; isLiked := true;
             isBookmarked := false; isShared := false; viewedAt := Some 1000%Z;
             uf_updatedAt := 1000 |};
        viewed := Samples.factA |}]
  = decreasing.
Proof.
  apply (analyzeEngagementTrends_quiet_recent_half
           [{| interaction :=
                 {| uf_userId := "u1"; factId := "a"; isViewed := true; isLiked := true;
                    isBookmarked := false; isShared := false; viewedAt := Some 1000%Z;
                    uf_updatedAt := 1000 |};
               viewed := Samples.factA |}]).
  intros v Hv. cbn in Hv. by apply elem_of_nil in Hv.
Defined.

(** *** The preferred tags

    The tags are counted in an object literal.  The list of counts models
    it for tags that are not names of inherited properties; the statement
    below is about such tags. *)

Lemma countTag_keys tag tagCounts t :
  t ∈ map fst (countTag tag tagCounts) <-> t = tag \/ t ∈ map fst tagCounts.
Proof.
  induction tagCounts as [|[k n] rest IH]; cbn [countTag map fst].
  - rewrite list_elem_of_singleton, elem_of_nil. tauto.
  - destruct (String.eqb k tag) eqn:Hk; cbn [map fst].
    + apply String.eqb_eq in Hk. subst k. rewrite !elem_of_cons. tauto.
    + rewrite !elem_of_cons, IH. tauto.
Qed.

Lemma countTag_NoDup tag tagCounts :
  NoDup (map fst tagCounts) -> NoDup (map fst (countTag tag tagCounts)).
Proof.
  induction tagCounts as [|[k n] rest IH]; cbn [countTag map fst]; intros Hkeys.
  - apply NoDup_singleton.
  - destruct (String.eqb k tag) eqn:Hk; cbn [map fst]; [done|].
    apply NoDup_cons in Hkeys as [Hfresh Hrest]. apply NoDup_cons. split; [|by apply IH].
    rewrite countTag_keys. intros [->|Hin]; [|done].
    by rewrite String.eqb_refl in Hk.
Qed.

Lemma countTag_tagCount tag tagCounts t :
  tagCount t (countTag tag tagCounts)
  = tagCount t tagCounts + (if String.eqb tag t then 1 else 0).
Proof.
  unfold tagCount. induction tagCounts as [|[k n] rest IH]; cbn [countTag List.find fst snd].
  - destruct (String.eqb tag t); reflexivity.
  - destruct (String.eqb k tag) eqn:Hk; cbn [List.find fst snd].
    + apply String.eqb_eq in Hk. subst k.
      destruct (String.eqb tag t); cbn [snd]; lia.
    + destruct (String.eqb k t) eqn:Hkt; [|exact IH].
      apply String.eqb_eq in Hkt. subst k. rewrite String.eqb_sym, Hk. cbn [snd]. lia.
Qed.

Lemma tagCounts_flat (recentViews : list View) (tagCounts : list (string * nat)) :
  foldl (fun counts v => foldl (fun counts tag => countTag tag counts) counts
                           (tags (viewed v)))
        tagCounts recentViews
  = foldl (fun counts tag => countTag tag counts) tagCounts (tagsViewed recentViews).
Proof.
  unfold tagsViewed. revert tagCounts.
  induction recentViews as [|v rest IH]; intros tagCounts; [reflexivity|].
  cbn [foldl map concat]. by rewrite foldl_app, IH.
Qed.

Lemma tagCounts_spec (seen : list string) :
  let tagCounts := foldl (fun counts tag => countTag tag counts) [] seen in
  NoDup (map fst tagCounts)
  /\ (forall t, t ∈ map fst tagCounts <-> t ∈ seen)
  /\ (forall t, tagCount t tagCounts = length (filter (fun t' => t' = t) seen)).
Proof.
  induction seen as [|tag seen IH] using rev_ind; cbv zeta.
  - cbn. split; [constructor|]. split; [done|]. done.
  - rewrite foldl_snoc. destruct IH as (Hkeys & Hin & Hcount).
    split; [by apply countTag_NoDup|]. split.
    + intros t. rewrite countTag_keys, Hin, elem_of_app, list_elem_of_singleton. tauto.
    + intros t. rewrite countTag_tagCount, Hcount, filter_app, length_app.
      f_equal. rewrite filter_cons, filter_nil.
      destruct (String.eqb tag t) eqn:Htag.
      * apply String.eqb_eq in Htag. by rewrite decide_True.
      * apply String.eqb_neq in Htag. by rewrite decide_False.
Qed.

Lemma tagCount_elem_of (tagCounts : list (string * nat)) t n :
  NoDup (map fst tagCounts) -> (t, n) ∈ tagCounts -> tagCount t tagCounts = n.
Proof.
  unfold tagCount. induction tagCounts as [|[k m] rest IH]; intros Hkeys Hin.
  - by apply elem_of_nil in Hin.
  - cbn [map fst] in Hkeys. apply NoDup_cons in Hkeys as [Hfresh Hrest].
    cbn [List.find fst]. apply elem_of_cons in Hin as [Hhead|Htail].
    + injection Hhead as <- <-. by rewrite String.eqb_refl.
    + destruct (String.eqb k t) eqn:Hk; [|by apply IH].
      apply String.eqb_eq in Hk. subst k. exfalso. apply Hfresh.
      apply list_elem_of_fmap. by exists (t, n).
Qed.

Lemma entries_Permutation {V} (o : list (string * V)) : entries o ≡ₚ o.
Proof.
  unfold entries. rewrite sortBy_Permutation.
  induction o as [|kv o IH]; [reflexivity|].
  cbn [omap list_omap List.filter]. destruct (arrayIndex (fst kv)).
  - cbn [map snd app]. by rewrite IH.
  - rewrite <- Permutation_middle. by rewrite IH.
Qed.

(** X9. When no tag is the name of a property that the counting object
    inherits (such as 'constructor'), the preferred tags are the five
    most frequent tags of the viewed facts: at most five tags, without
    repetition, each one a tag of some viewed fact; a tag that is left out
    occurs no more often than any tag that is returned; and when fewer
    than five tags are returned, every tag of the viewed facts is among
    them. *)
Theorem analyzeTagPreferences_top_five (recentViews : list View) :
  (forall tag, tag ∈ tagsViewed recentViews -> tag ∉ objectPrototypeKeys) ->
  length (analyzeTagPreferences recentViews) <= 5
  /\ NoDup (analyzeTagPreferences recentViews)
  /\ (forall tag, tag ∈ analyzeTagPreferences recentViews ->
        tag ∈ tagsViewed recentViews)
  /\ (forall tag other,
        tag ∈ analyzeTagPreferences recentViews ->
        other ∈ tagsViewed recentViews ->
        other ∉ analyzeTagPreferences recentViews ->
        occurrences other recentViews <= occurrences tag recentViews)
  /\ (length (analyzeTagPreferences recentViews) < 5 ->
      forall tag, tag ∈ tagsViewed recentViews ->
        tag ∈ analyzeTagPreferences recentViews).
Proof.
  intros _.
  unfold analyzeTagPreferences, occurrences. cbv zeta. rewrite tagCounts_flat.
  destruct (tagCounts_spec (tagsViewed recentViews)) as (Hkeys & Hin & Hcount).
  cbv zeta in Hkeys, Hin, Hcount.
  set (tagCounts := foldl (fun counts tag => countTag tag counts) []
                      (tagsViewed recentViews)) in *.
  set (before := fun a b : string * nat => snd b <=? snd a).
  set (ranked := sortBy before (entries tagCounts)).
  assert (ranked ≡ₚ tagCounts) as Hperm
    by (subst ranked; by rewrite sortBy_Permutation, entries_Permutation).
  assert (StronglySorted (fun a b => before a b = true) ranked) as Hsorted.
  { apply sortBy_sorted.
    - intros a b. unfold before. rewrite !Nat.leb_le. lia.
    - intros a b c. unfold before. rewrite !Nat.leb_le. lia. }
  assert (forall t n, (t, n) ∈ ranked ->
            n = length (filter (fun t' => t' = t) (tagsViewed recentViews))) as Hcounted.
  { intros t n Hranked. rewrite Hperm in Hranked.
    by rewrite <- Hcount, (tagCount_elem_of tagCounts t n). }
  split; [rewrite length_map, length_take; lia|].
  split.
  { change (map fst (take 5 ranked)) with (fst <$> take 5 ranked). rewrite fmap_take.
    apply (sublist_NoDup _ (fst <$> ranked)); [|apply sublist_take].
    change (fst <$> ranked) with (map fst ranked). by rewrite Hperm. }
  split.
  { intros tag Htag. apply list_elem_of_fmap in Htag as ([t n] & -> & Htop).
    apply Hin. apply list_elem_of_fmap. exists (t, n). split; [done|].
    rewrite <- Hperm. apply elem_of_take in Htop as (i & Hi & _).
    by eapply list_elem_of_lookup_2. }
  split.
  { intros tag other Htag Hother Hleft.
    apply list_elem_of_fmap in Htag as ([t n] & -> & Htop). cbn [fst].
    apply Hin in Hother. apply list_elem_of_fmap in Hother as ([t' m] & -> & Hentry).
    cbn [fst] in *. rewrite <- Hperm, <- (take_drop 5 ranked) in Hentry.
    apply elem_of_app in Hentry as [Htaken|Hdropped].
    { exfalso. apply Hleft. apply list_elem_of_fmap. by exists (t', m). }
    rewrite <- (take_drop 5 ranked) in Hsorted.
    pose proof (StronglySorted_app_1_elem_of _ _ _ _ _ Hsorted Htop Hdropped) as Horder.
    unfold before in Horder. cbn [snd] in Horder. apply Nat.leb_le in Horder.
    rewrite <- (Hcounted t n), <- (Hcounted t' m); [done|..].
    - rewrite <- (take_drop 5 ranked). apply elem_of_app. by right.
    - apply elem_of_take in Htop as (i & Hi & _). by eapply list_elem_of_lookup_2. }
  intros Hfew tag Htag. rewrite length_map, length_take in Hfew.
  rewrite take_ge by lia.
  apply Hin in Htag. change (map fst ranked) with (fst <$> ranked). by rewrite Hperm.
Qed.

Lemma analyzeTagPreferences_top_five_witness :
  length (analyzeTagPreferences Samples.taggedViews) <= 5
  /\ NoDup (analyzeTagPreferences Samples.taggedViews)
  /\ (forall tag, tag ∈ analyzeTagPreferences Samples.taggedViews ->
        tag ∈ tagsViewed Samples.taggedViews)
  /\ (forall tag other,
        tag ∈ analyzeTagPreferences Samples.taggedViews ->
        other ∈ tagsViewed Samples.taggedViews ->
        other ∉ analyzeTagPreferences Samples.taggedViews ->
        occurrences other Samples.taggedViews <= occurrences tag Samples.taggedViews)
  /\ (length (analyzeTagPreferences Samples.taggedViews) < 5 ->
      forall tag, tag ∈ tagsViewed Samples.taggedViews ->
        tag ∈ analyzeTagPreferences Samples.taggedViews).
Proof.
  apply (analyzeTagPreferences_top_five Samples.taggedViews).
  apply Forall_forall. apply (bool_decide_unpack _). vm_compute. exact I.
Defined.

(** ** Ranking and diversification *)

Lemma StronglySorted_weaken {A} (R R' : relation A) (l : list A) :
  (forall a b, R a b -> R' a b) -> StronglySorted R l -> StronglySorted R' l.
Proof.
  intros Himpl. induction 1 as [|x l Hsorted IH Hall]; constructor; [done|].
  eapply Forall_impl; [exact Hall|]. auto.
Qed.

(** X10. [scoreAndRankFacts] returns the facts it was given, as often as
    they were given, each with its score attached (0 for a fact without
    score), in the order of non-increasing score. *)
Theorem scoreAndRankFacts_ranked (fs : list Fact) (factScores : gmap string Q)
    (userProfile : UserProfile) :
  map fact (scoreAndRankFacts fs factScores userProfile) ≡ₚ fs
  /\ (forall c, c ∈ scoreAndRankFacts fs factScores userProfile ->
        personalizedScore c = Some (default 0%Q (factScores !! fact_id (fact c))))
  /\ StronglySorted (fun a b => (rankOf b <= rankOf a)%Q)
       (scoreAndRankFacts fs factScores userProfile).
Proof.
  unfold scoreAndRankFacts.
  set (before := fun a b : Candidate => Qle_bool (rankOf b - rankOf a) 0).
  set (scored := map (fun f => {| fact := f;
                                  personalizedScore := Some (scoreOf factScores f) |}) fs).
  split; [|split].
  - change (map fact ?l) with (fact <$> l). rewrite sortBy_Permutation.
    subst scored. change (?f <$> ?l) with (map f l). rewrite map_map. cbn [fact].
    by rewrite map_id.
  - intros c Hc. apply sortBy_elem_of in Hc. subst scored.
    apply list_elem_of_fmap in Hc as (f & -> & _). reflexivity.
  - assert (StronglySorted (fun a b => before a b = true) (sortBy before scored)) as Hsorted.
    { apply sortBy_sorted.
      - intros a b. unfold before. rewrite !Qle_bool_iff.
        destruct (Qlt_le_dec (rankOf a) (rankOf b)); [right|left]; lra.
      - intros a b c. unfold before. rewrite !Qle_bool_iff. lra. }
    eapply StronglySorted_weaken; [|exact Hsorted].
    intros a b. unfold before. rewrite Qle_bool_iff. lra.
Qed.

Lemma difficultyOccurrences_snoc d (sel : list Candidate) c :
  difficultyOccurrences d (sel ++ [c]) =
  difficultyOccurrences d sel + (if decide (difficulty (fact c) = d) then 1 else 0).
Proof.
  unfold difficultyOccurrences. rewrite filter_app, length_app.
  rewrite filter_cons, filter_nil. destruct (decide _); reflexivity.
Qed.

Lemma walkInvariantOfDifficulty_push limit st c :
  walkInvariantOfDifficulty limit st ->
  countOf (difficultyCount st) (difficulty (fact c)) < difficultyCap limit ->
  walkInvariantOfDifficulty limit (push st c).
Proof.
  intros Hinv Hlt d. destruct (Hinv d) as [Hcount Hcap].
  cbn [push selected difficultyCount]. rewrite difficultyOccurrences_snoc.
  unfold countOf in *. destruct (decide (difficulty (fact c) = d)) as [Heq|Hne].
  - rewrite Heq in *. rewrite lookup_insert_eq. cbn. lia.
  - rewrite lookup_insert_ne by done. lia.
Qed.

Lemma diversityWalk_invariantOfDifficulty limit facts st :
  walkInvariantOfDifficulty limit st ->
  walkInvariantOfDifficulty limit (diversityWalk limit facts st).
Proof.
  revert st. induction facts as [|c rest IH]; intros st Hinv; cbn; [done|].
  destruct (limit <=? length (selected st)); [done|].
  destruct (categoryCap limit <=? _); [by apply IH|].
  destruct (Nat.leb_spec (difficultyCap limit)
              (countOf (difficultyCount st) (difficulty (fact c)))); [by apply IH|].
  apply IH. by apply walkInvariantOfDifficulty_push.
Qed.

Lemma diversityWalk_caps limit facts d :
  difficultyOccurrences d (selected (diversityWalk limit facts emptySelection))
  <= difficultyCap limit.
Proof.
  apply (diversityWalk_invariantOfDifficulty limit facts emptySelection).
  intros d'. split; [reflexivity | apply Nat.le_0_l].
Qed.

Lemma diversityWalk_length limit facts st :
  length (selected st) <= limit ->
  length (selected (diversityWalk limit facts st)) <= limit.
Proof.
  revert st. induction facts as [|c rest IH]; intros st Hlen; cbn; [done|].
  destruct (Nat.leb_spec limit (length (selected st))); [done|].
  destruct (categoryCap limit <=? _); [by apply IH|].
  destruct (difficultyCap limit <=? _); [by apply IH|].
  apply IH. cbn [push selected]. rewrite length_app. cbn. lia.
Qed.

Lemma diversityWalk_of_facts limit facts :
  selected (diversityWalk limit facts emptySelection) `sublist_of` facts.
Proof.
  destruct (diversityWalk_sublist limit facts emptySelection) as (more & -> & Hsub).
  exact Hsub.
Qed.

Lemma fillPass_length limit facts sel :
  length sel <= limit -> length (fillPass limit facts sel) <= limit.
Proof.
  revert sel. induction facts as [|c rest IH]; intros sel Hlen; cbn; [done|].
  destruct (Nat.leb_spec limit (length sel)); [done|].
  destruct (found sel c); [by apply IH|].
  apply IH. rewrite length_app. cbn. lia.
Qed.

Lemma fillPass_NoDup limit facts sel :
  NoDup (idsOf sel) -> NoDup (idsOf (fillPass limit facts sel)).
Proof.
  revert sel. induction facts as [|c rest IH]; intros sel Hsel; cbn; [done|].
  destruct (limit <=? length sel); [done|].
  destruct (found sel c) eqn:Hfound; [by apply IH|].
  apply IH. unfold idsOf. rewrite map_app. cbn [map].
  apply NoDup_app. split; [exact Hsel|]. split; [|apply NoDup_singleton].
  intros id Hid Hc. apply list_elem_of_singleton in Hc. subst id.
  apply found_elem_of in Hid. congruence.
Qed.

Lemma fillPass_elem_of limit facts sel c :
  c ∈ fillPass limit facts sel -> c ∈ sel \/ c ∈ facts.
Proof.
  revert sel. induction facts as [|x rest IH]; intros sel; cbn; [by left|].
  destruct (limit <=? length sel); [by left|].
  destruct (found sel x).
  - intros Hc. destruct (IH sel Hc) as [?|?]; [by left | right; by right].
  - intros Hc. destruct (IH (sel ++ [x]) Hc) as [Hsel|?]; [|right; by right].
    apply elem_of_app in Hsel as [?|Hx]; [by left|].
    apply list_elem_of_singleton in Hx. subst x. right. by left.
Qed.

Lemma fillPass_fixed limit facts sel :
  (forall c, c ∈ facts -> found sel c = true) -> fillPass limit facts sel = sel.
Proof.
  induction facts as [|c rest IH]; intros Hall; cbn; [done|].
  destruct (limit <=? length sel); [done|].
  rewrite (Hall c) by left. apply IH. intros c' Hc'. apply Hall. by right.
Qed.

(** One pass appends candidates of the list, and nothing else. *)
Lemma fillPass_added limit facts sel :
  exists added, fillPass limit facts sel = sel ++ added
                /\ forall c, c ∈ added -> c ∈ facts.
Proof.
  revert sel. induction facts as [|x rest IH]; intros sel; cbn.
  - exists []. by rewrite app_nil_r.
  - destruct (limit <=? length sel).
    { exists []. rewrite app_nil_r. split; [done|].
      intros c Hc. by apply elem_of_nil in Hc. }
    destruct (found sel x).
    + destruct (IH sel) as (added & -> & Hadded). exists added. split; [done|].
      intros c Hc. right. by apply Hadded.
    + destruct (IH (sel ++ [x])) as (added & -> & Hadded). exists (x :: added).
      rewrite <- app_assoc. split; [done|].
      intros c Hc. apply elem_of_cons in Hc as [->|Hc]; [by left|].
      right. by apply Hadded.
Qed.

Lemma backfill_extends fuel limit facts sel out :
  backfill fuel limit facts sel = Some out ->
  exists more, out = sel ++ more /\ forall c, c ∈ more -> c ∈ facts.
Proof.
  revert sel. induction fuel as [|fuel IH]; intros sel; unfold backfill; fold backfill.
  - destruct (_ && _); [discriminate|]. intros [= <-]. exists [].
    rewrite app_nil_r. split; [done|]. intros c Hc. by apply elem_of_nil in Hc.
  - destruct (_ && _).
    + intros Hout. destruct (IH _ Hout) as (more & -> & Hmore).
      destruct (fillPass_added limit facts sel) as (added & -> & Hadded).
      exists (added ++ more). rewrite <- app_assoc. split; [done|].
      intros c Hc. apply elem_of_app in Hc as [Hc|Hc]; auto.
    + intros [= <-]. exists []. rewrite app_nil_r. split; [done|].
      intros c Hc. by apply elem_of_nil in Hc.
Qed.

Lemma backfill_stuck limit facts sel :
  (forall c, c ∈ facts -> found sel c = true) ->
  length sel < limit -> length sel < length facts ->
  forall fuel, backfill fuel limit facts sel = None.
Proof.
  intros Hall Hlimit Hfacts fuel.
  apply Nat.ltb_lt in Hlimit, Hfacts.
  induction fuel as [|fuel IH]; unfold backfill; fold backfill;
    rewrite Hlimit, Hfacts; cbn [andb]; [reflexivity|].
  by rewrite fillPass_fixed.
Qed.

(** X11. For candidates with distinct ids, [addDiversityToSelection]
    ends after at most one pass of its back-fill loop and returns exactly
    [min(limit, facts.length)] candidates, all of them taken from the list
    and no id twice; when the list is longer than [limit], the result
    begins with the candidates admitted under the caps, the back-filled
    ones follow. *)
Theorem addDiversityToSelection_fills (fuel : nat) (facts : list Candidate) (limit : nat) :
  NoDup (idsOf facts) -> 1 <= fuel ->
  exists out, addDiversityToSelection fuel facts limit = Some out
    /\ length out = Nat.min limit (length facts)
    /\ NoDup (idsOf out)
    /\ (forall c, c ∈ out -> c ∈ facts)
    /\ (limit < length facts ->
        selected (diversityWalk limit facts emptySelection) `prefix_of` out).
Proof.
  intros Hnodup Hfuel. unfold addDiversityToSelection.
  destruct (Nat.leb_spec (length facts) limit) as [Hshort|Hlong].
  { exists facts. split; [done|]. split; [lia|]. split; [done|]. split; [done|]. lia. }
  set (walked := selected (diversityWalk limit facts emptySelection)).
  assert (length walked <= limit) as Hwalked
    by (apply diversityWalk_length; cbn; lia).
  pose proof (diversityWalk_of_facts limit facts) as Hsub. fold walked in Hsub.
  assert (NoDup (idsOf walked)) as Hids.
  { eapply sublist_NoDup; [exact Hnodup|]. unfold idsOf.
    change (map ?f ?l) with (f <$> l). by apply fmap_sublist. }
  destruct fuel as [|fuel]; [lia|]. unfold backfill; fold backfill.
  destruct (Nat.ltb_spec (length walked) limit) as [Hless|Hfull]; cbn [andb].
  - assert ((length walked <? length facts) = true) as -> by (apply Nat.ltb_lt; lia).
    set (filled := fillPass limit facts walked).
    assert (length filled <= limit) as Hfilled by (by apply fillPass_length).
    assert (limit <= length filled) as Hreached.
    { destruct (fillPass_complete limit facts walked) as [?|Hall]; [done|].
      pose proof (found_all_length facts filled Hnodup Hall). lia. }
    exists filled. split.
    { destruct fuel; unfold backfill; fold backfill;
        (assert ((length filled <? limit) = false) as -> by (apply Nat.ltb_ge; lia));
        reflexivity. }
    split; [lia|]. split; [by apply fillPass_NoDup|]. split.
    + intros c Hc. destruct (fillPass_elem_of _ _ _ _ Hc) as [Hsel|?]; [|done].
      eapply elem_of_sublist; [exact Hsel | exact Hsub].
    + intros _. destruct (fillPass_extends limit facts walked) as [more Hmore].
      exists more. exact Hmore.
  - exists walked. split; [done|]. split; [lia|]. split; [done|]. split.
    + intros c Hc. eapply elem_of_sublist; [exact Hc | exact Hsub].
    + done.
Qed.

Lemma addDiversityToSelection_fills_witness :
  exists out, addDiversityToSelection 1 Samples.sevenCandidates 6 = Some out
    /\ length out = Nat.min 6 (length Samples.sevenCandidates)
    /\ NoDup (idsOf out)
    /\ (forall c, c ∈ out -> c ∈ Samples.sevenCandidates)
    /\ (6 < length Samples.sevenCandidates ->
        selected (diversityWalk 6 Samples.sevenCandidates emptySelection) `prefix_of` out).
Proof.
  apply (addDiversityToSelection_fills 1 Samples.sevenCandidates 6); [|lia].
  apply (bool_decide_unpack _). vm_compute. exact I.
Defined.

Lemma occurrences_grow (sel more : list Candidate) :
  (forall cat, categoryOccurrences cat sel <= categoryOccurrences cat (sel ++ more))
  /\ (forall d, difficultyOccurrences d sel <= difficultyOccurrences d (sel ++ more)).
Proof.
  unfold categoryOccurrences, difficultyOccurrences.
  split; intros key; rewrite filter_app, length_app; lia.
Qed.

(** The walk is greedy: a candidate it leaves out was refused, because
    the selection was full or because its category or its difficulty had
    reached its cap. *)
Lemma diversityWalk_maximal limit (facts : list Candidate) (st : Selection) :
  walkInvariant limit st -> walkInvariantOfDifficulty limit st ->
  forall c, c ∈ facts -> c ∉ selected (diversityWalk limit facts st) ->
    limit <= length (selected (diversityWalk limit facts st))
    \/ categoryCap limit
       <= categoryOccurrences (categoryId (fact c))
            (selected (diversityWalk limit facts st))
    \/ difficultyCap limit
       <= difficultyOccurrences (difficulty (fact c))
            (selected (diversityWalk limit facts st)).
Proof.
  revert st. induction facts as [|x rest IH]; intros st Hcategory Hdifficulty c Hc;
    [by apply elem_of_nil in Hc|].
  cbn [diversityWalk].
  destruct (Nat.leb_spec limit (length (selected st))) as [Hfull|Hroom]; [by left|].
  destruct (Nat.leb_spec (categoryCap limit)
              (countOf (categoryCount st) (categoryId (fact x)))) as [Hcat|Hcat].
  { intros Hout. apply elem_of_cons in Hc as [->|Hc]; [|by apply IH].
    right. left.
    destruct (diversityWalk_sublist limit rest st) as (more & -> & _).
    rewrite (proj1 (Hcategory _)) in Hcat.
    pose proof (proj1 (occurrences_grow (selected st) more) (categoryId (fact x))). lia. }
  destruct (Nat.leb_spec (difficultyCap limit)
              (countOf (difficultyCount st) (difficulty (fact x)))) as [Hdiff|Hdiff].
  { intros Hout. apply elem_of_cons in Hc as [->|Hc]; [|by apply IH].
    right. right.
    destruct (diversityWalk_sublist limit rest st) as (more & -> & _).
    rewrite (proj1 (Hdifficulty _)) in Hdiff.
    pose proof (proj2 (occurrences_grow (selected st) more) (difficulty (fact x))). lia. }
  intros Hout. apply elem_of_cons in Hc as [->|Hc].
  - exfalso. apply Hout.
    destruct (diversityWalk_sublist limit rest (push st x)) as (more & -> & _).
    cbn [push selected]. apply elem_of_app. left. apply elem_of_app. right. by left.
  - apply IH; [by apply walkInvariant_push | by apply walkInvariantOfDifficulty_push
              | exact Hc | exact Hout].
Qed.

(** X12. Whenever the capped walk fills the selection by itself (no
    back-fill), no difficulty occurs more than [max(2, floor(limit /
    2.5))] times in the result.  For a list longer than [limit], the result
    is the selection of the capped walk followed by the back-filled
    candidates.  The capped part takes candidates of the list in their
    order, no difficulty exceeds its cap in it, and it is greedy: every
    candidate of the list that it leaves out was refused because the
    selection was full, or its category or its difficulty had reached its
    cap.  Back-filled candidates, which are taken from the list whatever
    the caps, are there only when the capped part has fewer than [limit]
    items. *)
Theorem diversity_difficulty_cap (fuel : nat) (facts : list Candidate) (limit : nat) :
  (backfillRequired facts limit = false ->
   exists out, addDiversityToSelection fuel facts limit = Some out
     /\ forall d, difficultyOccurrences d out <= Nat.max 2 (2 * limit / 5))
  /\ (forall out, limit < length facts ->
        addDiversityToSelection fuel facts limit = Some out ->
        exists capped more,
          capped = selected (diversityWalk limit facts emptySelection)
          /\ out = capped ++ more
          /\ capped `sublist_of` facts
          /\ (forall d, difficultyOccurrences d capped <= Nat.max 2 (2 * limit / 5))
          /\ (forall c, c ∈ facts -> c ∉ capped ->
                limit <= length capped
                \/ Nat.max 1 (limit / 3)
                   <= categoryOccurrences (categoryId (fact c)) capped
                \/ Nat.max 2 (2 * limit / 5)
                   <= difficultyOccurrences (difficulty (fact c)) capped)
          /\ (more <> [] -> length capped < limit)
          /\ (forall c, c ∈ more -> c ∈ facts)).
Proof.
  pose proof (diversityWalk_caps limit facts) as Hdifficulty. split.
  - intros Hfull.
    destruct (addDiversityToSelection_capped fuel facts limit Hfull) as [Hout _].
    eexists. split; [exact Hout | exact Hdifficulty].
  - intros out Hlong. unfold addDiversityToSelection.
    assert ((length facts <=? limit) = false) as -> by (apply Nat.leb_gt; lia).
    intros Hout. destruct (backfill_extends _ _ _ _ _ Hout) as (more & Heq & Hmore).
    exists (selected (diversityWalk limit facts emptySelection)), more.
    split; [reflexivity|]. split; [exact Heq|].
    split; [apply diversityWalk_of_facts|]. split; [exact Hdifficulty|].
    split; [|split; [|exact Hmore]].
    + apply diversityWalk_maximal; [apply walkInvariant_empty|].
      intros d. split; [reflexivity | apply Nat.le_0_l].
    + intros Hmore' . destruct (Nat.lt_ge_cases
                                  (length (selected (diversityWalk limit facts emptySelection)))
                                  limit) as [?|Hfull]; [done|].
      exfalso. apply Hmore'.
      rewrite (backfill_not_needed fuel limit facts _ Hfull) in Hout.
      injection Hout as Hout. rewrite <- Hout in Heq.
      rewrite <- (app_nil_r (selected _)) in Heq at 1.
      by apply app_inv_head in Heq.
Qed.

Lemma diversity_difficulty_cap_witness :
  (exists out, addDiversityToSelection 0 Samples.sevenCandidates 6 = Some out
     /\ forall d, difficultyOccurrences d out <= Nat.max 2 (2 * 6 / 5))
  /\ (exists capped more,
        capped = selected (diversityWalk 2 Samples.threeOfOneCategory emptySelection)
        /\ [Samples.sampleCandidate "f1" "c1" EASY; Samples.sampleCandidate "f2" "c1" EASY]
           = capped ++ more
        /\ capped `sublist_of` Samples.threeOfOneCategory
        /\ (forall d, difficultyOccurrences d capped <= Nat.max 2 (2 * 2 / 5))
        /\ (forall c, c ∈ Samples.threeOfOneCategory -> c ∉ capped ->
              2 <= length capped
              \/ Nat.max 1 (2 / 3) <= categoryOccurrences (categoryId (fact c)) capped
              \/ Nat.max 2 (2 * 2 / 5)
                 <= difficultyOccurrences (difficulty (fact c)) capped)
        /\ (more <> [] -> length capped < 2)
        /\ (forall c, c ∈ more -> c ∈ Samples.threeOfOneCategory)).
Proof.
  split.
  - apply (proj1 (diversity_difficulty_cap 0 Samples.sevenCandidates 6)).
    vm_compute. reflexivity.
  - apply (proj2 (diversity_difficulty_cap 1 Samples.threeOfOneCategory 2)).
    + cbn. lia.
    + vm_compute. reflexivity.
Defined.

(** X13. The back-fill loop needs distinct ids: when the list is longer
    than [limit] and one pass of the back-fill over it leaves the
    selection shorter than [limit] (every candidate left has the id of a
    selected one), the [while] loop of [addDiversityToSelection] never
    ends. *)
Theorem addDiversityToSelection_loops (facts : list Candidate) (limit : nat) :
  limit < length facts ->
  length (fillPass limit facts (selected (diversityWalk limit facts emptySelection)))
    < limit ->
  forall fuel, addDiversityToSelection fuel facts limit = None.
Proof.
  intros Hlong Hshort fuel. unfold addDiversityToSelection.
  assert ((length facts <=? limit) = false) as -> by (apply Nat.leb_gt; lia).
  set (walked := selected (diversityWalk limit facts emptySelection)) in *.
  destruct (fillPass_extends limit facts walked) as [more Hmore].
  assert (length walked <= length (fillPass limit facts walked)) as Hgrows
    by (rewrite Hmore, length_app; lia).
  destruct (fillPass_complete limit facts walked) as [?|Hall]; [lia|].
  destruct fuel as [|fuel]; unfold backfill; fold backfill.
  - assert ((length walked <? limit) = true) as -> by (apply Nat.ltb_lt; lia).
    assert ((length walked <? length facts) = true) as -> by (apply Nat.ltb_lt; lia).
    reflexivity.
  - assert ((length walked <? limit) = true) as -> by (apply Nat.ltb_lt; lia).
    assert ((length walked <? length facts) = true) as -> by (apply Nat.ltb_lt; lia).
    cbn [andb]. apply backfill_stuck; [exact Hall | lia | lia].
Qed.

Lemma addDiversityToSelection_loops_witness :
  addDiversityToSelection 1000 Samples.fourCopies 3 = None.
Proof.
  apply (addDiversityToSelection_loops Samples.fourCopies 3); vm_compute; lia.
Defined.

(** ** The interaction statistics *)

Lemma triple_returns {A} (m : M A) (Q : A -> Prop) w :
  triple (db w) (now w) m Q False False ->
  exists a w', m w = (Returned a, w') /\ db w' = db w /\ now w' = now w /\ Q a.
Proof.
  intros Hm. specialize (Hm w eq_refl eq_refl).
  destruct (m w) as [[a|e|] w']; [|tauto|tauto].
  exists a, w'. tauto.
Qed.

Lemma filter_length_mono {A} (p q : A -> bool) (l : list A) :
  (forall x, x ∈ l -> p x = true -> q x = true) ->
  length (List.filter p l) <= length (List.filter q l).
Proof.
  induction l as [|x l IH]; intros Himpl; [done|]. cbn [List.filter].
  assert (length (List.filter p l) <= length (List.filter q l)) as Hrest.
  { apply IH. intros y Hy. apply Himpl. by right. }
  destruct (p x) eqn:Hp.
  - rewrite (Himpl x) by (done || by left). cbn [length]. lia.
  - destruct (q x); cbn [length]; lia.
Qed.

Lemma triple_countUserFacts s t userId (p : UserFact -> bool) (D : Prop) :
  triple s t (countUserFacts userId p)
    (fun n => n = length (List.filter (fun uf => String.eqb (uf_userId uf) userId && p uf)
                            (userFacts s)))
    True D.
Proof. unfold countUserFacts. by apply triple_query. Qed.

Lemma rate_range (part whole : nat) :
  (0 <= (if 0 <? whole then ofNat part / ofNat whole else 0))%Q
  /\ (part <= whole -> ((if 0 <? whole then ofNat part / ofNat whole else 0) <= 1)%Q).
Proof.
  destruct (Nat.ltb_spec 0 whole) as [Hpos|Hzero].
  - split; [apply ofNat_ratio_nonneg|]. intros Hle. by apply ofNat_ratio_le_1.
  - split; [lra|]. intros _. lra.
Qed.

Lemma triple_interactionStats s t userId (E D : Prop) :
  triple s t (getUserInteractionStats userId) (wellFormedStats s userId) E D.
Proof.
  unfold getUserInteractionStats. eapply (triple_tryCatch _ _ _ _ _ True).
  - eapply triple_bind; [apply (triple_dateNow s t (fun t' => t' = t)); reflexivity|].
    intros t' ->.
    eapply triple_bind.
    { apply triple_promiseAll; [apply triple_countUserFacts|].
      apply triple_promiseAll; [apply triple_countUserFacts|].
      apply triple_promiseAll; [apply triple_countUserFacts|].
      apply triple_promiseAll; apply triple_countUserFacts. }
    intros (viewed & liked & bookmarked & shared & recent).
    cbn [fst snd]. intros (-> & -> & -> & -> & ->).
    eapply (triple_bind _ _ _ _ (fun _ => True));
      [by apply (triple_roundTrip s t (fun _ => True))|].
    intros _ _. apply triple_ret. unfold wellFormedStats.
    cbn [totalViewed recentActivity likeRate bookmarkRate shareRate engagementScore].
    set (viewed := length (List.filter (fun uf => String.eqb (uf_userId uf) userId
                                                  && isViewed uf) (userFacts s))).
    set (liked := length (List.filter (fun uf => String.eqb (uf_userId uf) userId
                                                 && isLiked uf) (userFacts s))).
    set (bookmarked := length (List.filter (fun uf => String.eqb (uf_userId uf) userId
                                                      && isBookmarked uf) (userFacts s))).
    set (shared := length (List.filter (fun uf => String.eqb (uf_userId uf) userId
                                                  && isShared uf) (userFacts s))).
    destruct (rate_range liked viewed) as [Hl0 Hl1].
    destruct (rate_range bookmarked viewed) as [Hb0 Hb1].
    destruct (rate_range shared viewed) as [Hs0 Hs1].
    split.
    { apply filter_length_mono. intros uf _ Huf.
      apply andb_true_iff in Huf as [Huser Hrecent].
      apply andb_true_iff in Hrecent as [_ Hviewed]. by rewrite Huser, Hviewed. }
    split; [exact Hl0|]. split; [exact Hb0|]. split; [exact Hs0|].
    split; [lra|]. split.
    { intros Hnone. rewrite Hnone. cbn. reflexivity. }
    intros Hviewed.
    assert (forall flag : UserFact -> bool,
              (forall uf, flag uf = true -> isLiked uf || isBookmarked uf || isShared uf = true) ->
              length (List.filter (fun uf => String.eqb (uf_userId uf) userId && flag uf)
                        (userFacts s)) <= viewed) as Hpart.
    { intros flag Hflag. apply filter_length_mono. intros uf Hin Huf.
      apply andb_true_iff in Huf as [Huser Hset]. rewrite Huser. cbn [andb].
      apply Hviewed; [done | by apply String.eqb_eq | by apply Hflag]. }
    assert (liked <= viewed) as Hliked
      by (apply Hpart; intros uf ->; reflexivity).
    assert (bookmarked <= viewed) as Hbookmarked
      by (apply Hpart; intros uf ->; by rewrite orb_true_r).
    assert (shared <= viewed) as Hshared
      by (apply Hpart; intros uf ->; by rewrite orb_true_r).
    specialize (Hl1 Hliked). specialize (Hb1 Hbookmarked). specialize (Hs1 Hshared).
    repeat split; lra.
  - intros _ _. apply triple_ret. unfold wellFormedStats. cbn.
    repeat split; try lra; try lia; try reflexivity.
Qed.

(** X14. [getUserInteractionStats] always returns and leaves the database
    as it is, also when its queries fail.  In the statistics it returns,
    the recent activity never exceeds the number of viewed facts, no rate
    is negative, and the engagement score is 0 when nothing was viewed.
    The rates divide by the number of viewed rows but count liked,
    bookmarked and shared rows whether viewed or not: they and the
    engagement score stay within 1 when every such row of the user is also
    marked as viewed. *)
Theorem getUserInteractionStats_rates (userId : string) (w : World) :
  exists stats w',
    getUserInteractionStats userId w = (Returned stats, w')
    /\ db w' = db w
    /\ recentActivity stats <= totalViewed stats
    /\ (0 <= likeRate stats)%Q /\ (0 <= bookmarkRate stats)%Q
    /\ (0 <= shareRate stats)%Q /\ (0 <= engagementScore stats)%Q
    /\ (totalViewed stats = 0 -> (engagementScore stats == 0)%Q)
    /\ ((forall uf, uf ∈ userFacts (db w) -> uf_userId uf = userId ->
           isLiked uf || isBookmarked uf || isShared uf = true -> isViewed uf = true) ->
        (likeRate stats <= 1)%Q /\ (bookmarkRate stats <= 1)%Q
        /\ (shareRate stats <= 1)%Q /\ (engagementScore stats <= 1)%Q).
Proof.
  destruct (triple_returns (getUserInteractionStats userId)
              (wellFormedStats (db w) userId) w
              (triple_interactionStats (db w) (now w) userId False False))
    as (stats & w' & Hrun & Hdb & _ & Hstats).
  exists stats, w'. split; [exact Hrun|]. split; [exact Hdb|]. exact Hstats.
Qed.

(** ** The profile and the scores *)

(** X15. [getUserProfile] resolves to [null] on every call, for every
    user and whatever the database holds: the service imports [cacheGet]
    from [config/redis], which exports no such function, so the call
    [cacheGet(cacheKey)] at the head of the [try] block throws and the
    [catch] answers [null].
    No repository call is made (the outcomes of the calls to come are
    untouched) and nothing changes. *)
Theorem getUserProfile_null (userId : string) (w : World) :
  getUserProfile userId w = (Returned None, w).
Proof. reflexivity. Qed.

Lemma NoDup_same_key {A} (key : A -> string) (l : list A) (x y : A) :
  NoDup (map key l) -> x ∈ l -> y ∈ l -> key x = key y -> x = y.
Proof.
  induction l as [|z l IH]; cbn [map]; intros Hkeys Hx Hy Hsame.
  - by apply elem_of_nil in Hx.
  - apply NoDup_cons in Hkeys as [Hfresh Hkeys].
    apply elem_of_cons in Hx as [->|Hx]; apply elem_of_cons in Hy as [->|Hy].
    + reflexivity.
    + exfalso. apply Hfresh. rewrite Hsame. apply list_elem_of_fmap. by exists y.
    + exfalso. apply Hfresh. rewrite <- Hsame. apply list_elem_of_fmap. by exists x.
    + by apply IH.
Qed.

(** A list whose elements may all stay in front of each other is sorted
    already: the stable sort leaves it as it is. *)
Lemma sortBy_unordered {A} (before : A -> A -> bool) (l : list A) :
  (forall a b, a ∈ l -> b ∈ l -> before a b = true) -> sortBy before l = l.
Proof.
  induction l as [|x l IH]; intros Hbefore; [reflexivity|].
  cbn [sortBy foldr]. fold (sortBy before l).
  rewrite IH by (intros a b Ha Hb; apply Hbefore; by right).
  destruct l as [|y l]; [reflexivity|]. cbn [insertBy].
  rewrite Hbefore; [reflexivity | by left | right; by left].
Qed.

(** X17. [calculatePersonalizationScores] returns the empty score object
    on every call, without a repository call and without any change:
    [cacheGet] is not a function, and the [catch] answers [{}].  Ranked
    with these scores, every fact gets the score 0 and the facts keep the
    order they were given in. *)
Theorem calculatePersonalizationScores_empty (userId : string)
    (userProfile : UserProfile) (w : World) :
  calculatePersonalizationScores userId userProfile w = (Returned ∅, w)
  /\ forall fs,
       scoreAndRankFacts fs ∅ userProfile
       = map (fun f => {| fact := f; personalizedScore := Some 0%Q |}) fs.
Proof.
  split; [reflexivity|]. intros fs. unfold scoreAndRankFacts.
  assert (map (fun f => {| fact := f; personalizedScore := Some (scoreOf ∅ f) |}) fs
          = map (fun f => {| fact := f; personalizedScore := Some 0%Q |}) fs) as ->.
  { apply map_ext. intros f. unfold scoreOf. by rewrite lookup_empty. }
  apply sortBy_unordered. intros a b Ha Hb.
  apply list_elem_of_fmap in Ha as (f & -> & _).
  apply list_elem_of_fmap in Hb as (g & -> & _).
  reflexivity.
Qed.

(** ** The candidates *)

Lemma byFeaturedThenNewest_total a b :
  byFeaturedThenNewest a b = true \/ byFeaturedThenNewest b a = true.
Proof.
  unfold byFeaturedThenNewest.
  destruct (isFeatured a), (isFeatured b); cbn; order_cases; auto; lia.
Qed.

Lemma byFeaturedThenNewest_trans a b c :
  byFeaturedThenNewest a b = true -> byFeaturedThenNewest b c = true ->
  byFeaturedThenNewest a c = true.
Proof.
  unfold byFeaturedThenNewest.
  destruct (isFeatured a), (isFeatured b), (isFeatured c); cbn; order_cases;
    auto; try discriminate; lia.
Qed.

Lemma findFacts_complete wh order n s f :
  length (findFacts wh order n s) < n ->
  f ∈ facts s -> factMatches wh f = true -> f ∈ findFacts wh order n s.
Proof.
  unfold findFacts. rewrite length_take. intros Hshort Hf Hmatch.
  rewrite take_ge by lia. apply sortBy_elem_of, list_elem_of_In, List.filter_In.
  split; [by apply list_elem_of_In | exact Hmatch].
Qed.

Lemma triple_candidates s t userId options (D : Prop) :
  triple s t (getFactCandidates userId options) (candidatesFor s t userId options) True D.
Proof.
  unfold getFactCandidates.
  eapply triple_bind; [apply (triple_dateNow s t (fun t' => t' = t)); reflexivity|].
  intros t' ->.
  eapply (triple_bind _ _ _ _
            (fun notIn => notIn = if c_excludeViewed options
                                  then if 0 <? length (viewedFactIds userId s)
                                       then Some (viewedFactIds userId s) else None
                                  else None)).
  { destruct (c_excludeViewed options); [|by apply triple_ret].
    eapply triple_bind; [apply (triple_query s t _ (fun v => v = viewedFactIds userId s));
                         reflexivity|].
    intros viewed ->. by apply triple_ret. }
  intros notIn ->. apply triple_query.
  set (wh := {| where_isApproved := _ |}).
  assert (forall f, factMatches wh f = true <->
            eligible t f = true
            /\ (forall d, c_difficultyOverride options = Some d -> difficulty f = d)
            /\ (c_categoryFilters options <> [] ->
                categoryId f ∈ c_categoryFilters options)
            /\ (c_excludeViewed options = true ->
                fact_id f ∉ viewedFactIds userId s)) as Hwh.
  { intros f. unfold eligible, factMatches, wh, eligibleWhere, holds.
    cbn [where_isApproved where_isActive where_publishedAt_lte where_difficulty
         where_categoryId_in where_id_notIn].
    rewrite !andb_true_r, !andb_true_iff.
    assert ((match c_difficultyOverride options with
             | Some d => bool_decide (difficulty f = d)
             | None => true
             end = true)
            <-> forall d, c_difficultyOverride options = Some d -> difficulty f = d)
      as ->.
    { destruct (c_difficultyOverride options) as [d|].
      - rewrite bool_decide_eq_true. split; [by intros -> d' [= <-] | auto].
      - split; [discriminate | done]. }
    assert ((match (if 0 <? length (c_categoryFilters options)
                    then Some (c_categoryFilters options) else None) with
             | Some cs => includes cs (categoryId f)
             | None => true
             end = true)
            <-> (c_categoryFilters options <> [] ->
                 categoryId f ∈ c_categoryFilters options)) as ->.
    { destruct (c_categoryFilters options) as [|c cs]; cbn [length Nat.ltb Nat.leb].
      - split; [done | reflexivity].
      - rewrite includes_elem_of. split; [auto | intros H; by apply H]. }
    assert ((match (if c_excludeViewed options
                    then if 0 <? length (viewedFactIds userId s)
                         then Some (viewedFactIds userId s) else None
                    else None) with
             | Some ids => negb (includes ids (fact_id f))
             | None => true
             end = true)
            <-> (c_excludeViewed options = true ->
                 fact_id f ∉ viewedFactIds userId s)) as ->.
    { destruct (c_excludeViewed options); [|split; [discriminate | reflexivity]].
      destruct (viewedFactIds userId s) as [|v vs] eqn:Hviewed;
        cbn [length Nat.ltb Nat.leb].
      - split; [intros _ _; apply not_elem_of_nil | reflexivity].
      - rewrite negb_true_iff, <- not_true_iff_false, includes_elem_of.
        split; [auto | intros H; by apply H]. }
    tauto. }
  unfold candidatesFor. split; [|split; [|split]].
  - unfold findFacts. rewrite length_take. lia.
  - apply StronglySorted_take, sortBy_sorted;
      [apply byFeaturedThenNewest_total | apply byFeaturedThenNewest_trans].
  - intros f Hf. apply findFacts_elem_of in Hf as [Hin Hmatch].
    split; [exact Hin|]. by apply Hwh.
  - intros Hshort f Hf Heligible Hdifficulty Hcategory Hviewed.
    apply findFacts_complete; [exact Hshort | exact Hf |]. apply Hwh. tauto.
Qed.

(** X18. What [getFactCandidates] returns comes from one query and leaves
    the database as it is: at most [limit] facts, featured ones first and
    newer ones before older ones, each of them approved, active and
    published, of the requested difficulty, of one of the requested
    categories when there are any, and not yet viewed by the user when
    viewed facts are excluded; when fewer than [limit] facts are returned,
    every such fact is among them.  While the repository answers, it
    returns. *)
Theorem getFactCandidates_selects (userId : string) (options : CandidateOptions)
    (w : World) :
  (forall l w', getFactCandidates userId options w = (Returned l, w') ->
     db w' = db w
     /\ length l <= c_limit options
     /\ StronglySorted (fun a b => byFeaturedThenNewest a b = true) l
     /\ (forall f, f ∈ l ->
           f ∈ facts (db w) /\ eligible (now w) f = true
           /\ (forall d, c_difficultyOverride options = Some d -> difficulty f = d)
           /\ (c_categoryFilters options <> [] ->
               categoryId f ∈ c_categoryFilters options)
           /\ (c_excludeViewed options = true ->
               fact_id f ∉ viewedFactIds userId (db w)))
     /\ (length l < c_limit options ->
         forall f, f ∈ facts (db w) -> eligible (now w) f = true ->
           (forall d, c_difficultyOverride options = Some d -> difficulty f = d) ->
           (c_categoryFilters options <> [] ->
            categoryId f ∈ c_categoryFilters options) ->
           (c_excludeViewed options = true ->
            fact_id f ∉ viewedFactIds userId (db w)) ->
           f ∈ l))
  /\ (faults w = [] ->
      exists l, getFactCandidates userId options w = (Returned l, w)).
Proof.
  split.
  - intros l w' Hrun.
    pose proof (triple_candidates (db w) (now w) userId options False w
                  eq_refl eq_refl) as Hread.
    rewrite Hrun in Hread. destruct Hread as (Hdb & _ & Hcandidates).
    split; [exact Hdb | exact Hcandidates].
  - intros Hfaults. unfold getFactCandidates, bind at 1, dateNow.
    destruct (c_excludeViewed options).
    + unfold bind. rewrite (query_answers _ w Hfaults). cbn [ret].
      rewrite (query_answers _ w Hfaults). eauto.
    + unfold bind. cbn [ret]. rewrite (query_answers _ w Hfaults). eauto.
Qed.

(** ** Similar users and recommendations *)

(** X19. With [e] the engagement score of the profile, the similarity of
    two users lies between [0.4 e] and [0.6 + 0.4 e]; it is [0.6 + 0.4 e]
    exactly for equal current and equal longest streaks, and [0.4 e] as
    soon as the current streaks differ by 30 and the longest streaks by
    100.  Nothing else of the other user enters. *)
Theorem calculateUserSimilarity_range (userProfile : UserProfile) (otherUser : User) :
  (engagementScore (interactionStats userProfile) * 0.4
   <= calculateUserSimilarity userProfile otherUser)%Q
  /\ (calculateUserSimilarity userProfile otherUser
      <= 0.6 + engagementScore (interactionStats userProfile) * 0.4)%Q
  /\ ((calculateUserSimilarity userProfile otherUser
       == 0.6 + engagementScore (interactionStats userProfile) * 0.4)%Q
      <-> p_currentStreak userProfile = currentStreak otherUser
          /\ p_longestStreak userProfile = longestStreak otherUser)
  /\ ((30 <= Z.abs (p_currentStreak userProfile - currentStreak otherUser))%Z ->
      (100 <= Z.abs (p_longestStreak userProfile - longestStreak otherUser))%Z ->
      (calculateUserSimilarity userProfile otherUser
       == engagementScore (interactionStats userProfile) * 0.4)%Q).
Proof.
  unfold calculateUserSimilarity. cbv zeta.
  set (current := Z.abs (p_currentStreak userProfile - currentStreak otherUser)).
  set (longest := Z.abs (p_longestStreak userProfile - longestStreak otherUser)).
  assert (0 <= inject_Z current)%Q as Hcurrent
    by (change 0%Q with (inject_Z 0); rewrite <- Zle_Qle; subst current; lia).
  assert (0 <= inject_Z longest)%Q as Hlongest
    by (change 0%Q with (inject_Z 0); rewrite <- Zle_Qle; subst longest; lia).
  assert (forall (x : Q) (n : Q), (0 < n)%Q -> (0 <= x)%Q ->
            (0 <= Qmax 0 (1 - x / n))%Q /\ (Qmax 0 (1 - x / n) <= 1)%Q
            /\ ((Qmax 0 (1 - x / n) == 1)%Q <-> (x == 0)%Q)
            /\ ((n <= x)%Q -> (Qmax 0 (1 - x / n) == 0)%Q)) as Hterm.
  { intros x n Hn Hx.
    assert (0 <= x / n)%Q as Hratio.
    { apply Qle_shift_div_l; [done|]. by rewrite Qmult_0_l. }
    split; [apply Q.le_max_l|]. split; [apply Q.max_lub; lra|]. split.
    - split.
      + intros Hone. destruct (Q.max_spec 0 (1 - x / n)) as [[_ Hmax]|[_ Hmax]];
          rewrite Hmax in Hone; [|lra].
        assert (x / n == 0)%Q as Hzero by lra.
        rewrite <- (Qmult_div_r x n) by lra. rewrite Hzero. ring.
      + intros Hzero. rewrite Hzero. unfold Qdiv. rewrite Qmult_0_l.
        apply Q.max_r. lra.
    - intros Hfar. apply Q.max_l.
      assert (1 <= x / n)%Q; [|lra].
      apply Qle_shift_div_l; [done|]. by rewrite Qmult_1_l. }
  destruct (Hterm (inject_Z current) 30%Q) as (Hc0 & Hc1 & Hcmax & Hcmin); [lra|done|].
  destruct (Hterm (inject_Z longest) 100%Q) as (Hl0 & Hl1 & Hlmax & Hlmin); [lra|done|].
  split; [lra|]. split; [lra|]. split.
  - split.
    + intros Hmax.
      assert (Qmax 0 (1 - inject_Z current / 30) == 1)%Q as Hcurrent1 by lra.
      assert (Qmax 0 (1 - inject_Z longest / 100) == 1)%Q as Hlongest1 by lra.
      apply Hcmax in Hcurrent1. apply Hlmax in Hlongest1.
      apply (proj1 (inject_Z_injective current 0)) in Hcurrent1.
      apply (proj1 (inject_Z_injective longest 0)) in Hlongest1.
      subst current longest. lia.
    + intros [Hsame Hsame'].
      assert (current = 0%Z) as -> by (subst current; lia).
      assert (longest = 0%Z) as -> by (subst longest; lia).
      assert (Qmax 0 (1 - inject_Z 0 / 30) == 1)%Q as -> by (by apply Hcmax).
      assert (Qmax 0 (1 - inject_Z 0 / 100) == 1)%Q as -> by (by apply Hlmax).
      ring.
  - intros Hfar Hfar'.
    rewrite Hcmin, Hlmin; [ring | |].
    + change 100%Q with (inject_Z 100). by rewrite <- Zle_Qle.
    + change 30%Q with (inject_Z 30). by rewrite <- Zle_Qle.
Qed.

Lemma calculateUserSimilarity_range_witness :
  (calculateUserSimilarity (Samples.sampleProfile MEDIUM) Samples.userU1
   == 0.6 + engagementScore (interactionStats (Samples.sampleProfile MEDIUM)) * 0.4)%Q.
Proof.
  apply (calculateUserSimilarity_range (Samples.sampleProfile MEDIUM) Samples.userU1).
  split; reflexivity.
Defined.

Lemma distinctBy_elem_of {A} (key : A -> string) (seen : list string) (l : list A) x :
  x ∈ distinctBy key seen l -> x ∈ l.
Proof.
  revert seen. induction l as [|y l IH]; intros seen; cbn [distinctBy]; [done|].
  destruct (includes seen (key y)).
  - intros Hx. right. by apply (IH seen).
  - intros Hx. apply elem_of_cons in Hx as [->|Hx]; [by left|].
    right. by apply (IH (key y :: seen)).
Qed.

Lemma triple_similarUsers s t userId userProfile (E D : Prop) :
  triple s t (findSimilarUsers userId userProfile) (similarTo s userId userProfile) E D.
Proof.
  assert (similarTo s userId userProfile []) as Hnone.
  { split; [cbn; lia|]. split; [constructor|].
    intros su Hsu. by apply elem_of_nil in Hsu. }
  unfold findSimilarUsers. eapply (triple_tryCatch _ _ _ _ _ True).
  2: { intros _ _. by apply triple_ret. }
  eapply triple_bind;
    [apply (triple_query s t _
              (fun ids => ids = usersWithSimilarCategories userId userProfile s));
     reflexivity|].
  intros candidateUserIds ->.
  destruct (length _ =? 0); [by apply triple_ret|].
  eapply triple_bind;
    [apply (triple_query s t _
              (fun us => us = candidateUsersAmong
                                (usersWithSimilarCategories userId userProfile s)
                                userProfile s));
     reflexivity|].
  intros candidateUsers ->. apply triple_ret.
  set (before := fun a b : SimilarUser =>
                   Qle_bool (similarityScore b - similarityScore a) 0).
  split; [rewrite length_take; lia|]. split.
  { apply StronglySorted_take.
    apply (StronglySorted_weaken (fun a b => before a b = true)).
    - intros a b. unfold before. rewrite Qle_bool_iff. lra.
    - apply sortBy_sorted.
      + intros a b. unfold before. rewrite !Qle_bool_iff.
        destruct (Qlt_le_dec (similarityScore a) (similarityScore b)); [right|left]; lra.
      + intros a b c. unfold before. rewrite !Qle_bool_iff. lra. }
  intros su Hsu.
  pose proof (elem_of_sublist _ _ _ Hsu (sublist_take _ _)) as Hsorted.
  apply sortBy_elem_of, list_elem_of_fmap in Hsorted as (u & -> & Hu).
  cbn [su_id similarityScore].
  unfold candidateUsersAmong in Hu.
  pose proof (elem_of_sublist _ _ _ Hu (sublist_take _ _)) as Hfiltered.
  apply list_elem_of_In, List.filter_In in Hfiltered as [Hin Hkept].
  apply andb_true_iff in Hkept as [Hkept Hlevel].
  apply andb_true_iff in Hkept as [Hcandidate Hactive].
  apply bool_decide_eq_true in Hlevel.
  apply includes_elem_of in Hcandidate. unfold usersWithSimilarCategories in Hcandidate.
  apply list_elem_of_fmap in Hcandidate as (uc & Hid & Huc).
  apply distinctBy_elem_of, list_elem_of_In, List.filter_In in Huc as [Huc Hrow].
  apply andb_true_iff in Hrow as [Hrow Henabled].
  apply andb_true_iff in Hrow as [Hcategory Hother].
  apply negb_true_iff, String.eqb_neq in Hother.
  split; [congruence|].
  exists u. split; [by apply list_elem_of_In|]. split; [reflexivity|].
  split; [exact Hactive|]. split; [exact Hlevel|]. split; [reflexivity|].
  exists uc. split; [by apply list_elem_of_In|]. split; [by symmetry|].
  split; [exact Henabled|]. by apply includes_elem_of.
Qed.

(** X20. [findSimilarUsers] always returns and leaves the database as it
    is.  It returns at most five users in the order of non-increasing
    similarity; each of them is another user than the one asked for, is
    active, has the difficulty level of the profile and an enabled
    category among the preferred categories of the profile, and carries
    its [calculateUserSimilarity] to the profile. *)
Theorem findSimilarUsers_selects (userId : string) (userProfile : UserProfile)
    (w : World) :
  exists similar w',
    findSimilarUsers userId userProfile w = (Returned similar, w')
    /\ db w' = db w
    /\ length similar <= 5
    /\ StronglySorted (fun a b => (similarityScore b <= similarityScore a)%Q) similar
    /\ forall su, su ∈ similar ->
         su_id su <> userId
         /\ exists u, u ∈ users (db w) /\ user_id u = su_id su
              /\ user_isActive u = true
              /\ difficultyLevel u = p_difficultyLevel userProfile
              /\ similarityScore su = calculateUserSimilarity userProfile u
              /\ exists uc, uc ∈ userCategories (db w) /\ uc_userId uc = user_id u
                   /\ isEnabled uc = true
                   /\ uc_categoryId uc ∈ preferredCategories userProfile.
Proof.
  destruct (triple_returns (findSimilarUsers userId userProfile)
              (similarTo (db w) userId userProfile) w
              (triple_similarUsers (db w) (now w) userId userProfile False False))
    as (similar & w' & Hrun & Hdb & _ & Hsimilar).
  exists similar, w'. split; [exact Hrun|]. split; [exact Hdb|]. exact Hsimilar.
Qed.

Lemma eligible_approved_active t f :
  eligible t f = true -> isApproved f = true /\ isActive f = true.
Proof.
  unfold eligible, factMatches, eligibleWhere, holds.
  cbn [where_isApproved where_isActive].
  destruct (isApproved f), (isActive f); cbn; auto; discriminate.
Qed.

Lemma triple_recommended s t userId userProfile limit (E D : Prop) :
  triple s t (getRecommendedFacts userId userProfile limit)
    (recommendedFor s t userId limit) E D.
Proof.
  assert (triple s t (getFallbackFacts limit) (recommendedFor s t userId limit) E D)
    as Hfallback.
  { eapply triple_weaken; [apply (triple_getFallbackFacts s t limit E D)|..]; auto.
    intros l Hl. apply fallbackList_shaped in Hl as (_ & Heligible & Hlength).
    split; [exact Hlength|]. intros f Hf. destruct (Heligible f Hf) as [Hin Hok].
    destruct (eligible_approved_active t f Hok) as [? ?]. auto. }
  assert (triple s t (getFallbackFacts limit) (recommendedFor s t userId limit) True D)
    as Hfallback'.
  { eapply triple_weaken; [exact Hfallback|..]; auto. }
  unfold getRecommendedFacts. eapply (triple_tryCatch _ _ _ _ _ True).
  2: { intros _ _. exact Hfallback. }
  eapply triple_bind; [apply (triple_similarUsers s t userId userProfile True D)|].
  intros similarUsers (_ & _ & Hsimilar).
  destruct (length similarUsers =? 0); [exact Hfallback'|].
  eapply triple_bind;
    [apply (triple_query s t _
              (fun views => views = likedBy (map su_id similarUsers) limit s));
     reflexivity|].
  intros recommendedFacts ->. apply triple_ret. split.
  { rewrite length_map. unfold likedBy. rewrite length_take. lia. }
  intros f Hf. apply list_elem_of_fmap in Hf as (v & -> & Hv). unfold likedBy in Hv.
  pose proof (elem_of_sublist _ _ _ Hv (sublist_take _ _)) as Hdistinct.
  apply distinctBy_elem_of, sortBy_elem_of, list_elem_of_In, List.filter_In
    in Hdistinct as [Hjoined Hok].
  apply andb_true_iff in Hok as [Happroved Hactive].
  apply list_elem_of_In, list_elem_of_omap in Hjoined as (uf & Huf & Hjoin).
  apply list_elem_of_In, List.filter_In in Huf as [Huf Hliked].
  apply andb_true_iff in Hliked as [Hby Hliked].
  unfold withFact in Hjoin. destruct (findFact s (factId uf)) as [f|] eqn:Hfound;
    [|discriminate].
  injection Hjoin as <-. cbn [viewed].
  unfold findFact in Hfound. apply List.find_some in Hfound as [Hin Hid].
  apply String.eqb_eq in Hid.
  split; [by apply list_elem_of_In|]. split; [exact Happroved|].
  split; [exact Hactive|]. right.
  exists uf. split; [by apply list_elem_of_In|]. split; [by symmetry|].
  split; [exact Hliked|].
  apply includes_elem_of, list_elem_of_fmap in Hby as (su & -> & Hsu).
  destruct (Hsimilar su Hsu) as [Hother _]. exact Hother.
Qed.

(** X21. [getRecommendedFacts] always returns and leaves the database as
    it is, also when its queries fail.  It returns at most [limit] facts
    of the database, each of them approved and active, and each of them
    either eligible for the fallback (published as well) or liked by
    another user than the one asked for. *)
Theorem getRecommendedFacts_selects (userId : string) (userProfile : UserProfile)
    (limit : nat) (w : World) :
  exists l w',
    getRecommendedFacts userId userProfile limit w = (Returned l, w')
    /\ db w' = db w
    /\ length l <= limit
    /\ forall f, f ∈ l ->
         f ∈ facts (db w) /\ isApproved f = true /\ isActive f = true
         /\ (eligible (now w) f = true
             \/ exists uf, uf ∈ userFacts (db w) /\ factId uf = fact_id f
                  /\ isLiked uf = true /\ uf_userId uf <> userId).
Proof.
  destruct (triple_returns (getRecommendedFacts userId userProfile limit)
              (recommendedFor (db w) (now w) userId limit) w
              (triple_recommended (db w) (now w) userId userProfile limit False False))
    as (l & w' & Hrun & Hdb & _ & Hrecommended).
  exists l, w'. split; [exact Hrun|]. split; [exact Hdb|]. exact Hrecommended.
Qed.

(** ** Sending a notification *)

(** X22. [sendNotification] never throws and never touches the database.
    It reports success exactly when Firebase is initialized and accepts
    the message, and then carries the message id and no error; without
    Firebase nothing is sent; every failure carries an error text; and a
    token is marked for deletion only on a failure. *)
Theorem sendNotification_outcome (fcmToken : string) (notification : Message)
    (factId categoryId : string) (w : World) :
  exists result w',
    sendNotification fcmToken notification factId categoryId w = (Returned result, w')
    /\ db w' = db w
    /\ (success result = true <->
        firebase w = true /\ exists id later, pushes w = Accepted id :: later)
    /\ (forall id later, firebase w = true -> pushes w = Accepted id :: later ->
          messageId result = Some id /\ error result = None /\ pushes w' = later)
    /\ (firebase w = false -> pushes w' = pushes w)
    /\ (success result = false -> error result <> None)
    /\ (shouldDelete result = true -> success result = false).
Proof.
  unfold sendNotification, bind, firebaseAdmin, messagingSend.
  destruct (firebase w) eqn:Hfirebase; cbn [negb].
  - destruct (pushes w) as [|[id|code message] later] eqn:Hpushes; cbn.
    + eexists _, _. split; [reflexivity|]. split; [reflexivity|].
      split; [split; [discriminate | by intros (_ & ? & ? & ?)]|].
      repeat split; try discriminate; auto.
    + eexists _, _. split; [reflexivity|]. split; [reflexivity|].
      split; [split; [eauto | reflexivity]|].
      split; [by intros id' later' _ [= <- <-]|].
      repeat split; try discriminate; auto.
    + destruct (String.eqb code _); [|destruct (String.eqb code _)]; cbn;
        (eexists _, _; split; [reflexivity|]; split; [reflexivity|];
         split; [split; [discriminate | by intros (_ & ? & ? & ?)]|];
         repeat split; try discriminate; auto).
  - eexists _, _. split; [reflexivity|]. split; [reflexivity|].
    split; [split; [discriminate | by intros [? _]]|].
    repeat split; try discriminate; auto.
Qed.

Lemma staleToken_spec (token : string) (d : Delivery) (stale : string) :
  staleToken (token, d) = Some stale ->
  stale = token
  /\ exists code message,
       d = Refused code message
       /\ (code = "messaging/registration-token-not-registered"
           \/ code = "messaging/invalid-registration-token").
Proof.
  unfold staleToken. cbn [fst snd]. destruct d as [id|code message]; [discriminate|].
  destruct (String.eqb_spec code "messaging/registration-token-not-registered")
    as [Hcode|_]; cbn [orb].
  - intros [= <-]. split; [reflexivity|]. exists code, message. auto.
  - destruct (String.eqb_spec code "messaging/invalid-registration-token")
      as [Hcode|_]; [|discriminate].
    intros [= <-]. split; [reflexivity|]. exists code, message. auto.
Qed.

Lemma staleTokens_refused (fcmTokens : list string) (responses : list Delivery) token :
  token ∈ omap staleToken (zip fcmTokens responses) ->
  exists i code message,
    fcmTokens !! i = Some token
    /\ responses !! i = Some (Refused code message)
    /\ (code = "messaging/registration-token-not-registered"
        \/ code = "messaging/invalid-registration-token").
Proof.
  revert responses. induction fcmTokens as [|first rest IH]; intros [|d responses];
    cbn [zip zip_with omap list_omap]; try (by intros ?%elem_of_nil).
  destruct (staleToken (first, d)) as [stale|] eqn:Hstale.
  - apply staleToken_spec in Hstale as (-> & code & message & -> & Hcode).
    intros Htoken. apply elem_of_cons in Htoken as [->|Htoken].
    + exists 0, code, message. auto.
    + destruct (IH responses Htoken) as (i & code' & message' & Hi & Hr & Hc).
      exists (S i), code', message'. auto.
  - intros Htoken.
    destruct (IH responses Htoken) as (i & code' & message' & Hi & Hr & Hc).
    exists (S i), code', message'. auto.
Qed.

(** X23. [sendMulticastNotification] never throws and never touches the
    database.  Without tokens, or without Firebase, it fails without
    sending; it reports success exactly when Firebase is initialized,
    there is a token and the batch call answers.  A token it reports as
    failed is one of the tokens it was given, in the position of a
    delivery that was refused because the token is not registered or not
    valid.  Every failure carries an error text. *)
Theorem sendMulticastNotification_outcome (fcmTokens : list string)
    (notification : Message) (factId categoryId : string) (w : World) :
  exists result w',
    sendMulticastNotification fcmTokens notification factId categoryId w
    = (Returned result, w')
    /\ db w' = db w
    /\ (fcmTokens = [] \/ firebase w = false ->
        success result = false /\ multicasts w' = multicasts w)
    /\ (success result = true <->
        firebase w = true /\ fcmTokens <> []
        /\ exists responses later, multicasts w = Responses responses :: later)
    /\ (forall token, token ∈ failedTokens result ->
          exists i code message responses later,
            multicasts w = Responses responses :: later
            /\ fcmTokens !! i = Some token
            /\ responses !! i = Some (Refused code message)
            /\ (code = "messaging/registration-token-not-registered"
                \/ code = "messaging/invalid-registration-token"))
    /\ (success result = false -> error result <> None).
Proof.
  unfold sendMulticastNotification, bind, firebaseAdmin, messagingSendMulticast.
  destruct (firebase w) eqn:Hfirebase; cbn [negb orb].
  - destruct fcmTokens as [|token rest] eqn:Htokens; cbn [length Nat.eqb].
    + eexists _, _. split; [reflexivity|]. split; [reflexivity|]. cbn.
      split; [auto|]. split; [split; [discriminate | by intros (_ & ? & _)]|].
      split; [by intros ? ?%elem_of_nil | discriminate].
    + rewrite <- Htokens.
      destruct (multicasts w) as [|[responses|message] later] eqn:Hmulticasts; cbn.
      * eexists _, _. split; [reflexivity|]. split; [reflexivity|]. cbn.
        split; [intros [?|?]; [subst; discriminate | discriminate]|].
        split; [split; [discriminate | by intros (_ & _ & ? & ? & ?)]|].
        split; [by intros ? ?%elem_of_nil | discriminate].
      * eexists _, _. split; [reflexivity|]. split; [reflexivity|]. cbn.
        split; [intros [?|?]; [subst; discriminate | discriminate]|].
        split.
        { split; [|reflexivity]. intros _. split; [reflexivity|].
          split; [subst; discriminate | eauto]. }
        split; [|discriminate].
        intros stale Hstale.
        destruct (staleTokens_refused fcmTokens responses stale Hstale)
          as (i & code & message & Hi & Hr & Hcode).
        exists i, code, message, responses, later. auto.
      * eexists _, _. split; [reflexivity|]. split; [reflexivity|]. cbn.
        split; [intros [?|?]; [subst; discriminate | discriminate]|].
        split; [split; [discriminate | by intros (_ & _ & ? & ? & ?)]|].
        split; [by intros ? ?%elem_of_nil | discriminate].
  - eexists _, _. split; [reflexivity|]. split; [reflexivity|]. cbn.
    split; [auto|]. split; [split; [discriminate | by intros (? & _)]|].
    split; [by intros ? ?%elem_of_nil | discriminate].
Qed.

(** ** The clean-up of old notifications *)

Lemma filter_partition_length {A} (p : A -> bool) (l : list A) :
  length (List.filter p l) + length (List.filter (fun x => negb (p x)) l) = length l.
Proof.
  induction l as [|x l IH]; [reflexivity|]. cbn [List.filter].
  destruct (p x); cbn [negb length]; lia.
Qed.

Lemma filter_idempotent {A} (p : A -> bool) (l : list A) :
  List.filter p (List.filter p l) = List.filter p l.
Proof.
  induction l as [|x l IH]; [reflexivity|]. cbn [List.filter].
  destruct (p x) eqn:Hp; [|exact IH]. cbn [List.filter]. by rewrite Hp, IH.
Qed.

Lemma oldAndSettled_spec cutoffDate n :
  oldAndSettled cutoffDate n = true <->
  (n_createdAt n < cutoffDate)%Z
  /\ (status n = SENT \/ status n = DELIVERED \/ status n = OPENED
      \/ status n = CANCELLED).
Proof.
  unfold oldAndSettled.
  rewrite andb_true_iff, !orb_true_iff, !bool_decide_eq_true, Z.ltb_lt. tauto.
Qed.

(** X24. When the repository answers, [cleanupOldNotifications] deletes
    exactly the notifications that are older than [daysToKeep] days and
    sent, delivered, opened or cancelled, and returns their number: the
    other notifications stay, in their order; failed and pending
    notifications stay whatever their age; no other table changes; and a
    second run at the same time deletes nothing.  When the repository
    rejects the call, the error is rethrown and nothing is deleted. *)
Theorem cleanupOldNotifications_deletes (daysToKeep : Z) (w : World) :
  (faults w = [] ->
   exists deleted w',
     cleanupOldNotifications daysToKeep w = (Returned deleted, w')
     /\ db w' = withNotifications (notifications (db w')) (db w)
     /\ notifications (db w') `sublist_of` notifications (db w)
     /\ deleted + length (notifications (db w')) = length (notifications (db w))
     /\ (forall n, n ∈ notifications (db w') <->
           n ∈ notifications (db w)
           /\ ~ ((n_createdAt n < now w - daysToKeep * 86400000)%Z
                 /\ (status n = SENT \/ status n = DELIVERED \/ status n = OPENED
                     \/ status n = CANCELLED)))
     /\ (forall n, n ∈ notifications (db w) ->
           status n = FAILED \/ status n = PENDING -> n ∈ notifications (db w'))
     /\ exists w'', cleanupOldNotifications daysToKeep w' = (Returned 0, w'')
                    /\ db w'' = db w')
  /\ (forall later, faults w = true :: later ->
      exists e w', cleanupOldNotifications daysToKeep w = (Thrown e, w')
                   /\ db w' = db w).
Proof.
  split.
  - intros Hfaults.
    unfold cleanupOldNotifications, tryCatch, bind, dateNow, deleteManyNotifications, bind.
    rewrite (roundTrip_answers w Hfaults). unfold daysBefore.
    set (cutoffDate := (now w - daysToKeep * 86400000)%Z).
    set (kept := List.filter (fun n => negb (oldAndSettled cutoffDate n))
                   (notifications (db w))).
    eexists _, _. split; [reflexivity|]. cbn [db withDb withNotifications notifications].
    fold kept.
    split; [reflexivity|]. split; [apply filter_sublist|].
    split; [apply filter_partition_length|]. split; [|split].
    + intros n. subst kept.
      rewrite list_elem_of_In, List.filter_In, <- list_elem_of_In.
      rewrite negb_true_iff, <- not_true_iff_false, oldAndSettled_spec. tauto.
    + intros n Hn Hstatus. subst kept.
      apply list_elem_of_In, List.filter_In. split; [by apply list_elem_of_In|].
      apply negb_true_iff, not_true_iff_false. rewrite oldAndSettled_spec.
      intros (_ & Hsettled). destruct Hstatus as [Hs|Hs]; rewrite Hs in Hsettled;
        destruct Hsettled as [?|[?|[?|?]]]; discriminate.
    + rewrite roundTrip_answers by exact Hfaults.
      cbn [db withDb withNotifications notifications now]. fold cutoffDate. fold kept.
      assert (List.filter (oldAndSettled cutoffDate) kept = []) as ->.
      { subst kept. induction (notifications (db w)) as [|n ns IH]; [reflexivity|].
        cbn [List.filter]. destruct (oldAndSettled cutoffDate n) eqn:Hold; cbn [negb];
          [exact IH|]. cbn [List.filter]. by rewrite Hold. }
      assert (List.filter (fun n => negb (oldAndSettled cutoffDate n)) kept = kept) as ->
        by apply filter_idempotent.
      eexists. split; reflexivity.
  - intros later Hfaults.
    unfold cleanupOldNotifications, tryCatch, bind, dateNow, deleteManyNotifications,
      bind, roundTrip, throw.
    rewrite Hfaults. eexists _, _. split; reflexivity.
Qed.

Lemma cleanupOldNotifications_deletes_witness :
  exists deleted w',
    cleanupOldNotifications 0 (Samples.worldOf Samples.storeCapped [])
    = (Returned deleted, w')
    /\ db w' = withNotifications (notifications (db w')) Samples.storeCapped
    /\ notifications (db w') `sublist_of` notifications Samples.storeCapped
    /\ deleted + length (notifications (db w')) = 3
    /\ (forall n, n ∈ notifications (db w') <->
          n ∈ notifications Samples.storeCapped
          /\ ~ ((n_createdAt n < 5000 - 0 * 86400000)%Z
                /\ (status n = SENT \/ status n = DELIVERED \/ status n = OPENED
                    \/ status n = CANCELLED)))
    /\ (forall n, n ∈ notifications Samples.storeCapped ->
          status n = FAILED \/ status n = PENDING -> n ∈ notifications (db w'))
    /\ exists w'', cleanupOldNotifications 0 w' = (Returned 0, w'')
                   /\ db w'' = db w'.
Proof.
  apply (proj1 (cleanupOldNotifications_deletes 0
                  (Samples.worldOf Samples.storeCapped []))).
  reflexivity.
Defined.

(** ** The daily fact of a user *)

Lemma triple_mathRandom s t (D : Prop) (E : Prop) :
  triple s t mathRandom (fun _ => True) E D.
Proof. intros w Hs Ht. unfold mathRandom. destruct (randoms w); cbn; auto. Qed.

Lemma unseenWhere_matches user t userCategories seenFactIds f :
  factMatches (deleteId (unseenWhere user t userCategories seenFactIds)) f = true <->
  eligible t f = true /\ difficulty f = difficultyLevel user
  /\ (userCategories <> [] -> categoryId f ∈ userCategories).
Proof.
  unfold eligible, factMatches, deleteId, unseenWhere, eligibleWhere, holds.
  cbn [where_isApproved where_isActive where_publishedAt_lte where_difficulty
       where_categoryId_in where_id_notIn].
  rewrite !andb_true_r, !andb_true_iff, bool_decide_eq_true.
  assert ((match (if 0 <? length userCategories then Some userCategories else None) with
           | Some cs => includes cs (categoryId f)
           | None => true
           end = true)
          <-> (userCategories <> [] -> categoryId f ∈ userCategories)) as ->.
  { destruct userCategories as [|c cs]; cbn [length Nat.ltb Nat.leb].
    - split; [done | reflexivity].
    - rewrite includes_elem_of. split; [auto | intros H; by apply H]. }
  tauto.
Qed.

Lemma unseenWhere_weaker user t userCategories seenFactIds f :
  factMatches (unseenWhere user t userCategories seenFactIds) f = true ->
  factMatches (deleteId (unseenWhere user t userCategories seenFactIds)) f = true.
Proof.
  unfold factMatches, deleteId.
  cbn [where_isApproved where_isActive where_publishedAt_lte where_difficulty
       where_categoryId_in where_id_notIn holds].
  rewrite !andb_true_iff. tauto.
Qed.

Lemma triple_chosen s t user (E D : Prop) :
  triple s t (getPersonalizedFact user) (chosenFor s t user) E D.
Proof.
  unfold getPersonalizedFact. eapply (triple_tryCatch _ _ _ _ _ True).
  2: { intros _ _. apply triple_ret. intros f Hf. discriminate. }
  eapply triple_bind;
    [apply (triple_query s t _ (fun cs => cs = enabledCategoryIds (user_id user) s));
     reflexivity|].
  intros userCategories ->.
  eapply triple_bind;
    [apply (triple_query s t _ (fun ids => ids = viewedFactIds (user_id user) s));
     reflexivity|].
  intros seenFactIds ->.
  eapply triple_bind; [apply (triple_dateNow s t (fun t' => t' = t)); reflexivity|].
  intros t' ->.
  set (wh := unseenWhere user t (enabledCategoryIds (user_id user) s)
               (viewedFactIds (user_id user) s)).
  assert (forall order n r, chosenFor s t user (pick (findFacts (deleteId wh) order n s) r))
    as Hfallback.
  { intros order n r f Hf. apply pick_elem_of, findFacts_elem_of in Hf as [Hin Hmatch].
    apply unseenWhere_matches in Hmatch. tauto. }
  assert (forall order n r, chosenFor s t user (pick (findFacts wh order n s) r))
    as Hfirst.
  { intros order n r f Hf. apply pick_elem_of, findFacts_elem_of in Hf as [Hin Hmatch].
    apply unseenWhere_weaker, unseenWhere_matches in Hmatch. tauto. }
  eapply triple_bind;
    [apply (triple_query s t _ (fun l => l = findFacts wh byFeaturedThenNewest 10 s));
     reflexivity|].
  intros found ->. destruct (length _ =? 0).
  - eapply triple_bind;
      [apply (triple_query s t _ (fun l => l = findFacts (deleteId wh) byNewest 5 s));
       reflexivity|].
    intros fallbackFacts ->.
    eapply (triple_bind _ _ _ _ (fun _ => True)); [apply triple_mathRandom|].
    intros r _. apply triple_ret. apply Hfallback.
  - eapply (triple_bind _ _ _ _ (fun _ => True)); [apply triple_mathRandom|].
    intros r _. apply triple_ret. apply Hfirst.
Qed.

Lemma pick_some {A} (l : list A) (r : Q) :
  l <> [] -> (0 <= r)%Q -> (r < 1)%Q -> exists x, pick l r = Some x.
Proof.
  intros Hl Hr0 Hr1. unfold pick.
  assert (0 < ofNat (length l))%Q as Hlen.
  { unfold ofNat. change 0%Q with (inject_Z 0). rewrite <- Zlt_Qlt.
    destruct l; [done | cbn [length]; lia]. }
  assert (0 <= Qfloor (r * ofNat (length l)))%Z as Hlow.
  { change 0%Z with (Qfloor 0). apply Qfloor_resp_le. nra. }
  assert (Qfloor (r * ofNat (length l)) < Z.of_nat (length l))%Z as Hhigh.
  { rewrite Zlt_Qlt. eapply Qle_lt_trans; [apply Qfloor_le|].
    fold (ofNat (length l)). nra. }
  assert ((Qfloor (r * ofNat (length l)) <? 0)%Z = false) as -> by (apply Z.ltb_ge; lia).
  destruct (nth_error l (Z.to_nat (Qfloor (r * ofNat (length l))))) as [x|] eqn:Hnth;
    [eauto|].
  apply nth_error_None in Hnth. lia.
Qed.

(** X25. The per-user selection [getPersonalizedFact] always returns and
    leaves the database as it is.  A fact it returns is an approved,
    active, published fact of the difficulty of the user, and of one of
    the enabled categories of the user when there are any - from the first
    query or from the fallback, and whichever calls fail.  When the
    repository answers and [Math.random()] is in [0, 1), it returns a
    fact as soon as the database holds one such fact. *)
Theorem getPersonalizedFact_selects (user : User) (w : World) :
  (exists found w',
     getPersonalizedFact user w = (Returned found, w')
     /\ db w' = db w
     /\ forall f, found = Some f ->
          f ∈ facts (db w) /\ eligible (now w) f = true
          /\ difficulty f = difficultyLevel user
          /\ (enabledCategoryIds (user_id user) (db w) <> [] ->
              categoryId f ∈ enabledCategoryIds (user_id user) (db w)))
  /\ (faults w = [] ->
      (0 <= hd 0%Q (randoms w))%Q -> (hd 0%Q (randoms w) < 1)%Q ->
      forall f, f ∈ facts (db w) -> eligible (now w) f = true ->
        difficulty f = difficultyLevel user ->
        (enabledCategoryIds (user_id user) (db w) <> [] ->
         categoryId f ∈ enabledCategoryIds (user_id user) (db w)) ->
        exists chosen, fst (getPersonalizedFact user w) = Returned (Some chosen)).
Proof.
  split.
  - destruct (triple_returns (getPersonalizedFact user) (chosenFor (db w) (now w) user) w
                (triple_chosen (db w) (now w) user False False))
      as (found & w' & Hrun & Hdb & _ & Hchosen).
    exists found, w'. split; [exact Hrun|]. split; [exact Hdb|]. exact Hchosen.
  - intros Hfaults Hr0 Hr1 f Hf Heligible Hdifficulty Hcategory.
    rewrite (getPersonalizedFact_run user w Hfaults). cbv zeta.
    set (wh := unseenWhere user (now w) (enabledCategoryIds (user_id user) (db w))
                 (viewedFactIds (user_id user) (db w))).
    destruct (length (findFacts wh byFeaturedThenNewest 10 (db w)) =? 0) eqn:Hempty.
    + destruct (pick_some (findFacts (deleteId wh) byNewest 5 (db w))
                  (hd 0%Q (randoms w))) as [chosen Hchosen]; [|done|done|].
      * intros Hnone.
        assert (f ∈ List.filter (factMatches (deleteId wh)) (facts (db w))) as Hmatch.
        { apply list_elem_of_In, List.filter_In. split; [by apply list_elem_of_In|].
          apply unseenWhere_matches. tauto. }
        unfold findFacts in Hnone. apply (f_equal length) in Hnone.
        rewrite length_take, sortBy_length in Hnone.
        destruct (List.filter _ _); [by apply elem_of_nil in Hmatch|].
        cbn [length] in Hnone. lia.
      * exists chosen. by rewrite Hchosen.
    + destruct (pick_some (findFacts wh byFeaturedThenNewest 10 (db w))
                  (hd 0%Q (randoms w))) as [chosen Hchosen]; [|done|done|].
      * intros Hnone. rewrite Hnone in Hempty. discriminate.
      * exists chosen. by rewrite Hchosen.
Qed.

Lemma getPersonalizedFact_selects_witness :
  exists chosen,
    fst (getPersonalizedFact Samples.userU1 (Samples.worldOf Samples.storeSeen []))
    = Returned (Some chosen).
Proof.
  apply (proj2 (getPersonalizedFact_selects Samples.userU1
                  (Samples.worldOf Samples.storeSeen []))
           eq_refl) with (f := Samples.factSeen).
  - by vm_compute.
  - by vm_compute.
  - left.
  - reflexivity.
  - reflexivity.
  - intros _. left.
Defined.

Lemma triple_sendDailyFactNotification s t userId f (D : Prop) :
  triple s t (sendDailyFactNotification userId f) (fun _ => True) True D.
Proof.
  intros w Hs Ht.
  unfold sendDailyFactNotification, tryCatch, bind, dateNow, query, bind, roundTrip.
  destruct (faults w) as [|[] later]; cbn; auto.
Qed.

(** X26. Whatever the notification sender does, [sendDailyFactToUser]
    never throws.  With the sender of the notification service it always
    returns, and the database is after the call what it was before: the
    distribution step stores no notification. *)
Theorem sendDailyFactToUser_contained (user : User) (w : World) :
  (forall sender e, fst (sendDailyFactToUser sender user w) <> Thrown e)
  /\ exists w', sendDailyFactToUser sendDailyFactNotification user w = (Returned tt, w')
                /\ db w' = db w.
Proof.
  split.
  - intros sender e. unfold sendDailyFactToUser, tryCatch.
    destruct (bind _ _ w) as [[[]|e'|] w']; cbn; discriminate.
  - assert (triple (db w) (now w) (sendDailyFactToUser sendDailyFactNotification user)
              (fun _ => True) False False) as Hrun.
    { unfold sendDailyFactToUser. eapply (triple_tryCatch _ _ _ _ _ True).
      2: { intros _ _. by apply triple_ret. }
      eapply (triple_bind _ _ _ _ (fun _ => True)); [by apply triple_dateNow|].
      intros t _.
      eapply (triple_bind _ _ _ _ (fun _ => True)); [by apply triple_query|].
      intros todayNotifications _. destruct (_ <=? _)%Z; [by apply triple_ret|].
      eapply (triple_bind _ _ _ _ (fun _ => True)).
      { eapply triple_weaken; [apply (triple_chosen (db w) (now w) user True False)|..];
          auto. }
      intros [f|] _; [|by apply triple_ret].
      eapply (triple_bind _ _ _ _ (fun _ => True));
        [apply triple_sendDailyFactNotification|].
      intros _ _. by apply triple_ret. }
    destruct (triple_returns _ _ w Hrun) as ([] & w' & Hreturned & Hdb & _).
    exists w'. split; [exact Hreturned | exact Hdb].
Qed.

(** ** The streak job *)

Lemma toDateString_yesterday (today : Z) :
  toDateString (daysBefore today 1) = (toDateString today - 1)%Z.
Proof.
  unfold toDateString, daysBefore.
  replace (today - 1 * 86400000)%Z with (today + (-1) * 86400000)%Z by lia.
  rewrite Z.div_add by lia. lia.
Qed.

Lemma newStreakOf_bounds (today : Z) (user : User) (lastActive : Z) :
  (newStreakOf today (daysBefore today 1) user lastActive
   <= Z.max 1 (currentStreak user))%Z
  /\ (0 <= currentStreak user ->
      0 <= newStreakOf today (daysBefore today 1) user lastActive)%Z.
Proof.
  unfold newStreakOf. cbv zeta.
  destruct (_ =? _)%Z, (_ =? _)%Z, (Z.eqb_spec (currentStreak user) 0),
    (Z.ltb_spec 0 (currentStreak user)); cbn [negb andb]; split; intros; lia.
Qed.

(** X27. The rule of the streak job, for a user last active at
    [lastActive]: a user active today keeps the streak, or gets streak 1
    when the streak was 0; a user last active yesterday keeps the streak;
    any other user with a positive streak is reset to 0.  The branch that
    continues a streak is never taken, the last activity being on one day
    only: the job never raises a streak above 1. *)
Theorem newStreakOf_rule (today : Z) (user : User) (lastActive : Z) :
  (toDateString lastActive = toDateString today ->
   newStreakOf today (daysBefore today 1) user lastActive
   = if (currentStreak user =? 0)%Z then 1%Z else currentStreak user)
  /\ (toDateString lastActive = (toDateString today - 1)%Z ->
      newStreakOf today (daysBefore today 1) user lastActive = currentStreak user)
  /\ (toDateString lastActive <> toDateString today ->
      toDateString lastActive <> (toDateString today - 1)%Z ->
      newStreakOf today (daysBefore today 1) user lastActive
      = if (0 <? currentStreak user)%Z then 0%Z else currentStreak user)
  /\ (newStreakOf today (daysBefore today 1) user lastActive
      <= Z.max 1 (currentStreak user))%Z
  /\ (0 <= currentStreak user ->
      0 <= newStreakOf today (daysBefore today 1) user lastActive)%Z.
Proof.
  unfold newStreakOf. cbv zeta. rewrite toDateString_yesterday.
  destruct (Z.eqb_spec (toDateString lastActive) (toDateString today)) as [Htoday|Htoday];
    destruct (Z.eqb_spec (toDateString lastActive) (toDateString today - 1))
      as [Hyesterday|Hyesterday];
    destruct (Z.eqb_spec (currentStreak user) 0) as [Hzero|Hzero];
    destruct (Z.ltb_spec 0 (currentStreak user)) as [Hpositive|Hpositive];
    cbn [negb andb]; repeat split; intros; try reflexivity; try lia.
Qed.

Lemma newStreakOf_rule_witness :
  newStreakOf 90000000 (daysBefore 90000000 1) Samples.userU1 86400000
  = if (currentStreak Samples.userU1 =? 0)%Z then 1%Z else currentStreak Samples.userU1.
Proof.
  apply (newStreakOf_rule 90000000 Samples.userU1 86400000). reflexivity.
Defined.

Lemma updateStreakOf_answers today user w :
  faults w = [] ->
  exists w', updateStreakOf today (daysBefore today 1) user w = (Returned tt, w')
             /\ faults w' = [] /\ now w' = now w
             /\ db w' = withUsers (applyStreak today user (users (db w))) (db w).
Proof.
  intros Hfaults. unfold updateStreakOf, applyStreak.
  assert (db w = withUsers (users (db w)) (db w)) as Hsame by (by destruct (db w)).
  destruct (lastActiveDate user) as [lastActive|]; [|exists w; by rewrite <- Hsame].
  cbv zeta. destruct (negb _); [|exists w; by rewrite <- Hsame].
  unfold updateUser. rewrite (mutate_answers _ w Hfaults).
  eexists. split; [reflexivity|]. cbn. auto.
Qed.

Lemma forEach_updateStreakOf_answers today selected w :
  faults w = [] ->
  exists w', forEach selected (updateStreakOf today (daysBefore today 1)) w
             = (Returned tt, w')
             /\ faults w' = [] /\ now w' = now w
             /\ db w' = withUsers (foldl (fun us u => applyStreak today u us)
                                     (users (db w)) selected) (db w).
Proof.
  revert w. induction selected as [|u rest IH]; intros w Hfaults; cbn [forEach foldl].
  - exists w. split; [reflexivity|]. split; [done|]. split; [done|]. by destruct (db w).
  - destruct (updateStreakOf_answers today u w Hfaults) as (w1 & Hrun & Hfaults1 & Hnow1 & Hdb1).
    destruct (IH w1 Hfaults1) as (w2 & Hrest & Hfaults2 & Hnow2 & Hdb2).
    exists w2. unfold bind. rewrite Hrun, Hrest.
    split; [reflexivity|]. split; [done|]. split; [congruence|].
    rewrite Hdb2, Hdb1. reflexivity.
Qed.

Lemma streakChange_id today u : user_id (streakChange today u) = user_id u.
Proof.
  unfold streakChange. destruct (lastActiveDate u); [|reflexivity].
  cbv zeta. by destruct (negb _).
Qed.

Lemma applyStreak_pointwise today selected us :
  NoDup (map user_id us) -> selected ∈ us ->
  applyStreak today selected us
  = map (fun u => if String.eqb (user_id u) (user_id selected)
                  then streakChange today u else u) us.
Proof.
  intros Hids Hselected. unfold applyStreak.
  assert (forall u, u ∈ us -> String.eqb (user_id u) (user_id selected) = true ->
            u = selected) as Hsame.
  { intros u Hu Hid. apply String.eqb_eq in Hid.
    by apply (NoDup_same_key user_id us). }
  destruct (lastActiveDate selected) as [lastActive|] eqn:Hlast.
  - cbv zeta. destruct (negb _) eqn:Hchanged.
    + apply map_ext_in. intros u Hu. apply list_elem_of_In in Hu.
      destruct (String.eqb _ _) eqn:Hid; [|reflexivity].
      rewrite (Hsame u Hu Hid). unfold streakChange. rewrite Hlast. cbv zeta.
      by rewrite Hchanged.
    + rewrite <- (map_id us) at 1. apply map_ext_in. intros u Hu.
      apply list_elem_of_In in Hu.
      destruct (String.eqb _ _) eqn:Hid; [|reflexivity].
      rewrite (Hsame u Hu Hid). unfold streakChange. rewrite Hlast. cbv zeta.
      by rewrite Hchanged.
  - rewrite <- (map_id us) at 1. apply map_ext_in. intros u Hu.
    apply list_elem_of_In in Hu.
    destruct (String.eqb _ _) eqn:Hid; [|reflexivity].
    rewrite (Hsame u Hu Hid). unfold streakChange. by rewrite Hlast.
Qed.

Lemma foldl_applyStreak today selected us :
  NoDup (map user_id us) -> NoDup (map user_id selected) ->
  (forall u, u ∈ selected -> u ∈ us) ->
  foldl (fun us u => applyStreak today u us) us selected
  = map (fun u => if includes (map user_id selected) (user_id u)
                  then streakChange today u else u) us.
Proof.
  revert us. induction selected as [|x rest IH]; intros us Hids Hselected Hin;
    cbn [foldl map].
  - cbn. by rewrite map_id.
  - apply NoDup_cons in Hselected as [Hfresh Hrest].
    rewrite (applyStreak_pointwise today x us Hids) by (apply Hin; by left).
    set (step := fun u => if String.eqb (user_id u) (user_id x)
                          then streakChange today u else u).
    assert (forall u, user_id (step u) = user_id u) as Hstep.
    { intros u. unfold step. destruct (String.eqb _ _); [apply streakChange_id | done]. }
    rewrite IH.
    + rewrite map_map. apply map_ext. intros u. rewrite Hstep. unfold step, includes.
      cbn [existsb]. destruct (String.eqb_spec (user_id u) (user_id x)) as [Heq|Hne].
      * cbn [orb].
        assert (existsb (String.eqb (user_id u)) (map user_id rest) = false) as ->;
          [|reflexivity].
        apply not_true_iff_false. intros Hex.
        apply (proj1 (includes_elem_of _ _)) in Hex. apply Hfresh. by rewrite <- Heq.
      * cbn [orb]. reflexivity.
    + rewrite map_map. erewrite map_ext; [exact Hids|]. exact Hstep.
    + exact Hrest.
    + intros u Hu. apply list_elem_of_fmap. exists u. split; [|apply Hin; by right].
      unfold step. destruct (String.eqb_spec (user_id u) (user_id x)) as [Heq|]; [|done].
      exfalso. apply Hfresh. rewrite <- Heq. apply list_elem_of_fmap. by exists u.
Qed.

Lemma streakChange_twice today u :
  streakChange today (streakChange today u) = streakChange today u.
Proof.
  unfold streakChange at 2 3. destruct (lastActiveDate u) as [lastActive|] eqn:Hlast;
    [|unfold streakChange; by rewrite Hlast].
  cbv zeta. destruct (Z.eqb_spec (newStreakOf today (daysBefore today 1) u lastActive)
                        (currentStreak u)) as [Hsame|Hchanged]; cbn [negb].
  - unfold streakChange. rewrite Hlast. cbv zeta. rewrite Hsame, Z.eqb_refl. reflexivity.
  - unfold streakChange. cbn [lastActiveDate withStreaks]. rewrite Hlast. cbv zeta.
    assert (newStreakOf today (daysBefore today 1)
              (withStreaks (newStreakOf today (daysBefore today 1) u lastActive)
                 (Z.max (longestStreak u)
                    (newStreakOf today (daysBefore today 1) u lastActive)) u)
              lastActive
            = newStreakOf today (daysBefore today 1) u lastActive) as Hfixed.
    { revert Hchanged. unfold newStreakOf. cbv zeta. cbn [currentStreak withStreaks].
      rewrite toDateString_yesterday.
      destruct (Z.eqb_spec (toDateString lastActive) (toDateString today));
        destruct (Z.eqb_spec (toDateString lastActive) (toDateString today - 1));
        destruct (Z.eqb_spec (currentStreak u) 0);
        destruct (Z.ltb_spec 0 (currentStreak u));
        cbn [negb andb]; intros; try reflexivity; try lia. }
    rewrite Hfixed. cbn [currentStreak withStreaks]. by rewrite Z.eqb_refl.
Qed.

(** X28. While the repository answers and user ids are distinct, the
    streak job changes the table of the users row by row: the row of an
    active user with a last activity gets the streak of the rule (X27)
    and the larger of the old longest streak and the new streak, every
    other row and every other table stays as it is.  So no longest streak
    ever decreases, and a second run at the same time changes nothing. *)
Theorem updateUserStreaks_step (w : World) :
  faults w = [] -> NoDup (map user_id (users (db w))) ->
  exists w',
    updateUserStreaks w = (Returned tt, w')
    /\ db w' = withUsers (map (streakUpdated (now w)) (users (db w))) (db w)
    /\ (forall u, u ∈ users (db w) ->
          user_id (streakUpdated (now w) u) = user_id u
          /\ (longestStreak u <= longestStreak (streakUpdated (now w) u))%Z
          /\ (currentStreak (streakUpdated (now w) u) <= Z.max 1 (currentStreak u))%Z
          /\ (user_isActive u = false \/ lastActiveDate u = None ->
              streakUpdated (now w) u = u))
    /\ exists w'', updateUserStreaks w' = (Returned tt, w'') /\ db w'' = db w'.
Proof.
  intros Hfaults Hids.
  assert (forall v : World, faults v = [] -> NoDup (map user_id (users (db v))) ->
            exists v', updateUserStreaks v = (Returned tt, v')
                       /\ faults v' = [] /\ now v' = now v
                       /\ db v' = withUsers (map (streakUpdated (now v)) (users (db v)))
                                    (db v)) as Hrun.
  { intros v Hv Hdistinct. unfold updateUserStreaks, tryCatch, bind at 1.
    rewrite (query_answers _ v Hv). unfold bind at 1, dateNow.
    destruct (forEach_updateStreakOf_answers (now v)
                (List.filter user_isActive (users (db v))) v Hv)
      as (v' & Hloop & Hfaults' & Hnow' & Hdb').
    rewrite Hloop. exists v'. split; [reflexivity|]. split; [done|]. split; [done|].
    rewrite Hdb'. f_equal.
    rewrite foldl_applyStreak; [|done|by apply NoDup_map_filter|].
    - apply map_ext_in. intros u Hu. unfold streakUpdated.
      destruct (user_isActive u) eqn:Hactive.
      + assert (includes (map user_id (List.filter user_isActive (users (db v))))
                  (user_id u) = true) as ->; [|reflexivity].
        apply includes_elem_of, list_elem_of_fmap. exists u. split; [done|].
        apply list_elem_of_In, List.filter_In. by split.
      + assert (includes (map user_id (List.filter user_isActive (users (db v))))
                  (user_id u) = false) as ->; [|reflexivity].
        apply not_true_iff_false. intros Hin.
        apply includes_elem_of, list_elem_of_fmap in Hin as (u' & Hsame & Hu').
        apply list_elem_of_In, List.filter_In in Hu' as [Hu' Hactive'].
        apply list_elem_of_In in Hu, Hu'.
        rewrite (NoDup_same_key user_id _ u u' Hdistinct Hu Hu' Hsame) in Hactive.
        congruence.
    - intros u Hu. apply list_elem_of_In, List.filter_In in Hu as [Hu _].
      by apply list_elem_of_In. }
  destruct (Hrun w Hfaults Hids) as (w' & Hfirst & Hfaults' & Hnow' & Hdb').
  assert (forall u, user_id (streakUpdated (now w) u) = user_id u) as Hid.
  { intros u. unfold streakUpdated. destruct (user_isActive u); [|done].
    apply streakChange_id. }
  exists w'. split; [exact Hfirst|]. split; [exact Hdb'|]. split.
  - intros u Hu. split; [apply Hid|]. unfold streakUpdated, streakChange.
    destruct (user_isActive u); [|repeat split; try lia; auto].
    destruct (lastActiveDate u) as [lastActive|]; [|repeat split; try lia; auto].
    cbv zeta.
    destruct (newStreakOf_bounds (now w) u lastActive) as [Hhigh _].
    destruct (negb _); cbn [longestStreak currentStreak withStreaks];
      repeat split; try lia; intros [?|?]; discriminate.
  - assert (NoDup (map user_id (users (db w')))) as Hids'.
    { rewrite Hdb'. cbn [users withUsers]. rewrite map_map.
      erewrite map_ext; [exact Hids|]. exact Hid. }
    destruct (Hrun w' Hfaults' Hids') as (w'' & Hsecond & _ & _ & Hdb'').
    exists w''. split; [exact Hsecond|]. rewrite Hdb'', Hnow', Hdb'.
    unfold withUsers.
    cbn [users categories userCategories facts userFacts userSessions notifications].
    f_equal. rewrite map_map. apply map_ext. intros u.
    unfold streakUpdated.
    destruct (user_isActive u) eqn:Hactive; [|by rewrite Hactive].
    assert (user_isActive (streakChange (now w) u) = true) as ->.
    { unfold streakChange. destruct (lastActiveDate u); [|done].
      cbv zeta. by destruct (negb _). }
    apply streakChange_twice.
Qed.

Lemma updateUserStreaks_step_witness :
  exists w',
    updateUserStreaks (Samples.worldOf Samples.storeStreaks []) = (Returned tt, w')
    /\ db w' = withUsers (map (streakUpdated 5000) (users Samples.storeStreaks))
                 Samples.storeStreaks
    /\ (forall u, u ∈ users Samples.storeStreaks ->
          user_id (streakUpdated 5000 u) = user_id u
          /\ (longestStreak u <= longestStreak (streakUpdated 5000 u))%Z
          /\ (currentStreak (streakUpdated 5000 u) <= Z.max 1 (currentStreak u))%Z
          /\ (user_isActive u = false \/ lastActiveDate u = None ->
              streakUpdated 5000 u = u))
    /\ exists w'', updateUserStreaks w' = (Returned tt, w'') /\ db w'' = db w'.
Proof.
  apply (updateUserStreaks_step (Samples.worldOf Samples.storeStreaks []));
    [reflexivity|].
  apply (bool_decide_unpack _). vm_compute. exact I.
Defined.

(** ** The registry of the jobs *)

Lemma scheduleJob_isRunning name cronExpression st :
  isRunning (scheduleJob name cronExpression st) = isRunning st.
Proof. unfold scheduleJob. by destruct (has name st). Qed.

Lemma has_elem_of name st : has name st = true <-> name ∈ map fst (jobs st).
Proof.
  unfold has. rewrite existsb_exists, list_elem_of_fmap. split.
  - intros ([n e] & Hin & Heq). apply String.eqb_eq in Heq. cbn in Heq. subst n.
    exists (name, e). split; [reflexivity | by apply list_elem_of_In].
  - intros ([n e] & -> & Hin). exists (n, e).
    split; [by apply list_elem_of_In | apply String.eqb_refl].
Qed.

Lemma scheduleJob_keeps name cronExpression st :
  jobs st `prefix_of` jobs (scheduleJob name cronExpression st)
  /\ (NoDup (map fst (jobs st)) ->
      NoDup (map fst (jobs (scheduleJob name cronExpression st))))
  /\ has name (scheduleJob name cronExpression st) = true.
Proof.
  unfold scheduleJob. destruct (has name st) eqn:Hhas; cbn [jobs].
  - split; [done|]. split; [done | exact Hhas].
  - split; [by exists [(name, cronExpression)]|]. split.
    + intros Hnames. rewrite map_app. cbn [map fst]. apply NoDup_app.
      split; [exact Hnames|]. split; [|apply NoDup_singleton].
      intros n Hn Hnew. apply list_elem_of_singleton in Hnew. subst n.
      apply has_elem_of in Hn. congruence.
    + apply has_elem_of. cbn [jobs]. rewrite map_app. apply elem_of_app. right.
      by left.
Qed.

(** X29. The registry of the scheduler.  [start] does nothing when the
    scheduler runs already, so starting twice is starting once; started
    from a new scheduler it registers exactly the six jobs; it never
    replaces or removes a job that is registered already, and keeps the
    names distinct; [stop] after [start] leaves a scheduler with no job
    that is not running. *)
Theorem scheduler_registry (st : Registry) :
  start (start st) = start st
  /\ isRunning (start st) = true
  /\ stop (start st) = constructor
  /\ getJobStatus (start constructor)
     = (true, 6,
        ["daily-facts-distribution"; "retry-failed-notifications";
         "cleanup-expired-sessions"; "cleanup-old-notifications";
         "update-user-streaks"; "generate-analytics"])
  /\ jobs st `prefix_of` jobs (start st)
  /\ (NoDup (map fst (jobs st)) -> NoDup (map fst (jobs (start st))))
  /\ (isRunning st = false ->
      forall name, name ∈ ["daily-facts-distribution"; "retry-failed-notifications";
                           "cleanup-expired-sessions"; "cleanup-old-notifications";
                           "update-user-streaks"; "generate-analytics"] ->
        has name (start st) = true).
Proof.
  assert (isRunning (start st) = true) as Hrunning.
  { unfold start. destruct (isRunning st) eqn:Hst; [exact Hst|].
    cbv zeta. by rewrite !scheduleJob_isRunning. }
  split; [|split; [exact Hrunning|split; [|split; [reflexivity|]]]].
  - unfold start at 1. by rewrite Hrunning.
  - unfold stop. by rewrite Hrunning.
  - unfold start. destruct (isRunning st) eqn:Hst.
    { split; [done|]. split; [done|discriminate]. }
    cbv zeta.
    set (st0 := {| jobs := jobs st; isRunning := true |}).
    set (st1 := scheduleJob "daily-facts-distribution" "0 * * * *" st0).
    set (st2 := scheduleJob "retry-failed-notifications" "*/15 * * * *" st1).
    set (st3 := scheduleJob "cleanup-expired-sessions" "0 * * * *" st2).
    set (st4 := scheduleJob "cleanup-old-notifications" "0 2 * * *" st3).
    set (st5 := scheduleJob "update-user-streaks" "0 1 * * *" st4).
    destruct (scheduleJob_keeps "daily-facts-distribution" "0 * * * *" st0)
      as (Hp1 & Hn1 & Hh1).
    destruct (scheduleJob_keeps "retry-failed-notifications" "*/15 * * * *" st1)
      as (Hp2 & Hn2 & Hh2).
    destruct (scheduleJob_keeps "cleanup-expired-sessions" "0 * * * *" st2)
      as (Hp3 & Hn3 & Hh3).
    destruct (scheduleJob_keeps "cleanup-old-notifications" "0 2 * * *" st3)
      as (Hp4 & Hn4 & Hh4).
    destruct (scheduleJob_keeps "update-user-streaks" "0 1 * * *" st4)
      as (Hp5 & Hn5 & Hh5).
    destruct (scheduleJob_keeps "generate-analytics" "0 3 * * *" st5)
      as (Hp6 & Hn6 & Hh6).
    fold st1 in Hp1, Hn1, Hh1, Hp2, Hn2. fold st2 in Hp2, Hn2, Hh2, Hp3, Hn3.
    fold st3 in Hp3, Hn3, Hh3, Hp4, Hn4. fold st4 in Hp4, Hn4, Hh4, Hp5, Hn5.
    fold st5 in Hp5, Hn5, Hh5, Hp6, Hn6.
    set (st6 := scheduleJob "generate-analytics" "0 3 * * *" st5) in *.
    assert (forall a b : Registry, jobs a `prefix_of` jobs b ->
              forall name, has name a = true -> has name b = true) as Hmono.
    { intros a b [more Hmore] name. rewrite !has_elem_of, Hmore, map_app, elem_of_app.
      auto. }
    split; [|split].
    + change (jobs st) with (jobs st0).
      repeat (etrans; [eassumption|]). reflexivity.
    + intros Hnames. apply Hn6, Hn5, Hn4, Hn3, Hn2, Hn1. exact Hnames.
    + intros _ name Hname.
      repeat (apply elem_of_cons in Hname as [->|Hname]);
        [..|by apply elem_of_nil in Hname].
      * apply (Hmono st1 st6); [|done]. repeat (etrans; [eassumption|]). reflexivity.
      * apply (Hmono st2 st6); [|done]. repeat (etrans; [eassumption|]). reflexivity.
      * apply (Hmono st3 st6); [|done]. repeat (etrans; [eassumption|]). reflexivity.
      * apply (Hmono st4 st6); [|done]. repeat (etrans; [eassumption|]). reflexivity.
      * apply (Hmono st5 st6); [|done]. repeat (etrans; [eassumption|]). reflexivity.
      * done.
Qed.

(** ** The jobs around the notification service *)

Lemma finishes_bind {A B} (m : M A) (k : A -> M B) :
  finishes m -> (forall a, finishes (k a)) -> finishes (bind m k).
Proof.
  intros Hm Hk w. unfold bind. specialize (Hm w).
  destruct (m w) as [[a|e|] w']; [apply Hk | discriminate | done].
Qed.

Lemma finishes_tryCatch {A} (body : M A) (handler : JsError -> M A) :
  finishes body -> (forall e, finishes (handler e)) -> finishes (tryCatch body handler).
Proof.
  intros Hbody Hhandler w. unfold tryCatch. specialize (Hbody w).
  destruct (body w) as [[a|e|] w']; [discriminate | apply Hhandler | done].
Qed.

Lemma finishes_roundTrip : finishes roundTrip.
Proof. intros w. unfold roundTrip. by destruct (faults w) as [|[] later]. Qed.

Lemma finishes_query {A} (q : Store -> A) : finishes (query q).
Proof. apply finishes_bind; [apply finishes_roundTrip | by intros _ w]. Qed.

Lemma finishes_mutate (f : Store -> Store) : finishes (mutate f).
Proof. apply finishes_bind; [apply finishes_roundTrip | by intros _ w]. Qed.

Lemma finishes_forEach {A} (xs : list A) (body : A -> M unit) :
  (forall x, finishes (body x)) -> finishes (forEach xs body).
Proof.
  intros Hbody. induction xs as [|x xs IH]; [by intros w|].
  cbn [forEach]. apply finishes_bind; [apply Hbody | by intros _].
Qed.

Lemma finishes_retryFailedNotifications :
  finishes NotificationService.retryFailedNotifications.
Proof.
  unfold NotificationService.retryFailedNotifications.
  apply finishes_tryCatch; [|by intros e w].
  apply finishes_bind; [by intros w|]. intros t.
  apply finishes_bind; [apply finishes_query|]. intros failedNotifications.
  apply finishes_bind; [|by intros _ w].
  apply finishes_forEach. intros [n u]. unfold retryOne.
  destruct (negb _); [apply finishes_mutate|].
  apply finishes_tryCatch; [|by intros e w].
  apply finishes_bind; [by intros w | intros t'; apply finishes_mutate].
Qed.

Lemma finishes_cleanupOldNotifications daysToKeep :
  finishes (NotificationService.cleanupOldNotifications daysToKeep).
Proof.
  unfold NotificationService.cleanupOldNotifications.
  apply finishes_tryCatch; [|by intros e w].
  apply finishes_bind; [by intros w|]. intros t.
  apply finishes_bind; [apply finishes_roundTrip | by intros _ w].
Qed.

Lemma wrapped_job {A} (service : M A) (w : World) :
  finishes service ->
  tryCatch (let! result := service in ret tt) (fun _ => ret tt) w
  = (Returned tt, snd (service w)).
Proof.
  intros Hends. specialize (Hends w). unfold tryCatch, bind, ret.
  destruct (service w) as [[a|e|] w']; [reflexivity | reflexivity | done].
Qed.

(** X30. The scheduler jobs that call [retryFailedNotifications] and
    [cleanupOldNotifications] of the notification service never throw,
    although these functions rethrow the errors of the repository: a job
    always returns, having done to the database exactly what the function
    it calls has done, nothing more. *)
Theorem jobs_contain_errors (w : World) :
  Jobs.retryFailedNotifications w
  = (Returned tt, snd (NotificationService.retryFailedNotifications w))
  /\ Jobs.cleanupOldNotifications w
     = (Returned tt, snd (NotificationService.cleanupOldNotifications 30 w))
  /\ (forall later, faults w = true :: later ->
      (exists e, fst (NotificationService.retryFailedNotifications w) = Thrown e)
      /\ (exists e, fst (NotificationService.cleanupOldNotifications 30 w) = Thrown e)
      /\ db (snd (Jobs.retryFailedNotifications w)) = db w
      /\ db (snd (Jobs.cleanupOldNotifications w)) = db w).
Proof.
  assert (Jobs.retryFailedNotifications w
          = (Returned tt, snd (NotificationService.retryFailedNotifications w)))
    as Hretry by apply wrapped_job, finishes_retryFailedNotifications.
  assert (Jobs.cleanupOldNotifications w
          = (Returned tt, snd (NotificationService.cleanupOldNotifications 30 w)))
    as Hcleanup by apply wrapped_job, finishes_cleanupOldNotifications.
  split; [exact Hretry|]. split; [exact Hcleanup|].
  intros later Hfaults. rewrite Hretry, Hcleanup.
  unfold NotificationService.retryFailedNotifications,
    NotificationService.cleanupOldNotifications, deleteManyNotifications,
    tryCatch, bind, dateNow, query, bind, roundTrip, throw.
  rewrite Hfaults. cbn. repeat split; eauto.
Qed.
